(** * Task execution engine of the universal UI agent (multi_agent.py)

    A shallow embedding of the field tracker, the element resolvers, the
    action executor and the orchestrator loop of [src/multi_agent.py],
    followed by the properties established about them.

    Modelling conventions.
    - Python [str] is [string]; text is taken to be ASCII, so [lower] is the
      ASCII case map and whitespace is the ASCII whitespace of [str.split].
    - Python [int] is [Z]; [//] is [Z.div] (both round towards minus
      infinity for a positive divisor).
    - Python [dict] is stdpp's [gmap]; an absent key of an action plan is
      [None] and [.get(k, d)] is [default d].
    - The browser driver (Playwright) is external.  A page is a snapshot:
      a table from selectors to the elements they match, in document order;
      every driver call may raise, which is recorded per element and per
      operation.  The snapshot does not change during one resolver call.
    - Exceptions are an explicit [outcome]; the agent's methods live in a
      small state-and-exception monad whose state carries the field tracker
      and the trace of driver actions performed so far.  An exception is
      one that [except Exception] and a bare [except] both catch.
    - The orchestrator's surroundings are inputs: for each step the
      environment gives the screenshot path, the URLs read from the page,
      the planner's answer, the page snapshot the action runs against and
      the clock.  Screenshot capture, DOM extraction and the planner call
      are taken to return; the waits of the loop may raise, and then the
      run raises.  The plans the loop handles have the types of the
      planner's response format; the action executor is also given on any
      dictionary, where reading the action and the target can raise. *)

From Stdlib Require Import QArith Ascii.
From Stdlib Require String.
From stdpp Require Import base tactics option list numbers strings pretty gmap fin_maps.

Open Scope Z_scope.

(** ** Python string operations *)

Module PyStr.

Definition ascii_lower (c : ascii) : ascii :=
  let n := nat_of_ascii c in
  if ((65 <=? n) && (n <=? 90))%nat then ascii_of_nat (n + 32) else c.

(** [s.lower()] *)
Fixpoint lower (s : string) : string :=
  match s with
  | EmptyString => EmptyString
  | String c r => String (ascii_lower c) (lower r)
  end.

(** [sub in s] *)
Fixpoint str_in (sub s : string) : bool :=
  if String.prefix sub s then true
  else match s with
       | EmptyString => false
       | String _ r => str_in sub r
       end.

(** [any(w in s for w in ws)] *)
Definition any_in (ws : list string) (s : string) : bool :=
  existsb (fun w => str_in w s) ws.

Definition is_space (c : ascii) : bool :=
  let n := nat_of_ascii c in
  ((n =? 32) || ((9 <=? n) && (n <=? 13)) || ((28 <=? n) && (n <=? 31)))%nat.

(** [s.split()]: maximal runs of non-whitespace characters.  [cur] is the
    word being read. *)
Fixpoint split_from (cur : string) (s : string) : list string :=
  match s with
  | EmptyString => if String.eqb cur "" then [] else [cur]
  | String c r =>
      if is_space c
      then (if String.eqb cur "" then split_from "" r
            else cur :: split_from "" r)
      else split_from (cur +:+ String c "") r
  end.

Definition split (s : string) : list string := split_from "" s.

Fixpoint lstrip (s : string) : string :=
  match s with
  | EmptyString => EmptyString
  | String c r => if is_space c then lstrip r else s
  end.

Definition rev_string (s : string) : string :=
  String.string_of_list_ascii (rev (String.list_ascii_of_string s)).

(** [s.strip()] *)
Definition strip (s : string) : string :=
  rev_string (lstrip (rev_string (lstrip s))).

(** [s[:n]] *)
Definition take (n : nat) (s : string) : string := String.substring 0 n s.

(** truthiness of an optional string: [None] and [''] are false *)
Definition truthy (o : option string) : bool :=
  match o with
  | Some s => negb (String.eqb s "")
  | None => false
  end.

End PyStr.

(** ** FormFieldTracker *)

Module FormFieldTracker.

Record Tracker := mkTracker {
  filled_fields : gmap string string;
  field_attempts : gmap string Z;
  filled_positions : gset Z;
  content_created : bool;
  choice_made : bool;
  in_creation_flow : bool
}.

(** [__init__] *)
Definition init : Tracker :=
  {| filled_fields := ∅; field_attempts := ∅; filled_positions := ∅;
     content_created := false; choice_made := false;
     in_creation_flow := false |}.

(** [f"{field_id}|{purpose}|{position_y//100}"] *)
Definition create_field_key (field_id purpose : string) (position_y : Z) : string :=
  field_id +:+ "|" +:+ purpose +:+ "|" +:+ pretty (position_y / 100).

Definition mark_filled (t : Tracker) (field_id purpose value : string)
    (position_y : Z) : Tracker :=
  let field_key := create_field_key field_id purpose position_y in
  {| filled_fields := <[field_key := value]> (filled_fields t);
     field_attempts :=
       <[field_key := default 0 (field_attempts t !! field_key) + 1]>
         (field_attempts t);
     filled_positions := {[ position_y / 100 ]} ∪ filled_positions t;
     content_created := content_created t;
     choice_made := choice_made t;
     in_creation_flow := in_creation_flow t |}.

Definition is_filled (t : Tracker) (field_id purpose : string)
    (position_y : Z) : bool :=
  let field_key := create_field_key field_id purpose position_y in
  bool_decide (is_Some (filled_fields t !! field_key)).

Definition get_attempts (t : Tracker) (field_id purpose : string)
    (position_y : Z) : Z :=
  let field_key := create_field_key field_id purpose position_y in
  default 0 (field_attempts t !! field_key).

Definition reset (t : Tracker) : Tracker :=
  {| filled_fields := ∅; field_attempts := ∅; filled_positions := ∅;
     content_created := false; choice_made := false;
     in_creation_flow := false |}.

Definition set_content_created (t : Tracker) : Tracker :=
  {| filled_fields := filled_fields t;
     field_attempts := field_attempts t;
     filled_positions := filled_positions t;
     content_created := true;
     choice_made := choice_made t;
     in_creation_flow := in_creation_flow t |}.

End FormFieldTracker.

(** ** The browser driver *)

Inductive outcome (A : Type) : Type :=
  | Ok (a : A)
  | Raise (e : string).
Arguments Ok {A} a.
Arguments Raise {A} e.

(** Driver calls on an element handle. *)
Inductive ElemOp :=
  | OpIsVisible
  | OpBoundingBox
  | OpEvaluate
  | OpTextContent
  | OpScroll
  | OpClick (force : bool)
  | OpFill
  | OpPressSequentially.

(** Driver calls on the page. *)
Inductive PageOp :=
  | OpWait (ms : Z)
  | OpKeyPress (key : string)
  | OpKeyType (text : string).

(** An element of the snapshot: what the driver reports about it, and for
    each driver call whether that call raises (with which text). *)
Record Element := mkElement {
  el_label : string;
  el_visible : bool;
  (* el.disabled || el.getAttribute('aria-disabled') === 'true' *)
  el_disabled : bool;
  el_text : option string;
  (* int(bbox['y']) when the element has a bounding box *)
  el_box_y : option Z;
  el_fault : ElemOp -> option string
}.

Record Page := mkPage {
  (* page.locator(selector): the matches in document order *)
  locate : string -> outcome (list Element);
  page_fault : PageOp -> option string
}.

(** Driver actions, in the order they were issued. *)
Inductive Event :=
  | EvClick (e : Element) (force : bool)
  | EvScroll (e : Element)
  | EvFill (e : Element) (text : string)
  | EvPressSequentially (e : Element) (text : string)
  | EvKeyPress (key : string)
  | EvKeyType (text : string).

(** ** The agent monad: state, trace and exceptions *)

Record AgentState := mkAgentState {
  field_tracker : FormFieldTracker.Tracker;
  trace : list Event
}.

Definition M (A : Type) : Type := AgentState -> AgentState * outcome A.

Definition ret {A} (a : A) : M A := fun s => (s, Ok a).

Definition bind {A B} (m : M A) (k : A -> M B) : M B :=
  fun s =>
    match m s with
    | (s', Ok a) => k a s'
    | (s', Raise e) => (s', Raise e)
    end.

(** [try: body  except Exception as e: handler e] *)
Definition try_except {A} (body : M A) (handler : string -> M A) : M A :=
  fun s =>
    match body s with
    | (s', Ok a) => (s', Ok a)
    | (s', Raise e) => handler e s'
    end.

Definition lift {A} (o : outcome A) : M A := fun s => (s, o).

Definition emit (ev : Event) : M unit :=
  fun s => ({| field_tracker := field_tracker s; trace := trace s ++ [ev] |}, Ok tt).

Definition get_tracker : M FormFieldTracker.Tracker :=
  fun s => (s, Ok (field_tracker s)).

Definition set_tracker (t : FormFieldTracker.Tracker) : M unit :=
  fun s => ({| field_tracker := t; trace := trace s |}, Ok tt).

Declare Scope agent_scope.
Delimit Scope agent_scope with agent.
Notation "x <- m ;; k" := (bind m (fun x => k))
  (at level 20, m at level 99, k at level 200, only parsing) : agent_scope.
Notation "' p <- m ;; k" := (bind m (fun x => match x with p => k end))
  (at level 20, p pattern, m at level 99, k at level 200, only parsing)
  : agent_scope.
Notation "m >> k" := (bind m (fun _ => k))
  (at level 20, k at level 200, only parsing) : agent_scope.
Open Scope agent_scope.

Definition faulty {A} (f : option string) (a : A) : outcome A :=
  match f with
  | Some e => Raise e
  | None => Ok a
  end.

Module Driver.

Definition is_visible (e : Element) : M bool :=
  lift (faulty (el_fault e OpIsVisible) (el_visible e)).

Definition bounding_box (e : Element) : M (option Z) :=
  lift (faulty (el_fault e OpBoundingBox) (el_box_y e)).

Definition evaluate_disabled (e : Element) : M bool :=
  lift (faulty (el_fault e OpEvaluate) (el_disabled e)).

Definition text_content (e : Element) : M (option string) :=
  lift (faulty (el_fault e OpTextContent) (el_text e)).

Definition scroll_into_view_if_needed (e : Element) : M unit :=
  emit (EvScroll e) >> lift (faulty (el_fault e OpScroll) tt).

Definition click (e : Element) (force : bool) : M unit :=
  emit (EvClick e force) >> lift (faulty (el_fault e (OpClick force)) tt).

Definition fill (e : Element) (text : string) : M unit :=
  emit (EvFill e text) >> lift (faulty (el_fault e OpFill) tt).

Definition press_sequentially (e : Element) (text : string) : M unit :=
  emit (EvPressSequentially e text) >>
  lift (faulty (el_fault e OpPressSequentially) tt).

Definition wait_for_timeout (p : Page) (ms : Z) : M unit :=
  lift (faulty (page_fault p (OpWait ms)) tt).

Definition keyboard_press (p : Page) (key : string) : M unit :=
  emit (EvKeyPress key) >> lift (faulty (page_fault p (OpKeyPress key)) tt).

Definition keyboard_type (p : Page) (text : string) : M unit :=
  emit (EvKeyType text) >> lift (faulty (page_fault p (OpKeyType text)) tt).

End Driver.

(** ** UniversalUIAgent: element resolvers *)

Module UniversalUIAgent.

Import PyStr Driver.

Definition nonempty (s : string) : bool := negb (String.eqb s "").

Definition intermediate_words : list string :=
  ["continue"; "next"; "proceed"; "choose"; "select"; "skip"; "add"].

Definition final_submit_phrases : list string :=
  ["create repository"; "create project"; "create issue"; "submit";
   "publish"; "save"].

Definition is_intermediate (target : string) : bool :=
  any_in intermediate_words (lower target).

Definition is_final_submit (target : string) : bool :=
  any_in final_submit_phrases (lower target).

(** [is_final_submit and ' ' in target] *)
Definition multi_word_final (target : string) : bool :=
  is_final_submit target && str_in " " target.

(** The ordered selectors built by [_smart_click]. *)
Definition click_strategies (target selector_type : string) : list string :=
  if String.eqb selector_type "text" then
    (if multi_word_final target then
       [ "button:has-text('" +:+ target +:+ "'):not([disabled])";
         "[role='button']:has-text('" +:+ target +:+ "'):not([aria-disabled='true'])";
         "text=/^" +:+ target +:+ "$/i";
         ":text-is('" +:+ target +:+ "')";
         "button:text-is('" +:+ target +:+ "')";
         "button >> text=/" +:+ target +:+ "/i";
         "[type='submit']:has-text('" +:+ target +:+ "')" ]
     else
       [ "text=/^" +:+ target +:+ "$/i";
         ":text-is('" +:+ target +:+ "')" ])
    ++ (if is_intermediate target then
          [ "button:has-text('" +:+ target +:+ "'):not([disabled])";
            "[role='button']:has-text('" +:+ target +:+ "'):not([aria-disabled='true'])" ]
        else [])
    ++ [ "button:has-text('" +:+ target +:+ "')";
         "a:has-text('" +:+ target +:+ "')";
         "[role='button']:has-text('" +:+ target +:+ "')";
         "[role='link']:has-text('" +:+ target +:+ "')";
         "summary:has-text('" +:+ target +:+ "')" ]
    ++ [ "text=/" +:+ target +:+ "/i";
         ":text('" +:+ target +:+ "')" ]
    ++ (if negb (is_final_submit target) || negb (str_in " " target) then
          flat_map
            (fun word =>
               if (3 <? String.length word)%nat then
                 [ "button:has-text('" +:+ word +:+ "'):not([disabled])";
                   "[role='button']:has-text('" +:+ word +:+ "'):not([aria-disabled='true'])" ]
               else [])
            (split (lower target))
        else [])
  else if String.eqb selector_type "placeholder" then
    [ "[placeholder='" +:+ target +:+ "' i]";
      "[placeholder*='" +:+ target +:+ "' i]" ]
  else if String.eqb selector_type "aria_label" then
    [ "[aria-label='" +:+ target +:+ "' i]";
      "[aria-label*='" +:+ target +:+ "' i]" ]
  else if String.eqb selector_type "id" then
    [ "#" +:+ target;
      "[id='" +:+ target +:+ "']" ]
  else if String.eqb selector_type "name" then
    [ "[name='" +:+ target +:+ "']";
      "[name*='" +:+ target +:+ "' i]" ]
  else [].

(** One iteration of the strategy loop of [_smart_click]: [Some r] is
    [return r], [None] falls through to the next strategy. *)
Definition click_attempt (p : Page) (target : string) (i : nat)
    (strategy : string) : M (option (bool * string)) :=
  try_except
    (matches <- lift (locate p strategy) ;;
     match matches with
     | [] => ret None
     | locator :: _ =>
         (if multi_word_final target then
            try_except
              (scroll_into_view_if_needed locator >> wait_for_timeout p 500)
              (fun _ => ret tt)
          else ret tt) >>
         visible <- is_visible locator ;;
         if visible then
           is_disabled <- evaluate_disabled locator ;;
           if is_disabled then ret None
           else
             found_final <-
               (if is_intermediate target then
                  button_text <- text_content locator ;;
                  ret (truthy button_text &&
                       any_in ["create repository"; "create project";
                               "create issue"; "submit"]
                         (lower (default "" button_text)))
                else ret false) ;;
             if found_final then ret None
             else
               mismatch <-
                 (if multi_word_final target then
                    button_text <- text_content locator ;;
                    ret (truthy button_text &&
                         negb (str_in (lower target)
                                 (lower (default "" button_text))))
                  else ret false) ;;
               if mismatch then ret None
               else
                 click locator false >>
                 wait_for_timeout p 2000 >>
                 ret (Some (true, "Clicked using strategy " +:+ pretty i))
         else ret None
     end)
    (fun _ => ret None).

Fixpoint click_loop (p : Page) (target : string) (i : nat)
    (strategies : list string) : M (option (bool * string)) :=
  match strategies with
  | [] => ret None
  | strategy :: rest =>
      r <- click_attempt p target i strategy ;;
      match r with
      | Some res => ret (Some res)
      | None => click_loop p target (S i) rest
      end
  end.

(** One button of the last-resort scan. *)
Definition last_resort_attempt (p : Page) (words : list string)
    (btn : Element) : M (option (bool * string)) :=
  try_except
    (btn_text <- text_content btn ;;
     if truthy btn_text &&
        forallb (fun word => str_in (lower word) (lower (default "" btn_text)))
          words
     then
       is_disabled <- evaluate_disabled btn ;;
       if negb is_disabled then
         visible <- is_visible btn ;;
         if visible then
           scroll_into_view_if_needed btn >>
           wait_for_timeout p 500 >>
           click btn false >>
           wait_for_timeout p 2000 >>
           ret (Some (true, "Clicked using last resort method"))
         else ret None
       else ret None
     else ret None)
    (fun _ => ret None).

Fixpoint last_resort_loop (p : Page) (words : list string)
    (all_buttons : list Element) : M (option (bool * string)) :=
  match all_buttons with
  | [] => ret None
  | btn :: rest =>
      r <- last_resort_attempt p words btn ;;
      match r with
      | Some res => ret (Some res)
      | None => last_resort_loop p words rest
      end
  end.

Definition last_resort (p : Page) (target : string)
    : M (option (bool * string)) :=
  if multi_word_final target then
    let words := split target in
    if (length words =? 2)%nat then
      try_except
        (all_buttons <- lift (locate p "button, [role='button']") ;;
         last_resort_loop p words all_buttons)
        (fun _ => ret None)
    else ret None
  else ret None.

Definition _smart_click (p : Page) (target selector_type : string)
    : M (bool * string) :=
  r <- click_loop p target 1 (click_strategies target selector_type) ;;
  match r with
  | Some res => ret res
  | None =>
      r' <- last_resort p target ;;
      match r' with
      | Some res => ret res
      | None => ret (false, "Could not click: " +:+ target)
      end
  end.

(** *** Text entry *)

(** The selectors built by [_smart_type]. *)
Definition type_strategies (target selector_type : string) (target_y : Z)
    : list string :=
  (if nonempty target && negb (str_in " " target) &&
      (5 <? String.length target)%nat
   then [ "#" +:+ target; "input#" +:+ target; "[id='" +:+ target +:+ "']" ]
   else [])
  ++ (if nonempty target
      then [ "[name='" +:+ target +:+ "']"; "[name*='" +:+ target +:+ "' i]" ]
      else [])
  ++ (if String.eqb selector_type "placeholder" || nonempty target
      then [ "[placeholder='" +:+ target +:+ "' i]";
             "[placeholder*='" +:+ target +:+ "' i]";
             "[aria-placeholder*='" +:+ target +:+ "' i]" ]
      else [])
  ++ (if String.eqb selector_type "aria_label" || nonempty target
      then [ "[aria-label='" +:+ target +:+ "' i]";
             "[aria-label*='" +:+ target +:+ "' i]" ]
      else [])
  ++ (if nonempty target
      then [ "[data-testid*='" +:+ target +:+ "' i]" ]
      else [])
  ++ (if nonempty target && (length (split target) <=? 3)%nat
      then [ "label:has-text('" +:+ target +:+ "') >> input";
             ":text('" +:+ target +:+ "') >> .. >> input" ]
      else [])
  ++ (if 0 <? target_y
      then [ "input[type='text']:visible";
             "input:not([type='hidden']):not([type='submit']):visible";
             "textarea:visible" ]
      else [])
  ++ [ "[contenteditable='true']" ].

(** The search variables of [_smart_type] and [_type_contenteditable].
    [best_distance = None] is [float('inf')].  [considered] is a ghost
    field: every (strategy, element, distance) for which the distance was
    computed, most recent first. *)
Record Search := mkSearch {
  best_match : option Element;
  best_distance : option Z;
  best_strategy_used : nat;
  considered : list (nat * Element * Z)
}.

Definition search_init : Search :=
  {| best_match := None; best_distance := None; best_strategy_used := 0;
     considered := [] |}.

(** [distance < best_distance] *)
Definition closer (distance : Z) (best : option Z) : bool :=
  match best with
  | None => true
  | Some b => distance <? b
  end.

(** [best_distance < bound] *)
Definition within (best : option Z) (bound : Z) : bool :=
  match best with
  | None => false
  | Some b => b <? bound
  end.

(** [150 if i > 6 else 80] *)
Definition max_distance (i : nat) : Z := if (6 <? i)%nat then 150 else 80.

Definition visible_q (e : Element) : outcome bool :=
  faulty (el_fault e OpIsVisible) (el_visible e).

Definition bbox_q (e : Element) : outcome (option Z) :=
  faulty (el_fault e OpBoundingBox) (el_box_y e).

(** The inner loop of [_smart_type] when [target_y > 0], over the first
    five matches of strategy [i]. *)
Fixpoint scan_near (target_y : Z) (i : nat) (elems : list Element)
    (b : Search) : Search :=
  match elems with
  | [] => b
  | elem :: rest =>
      match visible_q elem with
      | Ok true =>
          match bbox_q elem with
          | Ok (Some elem_y) =>
              let distance := Z.abs (elem_y - target_y) in
              let seen := (i, elem, distance) :: considered b in
              if (distance <? max_distance i) && closer distance (best_distance b)
              then
                let b' := {| best_match := Some elem;
                             best_distance := Some distance;
                             best_strategy_used := i;
                             considered := seen |} in
                if distance <? 20 then b' else scan_near target_y i rest b'
              else
                scan_near target_y i rest
                  {| best_match := best_match b;
                     best_distance := best_distance b;
                     best_strategy_used := best_strategy_used b;
                     considered := seen |}
          | Ok None => scan_near target_y i rest b
          | Raise _ => scan_near target_y i rest b
          end
      | Ok false => scan_near target_y i rest b
      | Raise _ => scan_near target_y i rest b
      end
  end.

(** The inner loop when no target Y is given: the first visible of the
    first two matches. *)
Fixpoint first_visible (i : nat) (elems : list Element) (b : Search) : Search :=
  match elems with
  | [] => b
  | elem :: rest =>
      match visible_q elem with
      | Ok true =>
          {| best_match := Some elem;
             best_distance := best_distance b;
             best_strategy_used := i;
             considered := considered b |}
      | Ok false => first_visible i rest b
      | Raise _ => first_visible i rest b
      end
  end.

(** The strategy loop of [_smart_type]. *)
Fixpoint find_field (p : Page) (target_y : Z) (i : nat)
    (strategies : list string) (b : Search) : Search :=
  match strategies with
  | [] => b
  | selector :: rest =>
      match locate p selector with
      | Ok matches =>
          if (0 <? length matches)%nat then
            if 0 <? target_y then
              let b' := scan_near target_y i (firstn 5 matches) b in
              if bool_decide (is_Some (best_match b')) &&
                 (best_strategy_used b' <=? 6)%nat &&
                 within (best_distance b') 50
              then b'
              else find_field p target_y (S i) rest b'
            else
              let b' := first_visible i (firstn 2 matches) b in
              if bool_decide (is_Some (best_match b')) && (i <=? 6)%nat
              then b'
              else find_field p target_y (S i) rest b'
          else find_field p target_y (S i) rest b
      | Raise _ => find_field p target_y (S i) rest b
      end
  end.

(** The three input techniques applied to the winning candidate. *)
Definition write_value (p : Page) (best : Element) (value : string)
    (best_strategy_used : nat) : M (bool * string) :=
  try_except
    (try_except
       (click best true)
       (fun _ =>
          scroll_into_view_if_needed best >>
          wait_for_timeout p 300 >>
          click best false) >>
     wait_for_timeout p 500 >>
     success1 <-
       try_except
         (fill best "" >>
          wait_for_timeout p 200 >>
          fill best value >>
          wait_for_timeout p 500 >>
          ret true)
         (fun _ => ret false) ;;
     success2 <-
       (if negb success1 then
          try_except
            (click best true >>
             keyboard_press p "Control+A" >>
             wait_for_timeout p 100 >>
             keyboard_type p value >>
             wait_for_timeout p 500 >>
             ret true)
            (fun _ => ret false)
        else ret success1) ;;
     success3 <-
       (if negb success2 then
          try_except
            (press_sequentially best value >>
             wait_for_timeout p 500 >>
             ret true)
            (fun _ => ret false)
        else ret success2) ;;
     if success3
     then ret (true, "Typed using strategy " +:+ pretty best_strategy_used)
     else ret (false, "All typing methods failed"))
    (fun e => ret (false, "Typing error: " +:+ take 100 e)).

Definition _smart_type (p : Page) (target value selector_type : string)
    (target_y : Z) : M (bool * string) :=
  let b := find_field p target_y 1
             (type_strategies target selector_type target_y) search_init in
  match best_match b with
  | Some best => write_value p best value (best_strategy_used b)
  | None => ret (false, "Could not find field: " +:+ target)
  end.

(** *** Editable regions *)

Definition contenteditable_strategies (target : string) : list string :=
  (if nonempty target
   then [ "[contenteditable='true'][placeholder*='" +:+ target +:+ "' i]";
          "[contenteditable='true'][aria-label*='" +:+ target +:+ "' i]";
          "[contenteditable='true']:has-text('" +:+ target +:+ "')" ]
   else [])
  ++ [ "[contenteditable='true']:empty";
       "[contenteditable='true']" ].

Fixpoint scan_near_ce (target_y : Z) (i : nat) (elems : list Element)
    (b : Search) : Search :=
  match elems with
  | [] => b
  | elem :: rest =>
      match visible_q elem with
      | Ok true =>
          match bbox_q elem with
          | Ok (Some elem_y) =>
              let distance := Z.abs (elem_y - target_y) in
              let seen := (i, elem, distance) :: considered b in
              if (distance <? 100) && closer distance (best_distance b)
              then
                let b' := {| best_match := Some elem;
                             best_distance := Some distance;
                             best_strategy_used := i;
                             considered := seen |} in
                if distance <? 15 then b' else scan_near_ce target_y i rest b'
              else
                scan_near_ce target_y i rest
                  {| best_match := best_match b;
                     best_distance := best_distance b;
                     best_strategy_used := best_strategy_used b;
                     considered := seen |}
          | Ok None => scan_near_ce target_y i rest b
          | Raise _ => scan_near_ce target_y i rest b
          end
      | Ok false => scan_near_ce target_y i rest b
      | Raise _ => scan_near_ce target_y i rest b
      end
  end.

(** The strategy loop of [_type_contenteditable]; [n] is
    [len(strategies)]. *)
Fixpoint find_contenteditable (p : Page) (target_y : Z) (n : nat) (i : nat)
    (strategies : list string) (b : Search) : Search :=
  match strategies with
  | [] => b
  | selector :: rest =>
      match locate p selector with
      | Ok matches =>
          if (0 <? length matches)%nat then
            if 0 <? target_y then
              let b' := scan_near_ce target_y i (firstn 5 matches) b in
              if bool_decide (is_Some (best_match b')) &&
                 (best_strategy_used b' <? n - 1)%nat
              then b'
              else find_contenteditable p target_y n (S i) rest b'
            else
              let b' := if (i <? n - 1)%nat
                        then first_visible i (firstn 2 matches) b
                        else b in
              if bool_decide (is_Some (best_match b'))
              then b'
              else find_contenteditable p target_y n (S i) rest b'
          else find_contenteditable p target_y n (S i) rest b
      | Raise _ => find_contenteditable p target_y n (S i) rest b
      end
  end.

Definition _type_contenteditable (p : Page) (target value : string)
    (target_y : Z) : M (bool * string) :=
  let strategies := contenteditable_strategies target in
  let b := find_contenteditable p target_y (length strategies) 1 strategies
             search_init in
  r <- match best_match b with
       | Some best =>
           try_except
             (click best false >>
              wait_for_timeout p 500 >>
              keyboard_type p value >>
              wait_for_timeout p 800 >>
              ret (Some (true, "Typed into contenteditable using strategy "
                                 +:+ pretty (best_strategy_used b))))
             (fun _ => ret None)
       | None => ret None
       end ;;
  match r with
  | Some res => ret res
  | None => ret (false, "Could not type into contenteditable: " +:+ target)
  end.

(** *** Action executor *)

(** The action plan returned by the planner: a dictionary whose keys may be
    absent.  The values have the types of the planner's response format
    (texts, numbers, a boolean); [confidence] is the exact value of the
    parsed number. *)
Record ActionPlan := mkPlan {
  action : string;
  target : option string;
  value : option string;
  selector_type : option string;
  field_purpose : option string;
  target_y_position : option Z;
  wait_after : option Z;
  is_complete : bool;
  confidence : option Q;
  reasoning : option string
}.

(** The resolver methods [execute_action] calls through [self]. *)
Record Resolvers := mkResolvers {
  smart_click : string -> string -> M (bool * string);
  smart_type : string -> string -> string -> Z -> M (bool * string);
  type_contenteditable : string -> string -> Z -> M (bool * string)
}.

Definition resolvers_of (p : Page) : Resolvers :=
  {| smart_click := _smart_click p;
     smart_type := _smart_type p;
     type_contenteditable := _type_contenteditable p |}.

Definition creation_words : list string :=
  ["create"; "new"; "add"; "repository"; "project"; "issue"].

Definition tracker_reset : M unit :=
  t <- get_tracker ;; set_tracker (FormFieldTracker.reset t).

Definition tracker_mark_filled (field_id purpose value : string)
    (position_y : Z) : M unit :=
  t <- get_tracker ;;
  set_tracker (FormFieldTracker.mark_filled t field_id purpose value position_y).

Definition tracker_set_content_created : M unit :=
  t <- get_tracker ;; set_tracker (FormFieldTracker.set_content_created t).

(** The body of the [try] block of [execute_action], for a plan whose
    action and target are texts.  The method reads both before the [try]
    block; on texts these two lines cannot raise, so they are bound here,
    where they are used. *)
Definition execute_action_body (rs : Resolvers) (p : Page)
    (action_plan : ActionPlan) : M (bool * string) :=
  let action := action action_plan in
  let target := strip (default "" (target action_plan)) in
  if String.eqb action "complete" then
    ret (true, "Task marked as complete")
  else if String.eqb action "press_key" then
    let key := if nonempty target then target
               else default "Enter" (value action_plan) in
    try_except
      (keyboard_press p key >>
       wait_for_timeout p 800 >>
       ret (true, "Pressed key: " +:+ key))
      (fun e => ret (false, "Key press error: " +:+ e))
  else if String.eqb action "click" || String.eqb action "navigate" then
    ' (success, msg) <-
      smart_click rs target (default "text" (selector_type action_plan)) ;;
    (if success && any_in creation_words (lower target)
     then tracker_reset else ret tt) >>
    ret (success, msg)
  else if String.eqb action "type_contenteditable" then
    let value := default "" (value action_plan) in
    let field_purpose := default "other" (field_purpose action_plan) in
    let target_y := default 0 (target_y_position action_plan) in
    let field_id := target in
    t <- get_tracker ;;
    if FormFieldTracker.is_filled t field_id field_purpose target_y then
      ret (true, "Skipped (already filled)")
    else if 2 <=? FormFieldTracker.get_attempts t field_id field_purpose target_y
    then ret (true, "Skipped (too many attempts)")
    else
      ' (success, msg) <- type_contenteditable rs target value target_y ;;
      (if success then
         tracker_mark_filled field_id field_purpose value target_y >>
         (if existsb (String.eqb field_purpose) ["title"; "body"; "content"]
          then tracker_set_content_created else ret tt)
       else ret tt) >>
      ret (success, msg)
  else if String.eqb action "type" then
    let value := default "" (value action_plan) in
    let field_purpose := default "other" (field_purpose action_plan) in
    let target_y := default 0 (target_y_position action_plan) in
    let selector_type := default "placeholder" (selector_type action_plan) in
    let field_id := target in
    t <- get_tracker ;;
    if FormFieldTracker.is_filled t field_id field_purpose target_y then
      ret (true, "Skipped (already filled)")
    else if 2 <=? FormFieldTracker.get_attempts t field_id field_purpose target_y
    then ret (true, "Skipped (too many attempts)")
    else
      ' (success, msg) <- smart_type rs target value selector_type target_y ;;
      (if success
       then tracker_mark_filled field_id field_purpose value target_y
       else ret tt) >>
      ret (success, msg)
  else if String.eqb action "wait" then
    let wait_time := default 2000 (wait_after action_plan) in
    wait_for_timeout p wait_time >>
    ret (true, "Waited " +:+ pretty wait_time +:+ "ms")
  else ret (false, "Unknown action: " +:+ action).

(** [execute_action] on a plan whose action and target are texts.  The
    method on any dictionary, where the two lines before the [try] block
    can raise, is [execute_action_dict] below. *)
Definition execute_action (rs : Resolvers) (p : Page)
    (action_plan : ActionPlan) : M (bool * string) :=
  try_except
    (execute_action_body rs p action_plan)
    (fun e => ret (false, "Error: " +:+ e)).

(** *** The action plan as a dictionary *)

(** A value of the dictionary the planner returns.  [PyOther] is a float,
    a list or a dictionary, given by the name of its type and its
    [str()]. *)
Inductive PyValue :=
  | PyNone
  | PyBool (b : bool)
  | PyInt (z : Z)
  | PyStr (s : string)
  | PyOther (type_name text : string).

(** [type(v).__name__] *)
Definition type_name (v : PyValue) : string :=
  match v with
  | PyNone => "NoneType"
  | PyBool _ => "bool"
  | PyInt _ => "int"
  | PyStr _ => "str"
  | PyOther name _ => name
  end.

(** [str(v)], as an f-string formats it *)
Definition py_str (v : PyValue) : string :=
  match v with
  | PyNone => "None"
  | PyBool true => "True"
  | PyBool false => "False"
  | PyInt z => pretty z
  | PyStr s => s
  | PyOther _ text => text
  end.

(** The dictionary [execute_action] receives.  The keys ['action'] and
    ['target'] are read before the [try] block: each is absent or holds any
    value.  The other keys are read inside the [try] block, where a value
    of another type than the response format gives is passed on or raises
    and is caught; they are those of [dict_typed] (whose own action and
    target are not used). *)
Record PlanDict := mkPlanDict {
  dict_action : option PyValue;
  dict_target : option PyValue;
  dict_typed : ActionPlan
}.

(** The plan once ['action'] and ['target'] are known to be texts. *)
Definition typed_plan (d : PlanDict) (action target : string) : ActionPlan :=
  {| action := action;
     target := Some target;
     value := value (dict_typed d);
     selector_type := selector_type (dict_typed d);
     field_purpose := field_purpose (dict_typed d);
     target_y_position := target_y_position (dict_typed d);
     wait_after := wait_after (dict_typed d);
     is_complete := is_complete (dict_typed d);
     confidence := confidence (dict_typed d);
     reasoning := reasoning (dict_typed d) |}.

(** [execute_action] on any dictionary.  [action_plan['action']] raises
    [KeyError] when the key is absent, and
    [action_plan.get('target', '').strip()] raises [AttributeError] when
    the value is not a text; both are evaluated before the [try] block.
    An action that is not a text equals none of the action names. *)
Definition execute_action_dict (rs : Resolvers) (p : Page) (d : PlanDict)
    : M (bool * string) :=
  match dict_action d with
  | None => lift (Raise "'action'")
  | Some action =>
      match default (PyStr "") (dict_target d) with
      | PyStr target =>
          match action with
          | PyStr a => execute_action rs p (typed_plan d a target)
          | _ => ret (false, "Unknown action: " +:+ py_str action)
          end
      | v =>
          lift (Raise ("'" +:+ type_name v +:+
                       "' object has no attribute 'strip'"))
      end
  end.

(** *** Orchestrator *)

Record UIState := mkUIState {
  step_number : Z;
  description : string;
  screenshot_path : string;
  url : string;
  timestamp : string;
  ui_actions_taken : list string
}.

Record TaskWorkflow := mkWorkflow {
  task_description : string;
  app_name : string;
  app_url : string;
  states : list UIState;
  total_steps : Z;
  completion_status : string
}.

(** What the environment supplies during one step: the screenshot path,
    [page.url] at the completion check and when the state is recorded, the
    planner's answer, the page snapshot the action runs against, and the
    clock. *)
Record StepEnv := mkStepEnv {
  env_screenshot : string;
  env_current_url : string;
  env_plan : ActionPlan;
  env_page : Page;
  env_state_url : string;
  env_now : string
}.

Record World := mkWorld {
  (* page.url after the initial navigation *)
  start_url : string;
  (* the result of wait_for_login *)
  login_ok : bool;
  (* page.url when the loop starts *)
  initial_url : string;
  step_env : Z -> StepEnv
}.

(** The local variables of [execute_task] together with [self]. *)
Record LoopState := mkLoop {
  workflow : TaskWorkflow;
  actions_taken : list string;
  consecutive_failures : Z;
  same_action_count : Z;
  last_action_signature : string;
  creation_completed : bool;
  agent : AgentState
}.

Inductive Control :=
  | Continue (st : LoopState)
  | Break (st : LoopState)
  | Propagate (e : string).

Definition finish (wf : TaskWorkflow) (status : string) (steps : Z)
    : TaskWorkflow :=
  {| task_description := task_description wf; app_name := app_name wf;
     app_url := app_url wf; states := states wf;
     total_steps := steps; completion_status := status |}.

Definition append_state (wf : TaskWorkflow) (ui : UIState) : TaskWorkflow :=
  {| task_description := task_description wf; app_name := app_name wf;
     app_url := app_url wf; states := states wf ++ [ui];
     total_steps := total_steps wf;
     completion_status := completion_status wf |}.

(** [s.count(c)] for a one-character [c] *)
Fixpoint count_char (c : ascii) (s : string) : Z :=
  match s with
  | EmptyString => 0
  | String d r => (if Ascii.eqb c d then 1 else 0) + count_char c r
  end.

Definition url_indicates_success (task current_url initial_url : string)
    : bool :=
  let task_lower := lower task in
  if str_in "project" task_lower then
    str_in "/projects/" current_url && negb (str_in "/new" current_url) &&
    negb (String.eqb current_url initial_url)
  else if str_in "repository" task_lower || str_in "repo" task_lower then
    (4 <=? count_char "/" current_url) && negb (str_in "/new" current_url)
  else if str_in "issue" task_lower then
    str_in "/issues/" current_url && (5 <=? count_char "/" current_url)
  else false.

(** [f"{action}|{target}|{value}"] *)
Definition action_signature (action_plan : ActionPlan) : string :=
  action action_plan +:+ "|" +:+ default "" (target action_plan) +:+ "|" +:+
  default "" (value action_plan).

Definition final_submit_targets : list string :=
  ["create repository"; "create project"; "create issue";
   "submit new issue"; "create pull request"; "publish"].

Definition action_summary (step : Z) (action_plan : ActionPlan)
    (success : bool) : string :=
  ("Step " +:+ pretty step +:+ ": " +:+ action action_plan) +:+
  (if truthy (target action_plan)
   then " - " +:+ take 50 (default "" (target action_plan)) else "") +:+
  " -> " +:+ (if success then "✓" else "✗").

(** The double nearest to 0.7, as an exact rational. *)
Definition threshold_0_7 : Q := 3152519739159347 # 4503599627370496.

(** [action_plan.get('is_complete') and action_plan.get('confidence', 0) > 0.7] *)
Definition self_reports_complete (action_plan : ActionPlan) : bool :=
  is_complete action_plan &&
  negb (Qle_bool (default 0%Q (confidence action_plan)) threshold_0_7).

(** The early completion check at the head of an iteration: after a
    successful final submit, wait and look at the URL. *)
Definition completion_check (task initial_url : string) (env : StepEnv)
    (st : LoopState) : AgentState * outcome bool :=
  if creation_completed st then
    match wait_for_timeout (env_page env) 2000 (agent st) with
    | (ag, Ok _) =>
        (ag, Ok (url_indicates_success task (env_current_url env) initial_url))
    | (ag, Raise e) => (ag, Raise e)
    end
  else (agent st, Ok false).

(** The repetition guard: the new repeat count, and whether the loop
    breaks. *)
Definition repetition_guard (signature last : string) (same_action_count : Z)
    : Z * bool :=
  if String.eqb signature last
  then (same_action_count + 1, 3 <=? same_action_count + 1)
  else (0, false).

(** One iteration of the step loop of [execute_task]. *)
Definition loop_body (task initial_url : string) (env : StepEnv) (step : Z)
    (st : LoopState) : Control :=
  let screenshot_path := env_screenshot env in
  let page := env_page env in
  match completion_check task initial_url env st with
  | (_, Raise e) => Propagate e
  | (ag0, Ok true) =>
      Break {| workflow := finish (workflow st) "completed" step;
               actions_taken := actions_taken st;
               consecutive_failures := consecutive_failures st;
               same_action_count := same_action_count st;
               last_action_signature := last_action_signature st;
               creation_completed := creation_completed st;
               agent := ag0 |}
  | (ag0, Ok false) =>
      let action_plan := env_plan env in
      let signature := action_signature action_plan in
      let guard := repetition_guard signature (last_action_signature st)
                     (same_action_count st) in
      let same_action_count' := guard.1 in
      if guard.2 then
        Break {| workflow := finish (workflow st) "failed_infinite_loop" step;
                 actions_taken := actions_taken st;
                 consecutive_failures := consecutive_failures st;
                 same_action_count := same_action_count';
                 last_action_signature := last_action_signature st;
                 creation_completed := creation_completed st;
                 agent := ag0 |}
      else
        let ui_state :=
          {| step_number := step;
             description := default "Unknown" (reasoning action_plan);
             screenshot_path := screenshot_path;
             url := env_state_url env;
             timestamp := env_now env;
             ui_actions_taken := actions_taken st |} in
        let wf1 := append_state (workflow st) ui_state in
        match execute_action (resolvers_of page) page action_plan ag0 with
        | (_, Raise e) => Propagate e
        | (ag1, Ok (success, message)) =>
            let target := lower (default "" (target action_plan)) in
            let is_final_submit := any_in final_submit_targets target in
            let creation_completed' :=
              if success && is_final_submit then true
              else creation_completed st in
            let actions_taken' :=
              actions_taken st ++ [action_summary step action_plan success] in
            let consecutive_failures' :=
              if success then 0 else consecutive_failures st + 1 in
            let wait_time := default 1500 (wait_after action_plan) in
            match wait_for_timeout page wait_time ag1 with
            | (_, Raise e) => Propagate e
            | (ag2, Ok _) =>
                let next wf :=
                  {| workflow := wf;
                     actions_taken := actions_taken';
                     consecutive_failures := consecutive_failures';
                     same_action_count := same_action_count';
                     last_action_signature := signature;
                     creation_completed := creation_completed';
                     agent := ag2 |} in
                if self_reports_complete action_plan then
                  Break (next (finish wf1 "completed" step))
                else if 4 <=? consecutive_failures' then
                  Break (next (finish wf1 "failed_too_many_errors" step))
                else Continue (next wf1)
            end
        end
  end.

(** [for step in range(first, first + fuel)] *)
Fixpoint run_steps (task initial_url : string) (env : Z -> StepEnv)
    (fuel : nat) (step : Z) (st : LoopState) : Control :=
  match fuel with
  | O => Continue st
  | S fuel' =>
      match loop_body task initial_url (env step) step st with
      | Continue st' => run_steps task initial_url env fuel' (step + 1) st'
      | Break st' => Break st'
      | Propagate e => Propagate e
      end
  end.

Definition login_keywords : list string :=
  ["login"; "signin"; "auth"; "sessions/verified"].

Definition loop_init (task app_url app_name : string) (ag : AgentState)
    : LoopState :=
  {| workflow := {| task_description := task; app_name := app_name;
                    app_url := app_url; states := []; total_steps := 0;
                    completion_status := "in_progress" |};
     actions_taken := [];
     consecutive_failures := 0;
     same_action_count := 0;
     last_action_signature := "";
     creation_completed := false;
     agent := ag |}.

(** The code after the loop. *)
Definition finalize (max_steps : Z) (wf : TaskWorkflow) : TaskWorkflow :=
  if String.eqb (completion_status wf) "in_progress"
  then finish wf "max_steps_reached" max_steps
  else wf.

Definition execute_task (w : World) (task app_url app_name : string)
    (max_steps : Z) (ag : AgentState) : outcome TaskWorkflow :=
  if any_in login_keywords (lower (start_url w)) && negb (login_ok w) then
    Raise "Login failed or timeout"
  else
    match run_steps task (initial_url w) (step_env w) (Z.to_nat max_steps) 1
            (loop_init task app_url app_name ag) with
    | Continue st => Ok (finalize max_steps (workflow st))
    | Break st => Ok (finalize max_steps (workflow st))
    | Propagate e => Raise e
    end.

(** *** Planner: from the model's answer to an action plan *)

(** [s.find(c)] for a one-character [c]: the index of the first
    occurrence, or -1. *)
Fixpoint str_find (c : ascii) (s : string) : Z :=
  match s with
  | EmptyString => -1
  | String d r =>
      if Ascii.eqb c d then 0
      else let i := str_find c r in if i =? -1 then -1 else i + 1
  end.

(** [s.rfind(c)]: the index of the last occurrence, or -1. *)
Fixpoint str_rfind (c : ascii) (s : string) : Z :=
  match s with
  | EmptyString => -1
  | String d r =>
      let i := str_rfind c r in
      if i =? -1 then (if Ascii.eqb c d then 0 else -1) else i + 1
  end.

(** [s[a:b]] for [0 <= a <= b] *)
Definition slice (a b : Z) (s : string) : string :=
  String.substring (Z.to_nat a) (Z.to_nat (b - a)) s.

(** What [json.loads] gives for the planner's object: the keys of the
    response format, each of which may be absent. *)
Record RawPlan := mkRawPlan {
  raw_action : option string;
  raw_target : option string;
  raw_value : option string;
  raw_selector_type : option string;
  raw_field_purpose : option string;
  raw_target_y_position : option Z;
  raw_wait_after : option Z;
  raw_is_complete : option bool;
  raw_confidence : option Q;
  raw_reasoning : option string
}.

(** The doubles 0.3 and 0.1, as exact rationals. *)
Definition double_0_3 : Q := 5404319552844595 # 18014398509481984.
Definition double_0_1 : Q := 3602879701896397 # 36028797018963968.

(** The defaults [analyze_and_plan] sets on a parsed plan. *)
Definition with_defaults (raw : RawPlan) : ActionPlan :=
  {| action := default "wait" (raw_action raw);
     target := raw_target raw;
     value := raw_value raw;
     selector_type := raw_selector_type raw;
     field_purpose := raw_field_purpose raw;
     target_y_position := Some (default 0 (raw_target_y_position raw));
     wait_after := Some (default 1500 (raw_wait_after raw));
     is_complete := default false (raw_is_complete raw);
     confidence := Some (default (1 # 2) (raw_confidence raw));
     reasoning := raw_reasoning raw |}.

(** The plan returned when the answer holds no JSON object. *)
Definition unparseable_plan : ActionPlan :=
  {| action := "wait";
     target := None;
     value := None;
     selector_type := None;
     field_purpose := None;
     target_y_position := Some 0;
     wait_after := Some 2000;
     is_complete := false;
     confidence := Some double_0_3;
     reasoning := Some "Could not parse LLM response" |}.

(** The plan returned by the [except] branch. *)
Definition error_plan (e : string) : ActionPlan :=
  {| action := "wait";
     target := None;
     value := None;
     selector_type := None;
     field_purpose := None;
     target_y_position := Some 0;
     wait_after := Some 2000;
     is_complete := false;
     confidence := Some double_0_1;
     reasoning := Some ("Error: " +:+ e) |}.

(** The text from the first opening brace to the last closing brace, when
    there is one after the other. *)
Definition json_span (response_text : string) : option string :=
  let json_start := str_find "{" response_text in
  let json_end := str_rfind "}" response_text + 1 in
  if negb (json_start =? -1) && (json_start <? json_end)
  then Some (slice json_start json_end response_text)
  else None.

(** [analyze_and_plan], after the prompt has been built.  [llm] is the
    outcome of the completion request, down to the message content;
    [loads] is [json.loads]. *)
Definition analyze_and_plan (llm : outcome string)
    (loads : string -> outcome RawPlan) : ActionPlan :=
  match llm with
  | Ok content =>
      let response_text := strip content in
      match json_span response_text with
      | Some json_str =>
          match loads json_str with
          | Ok action_plan => with_defaults action_plan
          | Raise e => error_plan e
          end
      | None => unparseable_plan
      end
  | Raise e => error_plan e
  end.

(** *** Prompt: which input fields are marked SKIP *)

(** An input field of the DOM summary, with the keys the prompt reads. *)
Record InputField := mkInputField {
  fieldId : option string;
  placeholder : option string;
  aria_label : option string;
  (* field.get('position', {}).get('y') *)
  position_y : option Z
}.

(** The purpose [create_smart_prompt] assigns to an input field. *)
Definition prompt_field_purpose (field : InputField) : string :=
  let field_id := take 50 (default "unknown" (fieldId field)) in
  let placeholder := take 40 (default "" (placeholder field)) in
  let aria := take 40 (default "" (aria_label field)) in
  let combined_text :=
    lower (placeholder +:+ " " +:+ aria +:+ " " +:+ field_id) in
  if any_in ["name"; "title"; "repository name"; "project name"] combined_text
  then "name"
  else if any_in ["description"; "summary"; "about"] combined_text
  then "description"
  else "other".

(** The marker shown for an input field. *)
Definition already_filled (t : FormFieldTracker.Tracker) (field : InputField)
    : string :=
  let field_id := take 50 (default "unknown" (fieldId field)) in
  let pos_y := default 0 (position_y field) in
  if FormFieldTracker.is_filled t field_id (prompt_field_purpose field) pos_y
  then "SKIP" else "CAN FILL".

End UniversalUIAgent.

(** ** Reference notions and concrete scenarios used by the properties *)

(** The position bucket in the specification's words: the position rounded
    to the nearest multiple of 100 (a half rounds up). *)
Definition nearest_100 (y : Z) : Z := 100 * ((y + 50) / 100).

(** A sequence of [mark_filled] calls. *)
Definition mark_all (t : FormFieldTracker.Tracker)
    (calls : list (string * string * string * Z)) : FormFieldTracker.Tracker :=
  fold_left
    (fun t c =>
       match c with
       | (field_id, purpose, value, position_y) =>
           FormFieldTracker.mark_filled t field_id purpose value position_y
       end)
    calls t.

(** What a computation of the agent monad does, for the resolvers: it
    leaves the field tracker alone, every driver action it adds to the
    trace satisfies [P], and a value it returns satisfies [Q]. *)
Definition resolver_spec {A} (P : Event -> Prop) (Q : A -> Prop) (m : M A)
    : Prop :=
  forall s,
    field_tracker (m s).1 = field_tracker s /\
    (exists evs, trace (m s).1 = trace s ++ evs /\ Forall P evs) /\
    (forall a, (m s).2 = Ok a -> Q a).

Definition any {A} : A -> Prop := fun _ => True.

Definition resolvers_quiet (rs : UniversalUIAgent.Resolvers) : Prop :=
  (forall t k, resolver_spec (fun _ => True) any
                 (UniversalUIAgent.smart_click rs t k)) /\
  (forall t v k y, resolver_spec (fun _ => True) any
                     (UniversalUIAgent.smart_type rs t v k y)) /\
  (forall t v y, resolver_spec (fun _ => True) any
                   (UniversalUIAgent.type_contenteditable rs t v y)).

(** The tracker invariant between two resets: a key has an attempt count
    exactly when it is filled, and that count is 1. *)
Definition attempts_at_most_once (t : FormFieldTracker.Tracker) : Prop :=
  forall k,
    (FormFieldTracker.field_attempts t !! k = None /\
     FormFieldTracker.filled_fields t !! k = None) \/
    (FormFieldTracker.field_attempts t !! k = Some 1 /\
     is_Some (FormFieldTracker.filled_fields t !! k)).

(** A sequence of [execute_action] calls, each against its own page
    snapshot. *)
Definition run_actions (calls : list (Page * UniversalUIAgent.ActionPlan))
    (s : AgentState) : AgentState :=
  fold_left
    (fun s c =>
       (UniversalUIAgent.execute_action
          (UniversalUIAgent.resolvers_of c.1) c.1 c.2 s).1)
    calls s.

(** *** Concrete scenarios for the orchestrator *)

(** A page on which no selector matches anything and no driver call fails. *)
Definition blank_page : Page :=
  {| locate := fun _ => Ok []; page_fault := fun _ => None |}.

Definition fresh_agent : AgentState :=
  {| field_tracker := FormFieldTracker.init; trace := [] |}.

Definition plan_of (action : string) (target : option string)
    (is_complete : bool) (confidence : Q) : UniversalUIAgent.ActionPlan :=
  {| UniversalUIAgent.action := action;
     UniversalUIAgent.target := target;
     UniversalUIAgent.value := None;
     UniversalUIAgent.selector_type := None;
     UniversalUIAgent.field_purpose := None;
     UniversalUIAgent.target_y_position := Some 0;
     UniversalUIAgent.wait_after := Some 1500;
     UniversalUIAgent.is_complete := is_complete;
     UniversalUIAgent.confidence := Some confidence;
     UniversalUIAgent.reasoning := None |}.

Definition env_of (plan : UniversalUIAgent.ActionPlan)
    : UniversalUIAgent.StepEnv :=
  {| UniversalUIAgent.env_screenshot := "shot.png";
     UniversalUIAgent.env_current_url := "https://github.com";
     UniversalUIAgent.env_plan := plan;
     UniversalUIAgent.env_page := blank_page;
     UniversalUIAgent.env_state_url := "https://github.com";
     UniversalUIAgent.env_now := "2024-01-01T00:00:00" |}.

Definition world_of (steps : Z -> UniversalUIAgent.StepEnv)
    : UniversalUIAgent.World :=
  {| UniversalUIAgent.start_url := "https://github.com";
     UniversalUIAgent.login_ok := true;
     UniversalUIAgent.initial_url := "https://github.com";
     UniversalUIAgent.step_env := steps |}.

(** The planner answers [wait] at every step: the same signature each time,
    and every action succeeds. *)
Definition always_wait : Z -> UniversalUIAgent.StepEnv :=
  fun _ => env_of (plan_of "wait" None false (1 # 2)).

(** Three identical [wait] plans, then plans with other signatures. *)
Definition wait_thrice : Z -> UniversalUIAgent.StepEnv :=
  fun step =>
    if step <=? 3 then env_of (plan_of "wait" None false (1 # 2))
    else env_of (plan_of "press_key" (Some (pretty step)) false (1 # 2)).

(** Four clicks on targets that are not on the page, each with its own
    signature; the fourth plan reports the task complete with confidence
    0.9. *)
Definition failing_clicks : Z -> UniversalUIAgent.StepEnv :=
  fun step =>
    env_of (plan_of "click" (Some ("Missing " +:+ pretty step))
              (4 <=? step) (9 # 10)).

(** Four clicks on missing targets, none reporting completion. *)
Definition failing_clicks_plain : Z -> UniversalUIAgent.StepEnv :=
  fun step =>
    env_of (plan_of "click" (Some ("Missing " +:+ pretty step)) false (1 # 2)).

(** *** Click resolution: what is required of a clicked element *)

Definition clicks_satisfy (R : Element -> Prop) (ev : Event) : Prop :=
  match ev with
  | EvClick e _ => R e
  | _ => True
  end.

(** The checks an element passed when the strategy loop of [_smart_click]
    clicks it. *)
Definition loop_click_ok (target : string) (e : Element) : Prop :=
  el_visible e = true /\
  el_disabled e = false /\
  (UniversalUIAgent.is_intermediate target = true ->
   PyStr.truthy (el_text e) = true ->
   PyStr.any_in ["create repository"; "create project"; "create issue"; "submit"]
     (PyStr.lower (default "" (el_text e))) = false) /\
  (UniversalUIAgent.multi_word_final target = true ->
   PyStr.truthy (el_text e) = true ->
   PyStr.str_in (PyStr.lower target) (PyStr.lower (default "" (el_text e)))
   = true).

(** The checks an element passed when the last-resort scan clicks it. *)
Definition last_resort_click_ok (words : list string) (e : Element) : Prop :=
  el_visible e = true /\
  el_disabled e = false /\
  PyStr.truthy (el_text e) = true /\
  forallb
    (fun word =>
       PyStr.str_in (PyStr.lower word) (PyStr.lower (default "" (el_text e))))
    words = true.

(** A settings page: no selector of the strategy loop matches, and the page
    has one enabled, visible button reading [Changes saved]. *)
Definition saved_button : Element :=
  {| el_label := "button.flash";
     el_visible := true;
     el_disabled := false;
     el_text := Some "Changes saved";
     el_box_y := Some 40;
     el_fault := fun _ => None |}.

Definition settings_page : Page :=
  {| locate := fun selector =>
       if String.eqb selector "button, [role='button']"
       then Ok [saved_button] else Ok [];
     page_fault := fun _ => None |}.

(** A form whose submit control is an [input type=submit]: the text
    selectors match it through its value, and its text content is empty. *)
Definition submit_input : Element :=
  {| el_label := "input[type=submit]";
     el_visible := true;
     el_disabled := false;
     el_text := Some "";
     el_box_y := Some 600;
     el_fault := fun _ => None |}.

Definition submit_form : Page :=
  {| locate := fun selector =>
       if String.eqb selector "text=/^Create repository$/i"
       then Ok [submit_input] else Ok [];
     page_fault := fun _ => None |}.

(** A form with an enabled, visible button carrying the full phrase. *)
Definition create_button : Element :=
  {| el_label := "button.btn-primary";
     el_visible := true;
     el_disabled := false;
     el_text := Some "Create repository";
     el_box_y := Some 700;
     el_fault := fun _ => None |}.

Definition create_form : Page :=
  {| locate := fun selector =>
       if String.eqb selector
            "button:has-text('Create repository'):not([disabled])"
       then Ok [create_button] else Ok [];
     page_fault := fun _ => None |}.

(** *** Text entry on a disabled field *)

(** A natively disabled input: the driver's [fill] waits for the element to
    be enabled and times out; forced clicks and keyboard input go through. *)
Definition disabled_input : Element :=
  {| el_label := "input[name=title][disabled]";
     el_visible := true;
     el_disabled := true;
     el_text := None;
     el_box_y := Some 120;
     el_fault := fun op =>
       match op with
       | OpFill => Some "Timeout 1000ms exceeded"
       | _ => None
       end |}.

Definition disabled_form : Page :=
  {| locate := fun selector =>
       if String.eqb selector "[name='title']"
       then Ok [disabled_input] else Ok [];
     page_fault := fun _ => None |}.

Definition type_title_plan : UniversalUIAgent.ActionPlan :=
  {| UniversalUIAgent.action := "type";
     UniversalUIAgent.target := Some "title";
     UniversalUIAgent.value := Some "Roadmap Q1";
     UniversalUIAgent.selector_type := Some "name";
     UniversalUIAgent.field_purpose := Some "title";
     UniversalUIAgent.target_y_position := Some 0;
     UniversalUIAgent.wait_after := Some 1500;
     UniversalUIAgent.is_complete := false;
     UniversalUIAgent.confidence := Some (9 # 10);
     UniversalUIAgent.reasoning := None |}.

(** *** Position disambiguation *)

(** The distance the inner loop of [_smart_type] computes for an element:
    defined when the element is reported visible and has a bounding box. *)
Definition distance_to (target_y : Z) (e : Element) : option Z :=
  match UniversalUIAgent.visible_q e, UniversalUIAgent.bbox_q e with
  | Ok true, Ok (Some elem_y) => Some (Z.abs (elem_y - target_y))
  | _, _ => None
  end.

(** The candidates of strategy [i] among [elems], with their distances, in
    scan order. *)
Definition measure (target_y : Z) (i : nat) (elems : list Element)
    : list (nat * Element * Z) :=
  omap (fun e => (fun d => (i, e, d)) <$> distance_to target_y e) elems.

(** The search variables describe the closest admissible candidate among
    those considered. *)
Definition closest_considered (b : UniversalUIAgent.Search) : Prop :=
  match UniversalUIAgent.best_match b with
  | Some e =>
      exists d,
        In (UniversalUIAgent.best_strategy_used b, e, d)
          (UniversalUIAgent.considered b) /\
        UniversalUIAgent.best_distance b = Some d /\
        d < UniversalUIAgent.max_distance (UniversalUIAgent.best_strategy_used b) /\
        forall j e' d',
          In (j, e', d') (UniversalUIAgent.considered b) ->
          d' < UniversalUIAgent.max_distance j -> d <= d'
  | None =>
      UniversalUIAgent.best_distance b = None /\
      forall j e' d',
        In (j, e', d') (UniversalUIAgent.considered b) ->
        UniversalUIAgent.max_distance j <= d'
  end.

(** A visible, enabled text field whose box starts at [y]. *)
Definition field_at (label : string) (y : Z) : Element :=
  {| el_label := label;
     el_visible := true;
     el_disabled := false;
     el_text := None;
     el_box_y := Some y;
     el_fault := fun _ => None |}.

(** Two fields named [title], 15px apart; the second is exactly at the
    requested position 500. *)
Definition close_fields : Page :=
  {| locate := fun selector =>
       if String.eqb selector "[name='title']"
       then Ok [field_at "first" 515; field_at "second" 500]
       else Ok [];
     page_fault := fun _ => None |}.

(** Two fields named [title], at Y=100 and Y=500. *)
Definition far_fields : Page :=
  {| locate := fun selector =>
       if String.eqb selector "[name='title']"
       then Ok [field_at "upper" 100; field_at "lower" 500]
       else Ok [];
     page_fault := fun _ => None |}.

(** Two fields that no selector tells apart: a selector matches both (in
    either document order) or neither. *)
Definition alike (p : Page) (f100 f500 : Element) (selector : string) : Prop :=
  locate p selector = Ok [] \/
  (exists e, locate p selector = Raise e) \/
  locate p selector = Ok [f100; f500] \/
  locate p selector = Ok [f500; f100].

Definition matches_both (p : Page) (f100 f500 : Element) (selector : string)
    : Prop :=
  locate p selector = Ok [f100; f500] \/
  locate p selector = Ok [f500; f100].

(** Nothing selected yet, or the field [f] selected at distance 10. *)
Definition nothing_or_lower (f : Element) (b : UniversalUIAgent.Search) : Prop :=
  (UniversalUIAgent.best_match b = None /\
   UniversalUIAgent.best_distance b = None) \/
  (UniversalUIAgent.best_match b = Some f /\
   UniversalUIAgent.best_distance b = Some 10).

(** *** Scenarios for the action executor *)

(** Resolvers whose click raises (a driver error that escaped the
    resolver). *)
Definition raising_resolvers : UniversalUIAgent.Resolvers :=
  {| UniversalUIAgent.smart_click := fun _ _ => lift (Raise "Target closed");
     UniversalUIAgent.smart_type :=
       fun _ _ _ _ => lift (Raise "Target closed");
     UniversalUIAgent.type_contenteditable :=
       fun _ _ _ => lift (Raise "Target closed") |}.

(** The planner asks twice to type the same value into the same field of
    [far_fields]. *)
Definition type_twice : list (Page * UniversalUIAgent.ActionPlan) :=
  [(far_fields, type_title_plan); (far_fields, type_title_plan)].

(** *** Sequences of tracker calls *)

Definition key_of_call (c : string * string * string * Z) : string :=
  match c with
  | (field_id, purpose, _, position_y) =>
      FormFieldTracker.create_field_key field_id purpose position_y
  end.

Definition value_of_call (c : string * string * string * Z) : string :=
  match c with
  | (_, _, value, _) => value
  end.

(** The calls of a sequence that write the given key. *)
Definition calls_on (key : string) (calls : list (string * string * string * Z))
    : list (string * string * string * Z) :=
  List.filter (fun c => String.eqb (key_of_call c) key) calls.

Inductive TrackerCall :=
  | CallMarkFilled (field_id purpose value : string) (position_y : Z)
  | CallReset.

Definition apply_call (t : FormFieldTracker.Tracker) (c : TrackerCall)
    : FormFieldTracker.Tracker :=
  match c with
  | CallMarkFilled field_id purpose value position_y =>
      FormFieldTracker.mark_filled t field_id purpose value position_y
  | CallReset => FormFieldTracker.reset t
  end.

Definition apply_calls (t : FormFieldTracker.Tracker) (cs : list TrackerCall)
    : FormFieldTracker.Tracker :=
  fold_left apply_call cs t.

(** ['|' not in s] *)
Definition bar_free (s : string) : Prop := PyStr.str_in "|" s = false.

(** What holds of a tracker built from [init] by [mark_filled] and
    [reset]. *)
Definition tracker_consistent (t : FormFieldTracker.Tracker) : Prop :=
  (forall k,
     (FormFieldTracker.field_attempts t !! k = None /\
      FormFieldTracker.filled_fields t !! k = None) \/
     (exists n v,
        FormFieldTracker.field_attempts t !! k = Some n /\ 1 <= n /\
        FormFieldTracker.filled_fields t !! k = Some v)) /\
  (forall f p y,
     is_Some (FormFieldTracker.filled_fields t
                !! FormFieldTracker.create_field_key f p y) ->
     y / 100 ∈ FormFieldTracker.filled_positions t) /\
  (forall b,
     b ∈ FormFieldTracker.filled_positions t ->
     exists f p y,
       is_Some (FormFieldTracker.filled_fields t
                  !! FormFieldTracker.create_field_key f p y) /\
       y / 100 = b).

(** *** Scenarios and notions for the resolvers *)

(** No selector matches anything on the page: the lookup returns no
    element, or fails. *)
Definition nothing_matches (p : Page) : Prop :=
  forall selector,
    locate p selector = Ok [] \/ exists e, locate p selector = Raise e.

(** The computation returns a value from every state. *)
Definition never_raises {A} (m : M A) : Prop :=
  forall s, exists a, (m s).2 = Ok a.

(** The driver accepted the click. *)
Definition click_went_through (ev : Event) : Prop :=
  match ev with
  | EvClick e force => el_fault e (OpClick force) = None
  | _ => False
  end.

(** The page's waits do not fail. *)
Definition reliable_waits (p : Page) : Prop :=
  forall ms, page_fault p (OpWait ms) = None.

(** What [_smart_click] did to the page, by the success flag it returns:
    on success the last driver action is an ordinary click that the driver
    accepted, on an element reported visible and not disabled, and no
    earlier click was accepted; on failure no click was accepted. *)
Definition click_outcome (evs : list Event) (ok : bool) : Prop :=
  if ok then
    exists before e,
      evs = before ++ [EvClick e false] /\
      el_fault e (OpClick false) = None /\
      el_visible e = true /\ el_disabled e = false /\
      Forall (fun ev => ~ click_went_through ev) before
  else Forall (fun ev => ~ click_went_through ev) evs.

(** What a computation does to the trace: from every state it only adds
    driver actions, it leaves the field tracker alone, and the actions
    added and the outcome are related by [R]. *)
Definition traces {A} (R : list Event -> outcome A -> Prop) (m : M A) : Prop :=
  forall s,
    exists evs,
      (m s).1 = {| field_tracker := field_tracker s;
                   trace := trace s ++ evs |} /\
      R evs (m s).2.

(** One attempt of a click loop returns, and the trace matches its
    answer. *)
Definition attempt_outcome (evs : list Event)
    (o : outcome (option (bool * string))) : Prop :=
  match o with
  | Ok (Some (ok, _)) => ok = true /\ click_outcome evs true
  | Ok None => click_outcome evs false
  | Raise _ => False
  end.

(** The form of [create_form] on a page whose two-second wait fails. *)
Definition stalling_form : Page :=
  {| locate := locate create_form;
     page_fault := fun op =>
       match op with
       | OpWait 2000 => Some "Timeout 2000ms exceeded"
       | _ => None
       end |}.

(** *** Text entry: what is selected and what is done to it *)

(** The element a driver action acts on; keyboard actions go to whatever
    has the focus. *)
Definition event_element (ev : Event) : option Element :=
  match ev with
  | EvClick e _ | EvScroll e | EvFill e _ | EvPressSequentially e _ => Some e
  | EvKeyPress _ | EvKeyType _ => None
  end.

Definition acts_on (best : Element) (ev : Event) : Prop :=
  match event_element ev with
  | Some e => e = best
  | None => True
  end.

(** The element has a bounding box less than [bound] pixels from
    [target_y]. *)
Definition near (target_y bound : Z) (e : Element) : Prop :=
  exists elem_y,
    UniversalUIAgent.bbox_q e = Ok (Some elem_y) /\
    Z.abs (elem_y - target_y) < bound.

(** What holds of the element a text resolver selects: it is reported
    visible; it is among the first five matches (the first two when no
    position is given) of one of [selectors]; and when a position is given
    it is less than [bound] pixels from it. *)
Definition choice (p : Page) (selectors : list string) (target_y bound : Z)
    (e : Element) : Prop :=
  UniversalUIAgent.visible_q e = Ok true /\
  (exists selector matches,
     In selector selectors /\ locate p selector = Ok matches /\
     In e (firstn (if 0 <? target_y then 5 else 2) matches)) /\
  (0 < target_y -> near target_y bound e).

Definition picked (Q : Element -> Prop) (b : UniversalUIAgent.Search) : Prop :=
  forall e, UniversalUIAgent.best_match b = Some e -> Q e.

(** The three ways [_smart_type] enters a value, each with the driver
    calls that delivered it accepted: clearing and filling the field;
    a forced click, select-all and keystrokes; or typing character by
    character into the field. *)
Definition value_entered (p : Page) (best : Element) (value : string)
    (evs : list Event) : Prop :=
  ([EvFill best ""; EvFill best value] `suffix_of` evs /\
   el_fault best OpFill = None) \/
  ([EvClick best true; EvKeyPress "Control+A"; EvKeyType value]
     `suffix_of` evs /\
   el_fault best (OpClick true) = None /\
   page_fault p (OpKeyPress "Control+A") = None /\
   page_fault p (OpKeyType value) = None) \/
  ([EvPressSequentially best value] `suffix_of` evs /\
   el_fault best OpPressSequentially = None).

(** The trace and the answer of the writing phase of [_smart_type]. *)
Definition typed_outcome (p : Page) (best : Element) (value : string)
    (evs : list Event) (o : outcome (bool * string)) : Prop :=
  Forall (acts_on best) evs /\
  match o with
  | Ok (true, _) => value_entered p best value evs
  | Ok (false, msg) =>
      msg = "All typing methods failed" \/
      exists e, msg = "Typing error: " +:+ PyStr.take 100 e
  | Raise _ => False
  end.

(** *** Editable regions: which selectors can supply the region *)

(** The selectors of [_type_contenteditable] that mention the target. *)
Definition target_selectors (target : string) : list string :=
  if UniversalUIAgent.nonempty target
  then [ "[contenteditable='true'][placeholder*='" +:+ target +:+ "' i]";
         "[contenteditable='true'][aria-label*='" +:+ target +:+ "' i]";
         "[contenteditable='true']:has-text('" +:+ target +:+ "')" ]
  else [].

(** With a position every selector can supply the region; without one only
    the selectors that mention the target can. *)
Definition region_selectors (target : string) (target_y : Z) : list string :=
  if 0 <? target_y
  then UniversalUIAgent.contenteditable_strategies target
  else target_selectors target.

(** The trace and the answer of [_type_contenteditable]. *)
Definition region_outcome (p : Page) (target value : string) (target_y : Z)
    (evs : list Event) (ok : bool) (msg : string) : Prop :=
  if ok then
    exists best,
      choice p (region_selectors target target_y) target_y 100 best /\
      evs = [EvClick best false; EvKeyType value] /\
      el_fault best (OpClick false) = None /\
      page_fault p (OpKeyType value) = None
  else
    msg = "Could not type into contenteditable: " +:+ target /\
    (evs = [] \/
     exists best,
       choice p (region_selectors target target_y) target_y 100 best /\
       (evs = [EvClick best false] \/
        evs = [EvClick best false; EvKeyType value])).

(** A page with one editable region, at Y=320, which only the generic
    selector finds. *)
Definition editor_page : Page :=
  {| locate := fun selector =>
       if String.eqb selector "[contenteditable='true']"
       then Ok [field_at "editor" 320] else Ok [];
     page_fault := fun _ => None |}.

(** *** The action executor and the field tracker *)

(** The plan asks to enter text. *)
Definition typing (plan : UniversalUIAgent.ActionPlan) : Prop :=
  UniversalUIAgent.action plan = "type" \/
  UniversalUIAgent.action plan = "type_contenteditable".

(** The plan asks to click. *)
Definition clicking (plan : UniversalUIAgent.ActionPlan) : Prop :=
  UniversalUIAgent.action plan = "click" \/
  UniversalUIAgent.action plan = "navigate".

(** The field a typing plan addresses, as [execute_action] reads it from
    the plan: the stripped target, the purpose and the position. *)
Definition plan_field (plan : UniversalUIAgent.ActionPlan)
    : string * string * Z :=
  (PyStr.strip (default "" (UniversalUIAgent.target plan)),
   default "other" (UniversalUIAgent.field_purpose plan),
   default 0 (UniversalUIAgent.target_y_position plan)).

(** Two plans address the same tracker entry. *)
Definition same_field (plan plan' : UniversalUIAgent.ActionPlan) : Prop :=
  (plan_field plan).1.1 = (plan_field plan').1.1 /\
  (plan_field plan).1.2 = (plan_field plan').1.2 /\
  (plan_field plan).2 / 100 = (plan_field plan').2 / 100.

(** The target of the plan names something being created. *)
Definition creation_target (plan : UniversalUIAgent.ActionPlan) : bool :=
  PyStr.any_in UniversalUIAgent.creation_words
    (PyStr.lower (PyStr.strip (default "" (UniversalUIAgent.target plan)))).

(** The planner asks again for the title of [type_title_plan], this time as
    an editable region, with blanks around the target and another position
    in the same bucket. *)
Definition type_title_again : UniversalUIAgent.ActionPlan :=
  {| UniversalUIAgent.action := "type_contenteditable";
     UniversalUIAgent.target := Some " title ";
     UniversalUIAgent.value := Some "Roadmap Q2";
     UniversalUIAgent.selector_type := None;
     UniversalUIAgent.field_purpose := Some "title";
     UniversalUIAgent.target_y_position := Some 99;
     UniversalUIAgent.wait_after := None;
     UniversalUIAgent.is_complete := false;
     UniversalUIAgent.confidence := None;
     UniversalUIAgent.reasoning := None |}.

(** A page with an enabled [Add a description] button. *)
Definition add_button : Element :=
  {| el_label := "button.add-description";
     el_visible := true;
     el_disabled := false;
     el_text := Some "Add a description";
     el_box_y := Some 300;
     el_fault := fun _ => None |}.

Definition description_page : Page :=
  {| locate := fun selector =>
       if String.eqb selector "text=/^Add a description$/i"
       then Ok [add_button] else Ok [];
     page_fault := fun _ => None |}.

Definition click_add_plan : UniversalUIAgent.ActionPlan :=
  plan_of "click" (Some "Add a description") false (1 # 2).

(** *** Notions for the orchestrator *)

(** The waits of every page the run sees do not fail. *)
Definition reliable_world (w : UniversalUIAgent.World) : Prop :=
  forall k, reliable_waits (UniversalUIAgent.env_page (UniversalUIAgent.step_env w k)).

(** The login gate of [execute_task]: the page is a login page and the
    login did not go through. *)
Definition login_fails (w : UniversalUIAgent.World) : bool :=
  PyStr.any_in UniversalUIAgent.login_keywords
    (PyStr.lower (UniversalUIAgent.start_url w)) &&
  negb (UniversalUIAgent.login_ok w).

(** The target of the plan of step [j] contains a final-submit phrase. *)
Definition final_submit_step (w : UniversalUIAgent.World) (j : Z) : bool :=
  PyStr.any_in UniversalUIAgent.final_submit_targets
    (PyStr.lower
       (default ""
          (UniversalUIAgent.target
             (UniversalUIAgent.env_plan (UniversalUIAgent.step_env w j))))).

(** [history] is a list of action summaries of the steps 1, 2, ... of the
    run, in order. *)
Definition summaries_of (w : UniversalUIAgent.World) (first : Z)
    (history : list string) : Prop :=
  forall (l : nat) (summary : string),
    history !! l = Some summary ->
    exists ok,
      summary
      = UniversalUIAgent.action_summary (first + Z.of_nat l)
          (UniversalUIAgent.env_plan
             (UniversalUIAgent.step_env w (first + Z.of_nat l))) ok.

(** While the loop runs, the workflow is in progress, and the creation
    flag is set only after a step on a final-submit target. *)
Definition creation_latch (w : UniversalUIAgent.World) (k : Z)
    (st : UniversalUIAgent.LoopState) : Prop :=
  1 <= k /\
  UniversalUIAgent.completion_status (UniversalUIAgent.workflow st)
  = "in_progress" /\
  (UniversalUIAgent.creation_completed st = true ->
   exists j, 1 <= j < k /\ final_submit_step w j = true).

(** A run that creates a repository: step 1 clicks [Create repository] on
    [create_form]; at step 2 the browser shows the new repository. *)
Definition creating_repository : UniversalUIAgent.World :=
  {| UniversalUIAgent.start_url := "https://github.com/new";
     UniversalUIAgent.login_ok := true;
     UniversalUIAgent.initial_url := "https://github.com/new";
     UniversalUIAgent.step_env := fun step =>
       {| UniversalUIAgent.env_screenshot := "shot.png";
          UniversalUIAgent.env_current_url :=
            if step <=? 1 then "https://github.com/new"
            else "https://github.com/octocat/demo";
          UniversalUIAgent.env_plan :=
            plan_of "click" (Some "Create repository") false (1 # 2);
          UniversalUIAgent.env_page := create_form;
          UniversalUIAgent.env_state_url := "https://github.com/new";
          UniversalUIAgent.env_now := "2024-01-01T00:00:00" |} |}.

(** While the loop runs at step [k], the action history has one summary
    for each of the steps before [k], and every recorded state holds the
    history as it was when the state was recorded. *)
Definition history_recorded (w : UniversalUIAgent.World) (k : Z)
    (st : UniversalUIAgent.LoopState) : Prop :=
  1 <= k /\
  Z.of_nat (length (UniversalUIAgent.actions_taken st)) = k - 1 /\
  length (UniversalUIAgent.states (UniversalUIAgent.workflow st))
  = length (UniversalUIAgent.actions_taken st) /\
  summaries_of w 1 (UniversalUIAgent.actions_taken st) /\
  forall (i : nat) ui,
    UniversalUIAgent.states (UniversalUIAgent.workflow st) !! i = Some ui ->
    UniversalUIAgent.ui_actions_taken ui
    = take i (UniversalUIAgent.actions_taken st).

(** *** Scenarios for the planner *)

(** The character does not occur in the text. *)
Definition char_free (c : ascii) (s : string) : Prop :=
  PyStr.str_in (String c "") s = false.

(** The planner produced no plan of its own: the request failed, the
    answer held no JSON object, or the object did not parse. *)
Definition planner_failed (llm : outcome string)
    (loads : string -> outcome UniversalUIAgent.RawPlan) : Prop :=
  (exists e, llm = Raise e) \/
  (exists content,
     llm = Ok content /\
     (UniversalUIAgent.json_span (PyStr.strip content) = None \/
      exists json_str e,
        UniversalUIAgent.json_span (PyStr.strip content) = Some json_str /\
        loads json_str = Raise e)).

(** A parser that knows the empty object only. *)
Definition loads_empty_object (json_str : string)
    : outcome UniversalUIAgent.RawPlan :=
  if String.eqb json_str "{}"
  then Ok {| UniversalUIAgent.raw_action := None;
             UniversalUIAgent.raw_target := None;
             UniversalUIAgent.raw_value := None;
             UniversalUIAgent.raw_selector_type := None;
             UniversalUIAgent.raw_field_purpose := None;
             UniversalUIAgent.raw_target_y_position := None;
             UniversalUIAgent.raw_wait_after := None;
             UniversalUIAgent.raw_is_complete := None;
             UniversalUIAgent.raw_confidence := None;
             UniversalUIAgent.raw_reasoning := None |}
  else Raise "Expecting property name enclosed in double quotes".

(** A run during which the completion request fails at every step. *)
Definition planner_down : Z -> outcome string :=
  fun _ => Raise "Connection error.".

Definition outage : UniversalUIAgent.World :=
  world_of
    (fun step =>
       env_of (UniversalUIAgent.analyze_and_plan (planner_down step)
                 loads_empty_object)).

(** *** Scenarios for the prompt *)

Definition purpose_of_call (c : string * string * string * Z) : string :=
  match c with
  | (_, purpose, _, _) => purpose
  end.

(** The purposes the prompt computes for an input field. *)
Definition prompt_purposes : list string := ["name"; "description"; "other"].

(** The title field of the form, as the DOM summary lists it. *)
Definition title_field : UniversalUIAgent.InputField :=
  {| UniversalUIAgent.fieldId := Some "title";
     UniversalUIAgent.placeholder := Some "Title";
     UniversalUIAgent.aria_label := None;
     UniversalUIAgent.position_y := Some 20 |}.

(** A draft form whose only button reads [Save  changes], with two blanks;
    the first strategy for the target [Save changes] matches it (the driver
    normalises white space), and so does the scan over all buttons. *)
Definition draft_button : Element :=
  {| el_label := "button.save-draft";
     el_visible := true;
     el_disabled := false;
     el_text := Some "Save  changes";
     el_box_y := Some 640;
     el_fault := fun _ => None |}.

Definition draft_page : Page :=
  {| locate := fun selector =>
       if String.eqb selector
            "button:has-text('Save changes'):not([disabled])"
       then Ok [draft_button]
       else if String.eqb selector "button, [role='button']"
       then Ok [draft_button]
       else Ok [];
     page_fault := fun _ => None |}.

(** *** Plans as dictionaries *)

Definition dict_of (action target : option UniversalUIAgent.PyValue)
    : UniversalUIAgent.PlanDict :=
  {| UniversalUIAgent.dict_action := action;
     UniversalUIAgent.dict_target := target;
     UniversalUIAgent.dict_typed := plan_of "" None false (1 # 2) |}.

(** The planner answered with a null target. *)
Definition null_target_plan : UniversalUIAgent.PlanDict :=
  dict_of (Some (UniversalUIAgent.PyStr "click"))
    (Some UniversalUIAgent.PyNone).

(** The planner's object has a target and no action. *)
Definition no_action_plan : UniversalUIAgent.PlanDict :=
  dict_of None (Some (UniversalUIAgent.PyStr "New project")).

(** *** Typing after other actions *)

(** The executor would skip a typing action on this tracker entry. *)
Definition skipped (t : FormFieldTracker.Tracker) (field_id purpose : string)
    (position_y : Z) : Prop :=
  FormFieldTracker.is_filled t field_id purpose position_y = true \/
  2 <= FormFieldTracker.get_attempts t field_id purpose position_y.

(** The plan is a click on a target that names something being created:
    the one action after which the executor may reset the tracker. *)
Definition may_reset (plan : UniversalUIAgent.ActionPlan) : Prop :=
  clicking plan /\ creation_target plan = true.

(** A wait, and a click on a [Cancel] button that is not on the page. *)
Definition wait_then_cancel : list (Page * UniversalUIAgent.ActionPlan) :=
  [(far_fields, plan_of "wait" None false (1 # 2));
   (blank_page, plan_of "click" (Some "Cancel") false (1 # 2))].

(** A page whose [Add a description] button does not take the click. *)
Definition jammed_button : Element :=
  {| el_label := "button.add-description";
     el_visible := true;
     el_disabled := false;
     el_text := Some "Add a description";
     el_box_y := Some 300;
     el_fault := fun op =>
       match op with
       | OpClick _ => Some "Timeout 5000ms exceeded"
       | _ => None
       end |}.

Definition jammed_page : Page :=
  {| locate := fun selector =>
       if String.eqb selector "text=/^Add a description$/i"
       then Ok [jammed_button] else Ok [];
     page_fault := fun _ => None |}.

(** * Properties *)

Example key_510 :
  FormFieldTracker.create_field_key "name" "title" 510 = "name|title|5".
Proof. reflexivity. Qed.

Example key_neg :
  FormFieldTracker.create_field_key "name" "title" (-1) = "name|title|-1".
Proof. reflexivity. Qed.

Example split_ex : PyStr.split "  Create  repository " = ["Create"; "repository"].
Proof. reflexivity. Qed.

Example strip_ex : PyStr.strip "  Create  repository " = "Create  repository".
Proof. reflexivity. Qed.

Example lower_ex : PyStr.lower "Create Repository" = "create repository".
Proof. reflexivity. Qed.

Example in_ex : PyStr.str_in "save" "changes will be saved" = true.
Proof. reflexivity. Qed.

(** ** Field tracker *)

Section TrackerFacts.
Import FormFieldTracker.

Lemma append_cancel_l (s t1 t2 : string) : s +:+ t1 = s +:+ t2 -> t1 = t2.
Proof.
  induction s as [|c s IH]; simpl; [done|].
  intros H. injection H as H. auto.
Qed.

Lemma create_field_key_eq (f p : string) (y1 y2 : Z) :
  create_field_key f p y1 = create_field_key f p y2 <-> y1 / 100 = y2 / 100.
Proof.
  unfold create_field_key. split.
  - intros H.
    apply append_cancel_l in H. apply (append_cancel_l "|") in H.
    apply append_cancel_l in H. apply (append_cancel_l "|") in H.
    by apply (inj pretty) in H.
  - by intros ->.
Qed.

Lemma is_filled_mark_filled t f p v y :
  is_filled (mark_filled t f p v y) f p y = true.
Proof.
  unfold is_filled, mark_filled; simpl.
  apply bool_decide_eq_true. rewrite lookup_insert_eq. by eexists.
Qed.

Lemma is_filled_mark_filled_mono t f p y f' p' v' y' :
  is_filled t f p y = true ->
  is_filled (mark_filled t f' p' v' y') f p y = true.
Proof.
  unfold is_filled, mark_filled; simpl.
  rewrite !bool_decide_eq_true. intros [v Hv].
  rewrite lookup_insert. case_decide; by eexists.
Qed.

Lemma is_filled_mark_all calls : forall t f p y,
  is_filled t f p y = true -> is_filled (mark_all t calls) f p y = true.
Proof.
  induction calls as [|[[[f' p'] v'] y'] calls IH]; intros t f p y H; simpl.
  - done.
  - apply IH. by apply is_filled_mark_filled_mono.
Qed.

Lemma is_filled_reset t f p y : is_filled (reset t) f p y = false.
Proof.
  unfold is_filled, reset; simpl.
  apply bool_decide_eq_false. rewrite lookup_empty. by intros [? ?].
Qed.

End TrackerFacts.

(** C4.  After [mark_filled] on a key, [is_filled] on that key is true and
    stays true across any further [mark_filled] calls (on any keys); right
    after [reset], [is_filled] is false for every key. *)
Theorem is_filled_until_reset :
  forall (t : FormFieldTracker.Tracker) (f p v : string) (y : Z)
         (calls : list (string * string * string * Z)),
    FormFieldTracker.is_filled
      (mark_all (FormFieldTracker.mark_filled t f p v y) calls) f p y = true
    /\ (forall f' p' y',
          FormFieldTracker.is_filled
            (FormFieldTracker.reset
               (mark_all (FormFieldTracker.mark_filled t f p v y) calls))
            f' p' y' = false).
Proof.
  intros t f p v y calls. split.
  - apply is_filled_mark_all, is_filled_mark_filled.
  - intros. apply is_filled_reset.
Qed.

(** C7, as stated, fails: positions 140 and 160 round to different nearest
    multiples of 100 but get the same key, and positions 199 and 201 round
    to the same multiple but get different keys. *)
Lemma create_field_key_not_nearest_100 :
  (nearest_100 140 <> nearest_100 160 /\
   FormFieldTracker.create_field_key "name" "title" 140 =
   FormFieldTracker.create_field_key "name" "title" 160) /\
  (nearest_100 199 = nearest_100 201 /\
   FormFieldTracker.create_field_key "name" "title" 199 <>
   FormFieldTracker.create_field_key "name" "title" 201).
Proof. repeat split; vm_compute; congruence. Qed.

(** C7, amended.  The key is composed of the field id, the purpose and the
    position divided by 100 rounded down: for a fixed field id and purpose,
    two positions get the same key exactly when they have the same quotient
    by 100, that is, lie in the same interval [100k, 100k + 99]. *)
Theorem create_field_key_floor_bucket :
  forall (f p : string) (y1 y2 : Z),
    FormFieldTracker.create_field_key f p y1 =
      f +:+ "|" +:+ p +:+ "|" +:+ pretty (y1 / 100)
    /\ (FormFieldTracker.create_field_key f p y1 =
        FormFieldTracker.create_field_key f p y2
        <-> y1 / 100 = y2 / 100)
    /\ (y1 / 100 = y2 / 100
        <-> exists k, 100 * k <= y1 < 100 * k + 100 /\
                      100 * k <= y2 < 100 * k + 100).
Proof.
  intros f p y1 y2. split; [done|]. split; [apply create_field_key_eq|].
  split.
  - intros H. exists (y1 / 100). split; [|rewrite H];
      match goal with |- _ <= ?y < _ =>
        pose proof (Z.div_mod y 100 ltac:(lia));
        pose proof (Z.mod_pos_bound y 100 ltac:(lia)); lia
      end.
  - intros [k [H1 H2]].
    assert (y1 / 100 = k) as ->
      by (symmetry; apply Z.div_unique with (r := y1 - 100 * k); lia).
    apply Z.div_unique with (r := y2 - 100 * k); lia.
Qed.

(** ** Reasoning rules for the agent monad *)

Section MonadRules.
Context {A B : Type} (P : Event -> Prop).

Lemma spec_ret (Q : A -> Prop) (a : A) : Q a -> resolver_spec P Q (ret a).
Proof.
  intros HQ s; simpl. split; [done|]. split.
  - exists []. by rewrite app_nil_r.
  - intros a' [= <-]. done.
Qed.

Lemma spec_lift (Q : A -> Prop) (o : outcome A) :
  (forall a, o = Ok a -> Q a) -> resolver_spec P Q (lift o).
Proof.
  intros HQ s; simpl. split; [done|]. split.
  - exists []. by rewrite app_nil_r.
  - done.
Qed.

Lemma spec_weaken (Q Q' : A -> Prop) (m : M A) :
  resolver_spec P Q m -> (forall a, Q a -> Q' a) -> resolver_spec P Q' m.
Proof.
  intros Hm HQ s. destruct (Hm s) as (Ht & He & Hr). eauto.
Qed.

Lemma spec_bind (R : A -> Prop) (Q : B -> Prop) (m : M A) (k : A -> M B) :
  resolver_spec P R m ->
  (forall a, R a -> resolver_spec P Q (k a)) ->
  resolver_spec P Q (bind m k).
Proof.
  intros Hm Hk s. unfold bind.
  destruct (Hm s) as (Ht & (evs & He & HP) & Hr).
  destruct (m s) as [s1 [a|e]]; simpl in *.
  - destruct (Hk a (Hr a eq_refl) s1) as (Ht' & (evs' & He' & HP') & Hr').
    split; [congruence|]. split; [|done].
    exists (evs ++ evs'). split.
    + by rewrite He', He, app_assoc.
    + by apply Forall_app.
  - split; [done|]. split; [by exists evs|]. done.
Qed.

Lemma spec_try (Q : A -> Prop) (body : M A) (h : string -> M A) :
  resolver_spec P any body ->
  (forall a s, (body s).2 = Ok a -> Q a) ->
  (forall e, resolver_spec P Q (h e)) ->
  resolver_spec P Q (try_except body h).
Proof.
  intros Hb HQ Hh s. unfold try_except.
  destruct (Hb s) as (Ht & (evs & He & HP) & _).
  specialize (HQ) with (s := s).
  destruct (body s) as [s1 [a|e]]; simpl in *.
  - split; [done|]. split; [by exists evs|].
    intros a' [= <-]. by apply HQ.
  - destruct (Hh e s1) as (Ht' & (evs' & He' & HP') & Hr').
    split; [congruence|]. split; [|done].
    exists (evs ++ evs'). split.
    + by rewrite He', He, app_assoc.
    + by apply Forall_app.
Qed.

End MonadRules.

Lemma spec_try_same {A} (P : Event -> Prop) (Q : A -> Prop)
    (body : M A) (h : string -> M A) :
  resolver_spec P Q body ->
  (forall e, resolver_spec P Q (h e)) ->
  resolver_spec P Q (try_except body h).
Proof.
  intros Hb Hh. apply spec_try; [|intros a s; apply (Hb s)|done].
  eapply spec_weaken; [exact Hb|done].
Qed.

Lemma spec_emit (P : Event -> Prop) (ev : Event) :
  P ev -> resolver_spec P any (emit ev).
Proof.
  intros HP s; simpl. split; [done|]. split; [|done].
  exists [ev]. split; [done|]. by constructor.
Qed.

(** A query returns what the snapshot says, unless it raises. *)
Lemma spec_query {A} (P : Event -> Prop) (f : option string) (v : A) :
  resolver_spec P (fun a => a = v) (lift (faulty f v)).
Proof. apply spec_lift. destruct f; simpl; congruence. Qed.

Lemma spec_action (P : Event -> Prop) (ev : Event) (f : option string) :
  P ev -> resolver_spec P any (bind (emit ev) (fun _ => lift (faulty f tt))).
Proof.
  intros HP. eapply spec_bind; [by apply spec_emit|].
  intros _ _. by apply spec_lift.
Qed.

Lemma spec_wait (P : Event -> Prop) (p : Page) (ms : Z) :
  resolver_spec P any (Driver.wait_for_timeout p ms).
Proof. by apply spec_lift. Qed.

(** ** The resolvers only touch the driver *)

Ltac quiet :=
  repeat first
    [ apply spec_ret; exact I
    | apply spec_wait
    | apply spec_lift; intros; exact I
    | apply spec_emit; exact I
    | apply spec_try_same; [|intros]
    | eapply (spec_bind _ any); [|intros]
    | match goal with
      | |- resolver_spec _ _ (if ?b then _ else _) => destruct b
      | |- resolver_spec _ _ (match ?x with _ => _ end) => destruct x
      | H : _ |- _ => apply H
      end ].

Section Quiet.
Import UniversalUIAgent Driver.

Lemma click_attempt_quiet p target i strategy :
  resolver_spec (fun _ => True) any (click_attempt p target i strategy).
Proof.
  unfold click_attempt, is_visible, evaluate_disabled, text_content,
    scroll_into_view_if_needed, click.
  quiet.
Qed.

Lemma click_loop_quiet p target strategies : forall i,
  resolver_spec (fun _ => True) any (click_loop p target i strategies).
Proof.
  induction strategies as [|st rest IH]; intros i; simpl.
  - quiet.
  - eapply (spec_bind _ any); [apply click_attempt_quiet|].
    intros [r|] _; [quiet|apply IH].
Qed.

Lemma last_resort_attempt_quiet p words btn :
  resolver_spec (fun _ => True) any (last_resort_attempt p words btn).
Proof.
  unfold last_resort_attempt, is_visible, evaluate_disabled, text_content,
    scroll_into_view_if_needed, click.
  quiet.
Qed.

Lemma last_resort_loop_quiet p words all_buttons :
  resolver_spec (fun _ => True) any (last_resort_loop p words all_buttons).
Proof.
  induction all_buttons as [|btn rest IH]; simpl.
  - quiet.
  - eapply (spec_bind _ any); [apply last_resort_attempt_quiet|].
    intros [r|] _; [quiet|apply IH].
Qed.

Lemma smart_click_quiet p target selector_type :
  resolver_spec (fun _ => True) any (_smart_click p target selector_type).
Proof.
  unfold _smart_click, last_resort.
  eapply (spec_bind _ any); [apply click_loop_quiet|].
  intros [r|] _; [quiet|].
  eapply (spec_bind _ any); [|intros [r|] _; quiet].
  destruct (multi_word_final target); [|quiet].
  destruct (length (PyStr.split target) =? 2)%nat; [|quiet].
  apply spec_try_same; [|intros; quiet].
  eapply (spec_bind _ any); [quiet|].
  intros; apply last_resort_loop_quiet.
Qed.

Lemma write_value_quiet p best value i : resolver_spec (fun _ => True) any (write_value p best value i).
Proof.
  unfold write_value, click, fill, press_sequentially, keyboard_press,
    keyboard_type, scroll_into_view_if_needed.
  quiet.
Qed.

Lemma smart_type_quiet p target value selector_type target_y :
  resolver_spec (fun _ => True) any (_smart_type p target value selector_type target_y).
Proof.
  unfold _smart_type.
  destruct (best_match _); [apply write_value_quiet|quiet].
Qed.

Lemma type_contenteditable_quiet p target value target_y :
  resolver_spec (fun _ => True) any (_type_contenteditable p target value target_y).
Proof.
  unfold _type_contenteditable, click, keyboard_type.
  eapply (spec_bind _ any); [|intros [r|] _; quiet].
  destruct (best_match _); quiet.
Qed.

Lemma resolvers_of_quiet p : resolvers_quiet (resolvers_of p).
Proof.
  split; [|split]; intros; simpl.
  - apply smart_click_quiet.
  - apply smart_type_quiet.
  - apply type_contenteditable_quiet.
Qed.

End Quiet.

Section ExecutorFacts.
Import FormFieldTracker UniversalUIAgent Driver.

Lemma inv_reset t : attempts_at_most_once (reset t).
Proof. intros k. left. simpl. by rewrite !lookup_empty. Qed.

Lemma inv_not_filled t f p y :
  attempts_at_most_once t -> is_filled t f p y = false ->
  get_attempts t f p y = 0.
Proof.
  unfold is_filled, get_attempts. intros Hinv Hf.
  apply bool_decide_eq_false in Hf.
  destruct (Hinv (create_field_key f p y)) as [[-> _]|[_ ?]]; done.
Qed.

Lemma inv_attempts_le t f p y :
  attempts_at_most_once t -> 0 <= get_attempts t f p y <= 1.
Proof.
  unfold get_attempts. intros Hinv.
  destruct (Hinv (create_field_key f p y)) as [[-> _]|[-> _]]; simpl; lia.
Qed.

Lemma inv_mark_filled t f p v y :
  attempts_at_most_once t -> is_filled t f p y = false ->
  attempts_at_most_once (mark_filled t f p v y).
Proof.
  intros Hinv Hf k. unfold mark_filled; simpl.
  pose proof (inv_not_filled _ _ _ _ Hinv Hf) as H0.
  unfold get_attempts in H0. rewrite H0.
  destruct (decide (create_field_key f p y = k)) as [<-|Hne].
  - right. rewrite !lookup_insert_eq. split; [done|by eexists].
  - rewrite !lookup_insert_ne by done. apply Hinv.
Qed.

Lemma inv_set_content_created t :
  attempts_at_most_once t -> attempts_at_most_once (set_content_created t).
Proof. done. Qed.

Lemma quiet_tracker {A} (m : M A) s :
  resolver_spec (fun _ => True) any m -> field_tracker (m s).1 = field_tracker s.
Proof. intros H. apply (H s). Qed.

Lemma body_keeps_invariant rs p plan s :
  resolvers_quiet rs ->
  attempts_at_most_once (field_tracker s) ->
  attempts_at_most_once (field_tracker (execute_action_body rs p plan s).1).
Proof.
  intros (Hc & Ht & Hce) Hinv. unfold execute_action_body.
  destruct (String.eqb (action plan) "complete"); [done|].
  destruct (String.eqb (action plan) "press_key").
  { rewrite quiet_tracker; [done|].
    unfold keyboard_press. quiet. }
  destruct (String.eqb (action plan) "click" || String.eqb (action plan) "navigate").
  { unfold bind at 1.
    match goal with |- context [smart_click rs ?t ?k s] =>
      pose proof (quiet_tracker (smart_click rs t k) s (Hc t k)) as Hq;
      destruct (smart_click rs t k s) as [s1 [[success msg]|e]] end;
      simpl in *; [|by rewrite Hq].
    destruct (success && _); simpl; [apply inv_reset|by rewrite Hq]. }
  destruct (String.eqb (action plan) "type_contenteditable").
  { unfold bind at 1, get_tracker at 1.
    destruct (is_filled _ _ _ _) eqn:Hf; [done|].
    destruct (2 <=? _); [done|].
    unfold bind at 1.
    match goal with |- context [type_contenteditable rs ?t ?v ?y s] =>
      pose proof (quiet_tracker (type_contenteditable rs t v y) s (Hce t v y)) as Hq;
      destruct (type_contenteditable rs t v y s) as [s1 [[success msg]|e]] end;
      simpl in *; [|by rewrite Hq].
    destruct success; simpl; [|by rewrite Hq].
    cbv [bind tracker_mark_filled tracker_set_content_created get_tracker
         set_tracker ret]; simpl.
    destruct (_ || _); simpl; rewrite Hq;
      [apply inv_set_content_created|]; by apply inv_mark_filled. }
  destruct (String.eqb (action plan) "type").
  { unfold bind at 1, get_tracker at 1.
    destruct (is_filled _ _ _ _) eqn:Hf; [done|].
    destruct (2 <=? _); [done|].
    unfold bind at 1.
    match goal with |- context [smart_type rs ?t ?v ?k ?y s] =>
      pose proof (quiet_tracker (smart_type rs t v k y) s (Ht t v k y)) as Hq;
      destruct (smart_type rs t v k y s) as [s1 [[success msg]|e]] end;
      simpl in *; [|by rewrite Hq].
    destruct success; simpl; [|by rewrite Hq].
    rewrite Hq. by apply inv_mark_filled. }
  destruct (String.eqb (action plan) "wait"); [|done].
  rewrite quiet_tracker; [done|]. quiet.
Qed.

Lemma execute_action_state rs p plan s :
  (execute_action rs p plan s).1 = (execute_action_body rs p plan s).1.
Proof.
  unfold execute_action, try_except.
  by destruct (execute_action_body rs p plan s) as [s1 [r|e]].
Qed.

Lemma execute_action_keeps_invariant rs p plan s :
  resolvers_quiet rs ->
  attempts_at_most_once (field_tracker s) ->
  attempts_at_most_once (field_tracker (execute_action rs p plan s).1).
Proof. rewrite execute_action_state. apply body_keeps_invariant. Qed.

Lemma run_actions_keeps_invariant calls : forall s,
  attempts_at_most_once (field_tracker s) ->
  attempts_at_most_once (field_tracker (run_actions calls s)).
Proof.
  induction calls as [|[p plan] calls IH]; intros s Hinv; simpl; [done|].
  apply IH, execute_action_keeps_invariant; [apply resolvers_of_quiet|done].
Qed.

End ExecutorFacts.

(** C10.  Starting from a reset tracker, after any sequence of executed
    actions (any plans, any page snapshots) the attempt count of every key
    is at most 1; and whenever a key is not filled its attempt count is 0,
    so the test [get_attempts >= 2] that follows a failed [is_filled] test
    in the type paths is never true. *)
Theorem attempt_count_at_most_one :
  forall (calls : list (Page * UniversalUIAgent.ActionPlan))
         (t0 : FormFieldTracker.Tracker) (tr : list Event)
         (f p : string) (y : Z),
    let t := field_tracker
               (run_actions calls
                  {| field_tracker := FormFieldTracker.reset t0;
                     trace := tr |}) in
    FormFieldTracker.get_attempts t f p y <= 1 /\
    (FormFieldTracker.is_filled t f p y = false ->
     FormFieldTracker.get_attempts t f p y = 0 /\
     (2 <=? FormFieldTracker.get_attempts t f p y) = false).
Proof.
  intros calls t0 tr f p y t.
  assert (attempts_at_most_once t) as Hinv
    by (apply run_actions_keeps_invariant, inv_reset).
  split; [apply inv_attempts_le, Hinv|].
  intros Hf. rewrite (inv_not_filled _ _ _ _ Hinv Hf). done.
Qed.

(** Typing twice into the same field: the second action is skipped, the
    attempt count of the field is 1, and an untouched key has count 0. *)
Lemma attempt_count_at_most_one_witness :
  FormFieldTracker.get_attempts
    (field_tracker (run_actions type_twice fresh_agent)) "title" "title" 0
  = 1 /\
  FormFieldTracker.is_filled
    (field_tracker (run_actions type_twice fresh_agent)) "body" "body" 0
  = false /\
  FormFieldTracker.get_attempts
    (field_tracker (run_actions type_twice fresh_agent)) "body" "body" 0
  = 0.
Proof.
  split; [by vm_compute|]. split; [by vm_compute|].
  destruct (attempt_count_at_most_one type_twice FormFieldTracker.init []
              "body" "body" 0) as [_ H].
  apply H. by vm_compute.
Defined.

(** ** Action executor *)

Section ExecutorNeverRaises.
Import FormFieldTracker UniversalUIAgent Driver PyStr.

Lemma execute_action_total rs p plan s :
  exists s' success message,
    execute_action rs p plan s = (s', Ok (success, message)).
Proof.
  unfold execute_action, try_except.
  destruct (execute_action_body rs p plan s) as [s1 [[success message]|e]].
  - by exists s1, success, message.
  - by exists s1, false, ("Error: " +:+ e).
Qed.

Lemma execute_action_catches rs p plan s s' e :
  execute_action_body rs p plan s = (s', Raise e) ->
  execute_action rs p plan s = (s', Ok (false, "Error: " +:+ e)).
Proof. unfold execute_action, try_except. by intros ->. Qed.

End ExecutorNeverRaises.

(** On plans whose action and target are texts, every exception of the
    [try] block is converted. *)
Lemma typed_action_converts_exceptions :
  forall (rs : UniversalUIAgent.Resolvers) (p : Page)
         (plan : UniversalUIAgent.ActionPlan) (s : AgentState),
    let target := PyStr.strip (default "" (UniversalUIAgent.target plan)) in
    let value := default "" (UniversalUIAgent.value plan) in
    let purpose := default "other" (UniversalUIAgent.field_purpose plan) in
    let target_y := default 0 (UniversalUIAgent.target_y_position plan) in
    let untried :=
      FormFieldTracker.is_filled (field_tracker s) target purpose target_y
        = false /\
      (2 <=? FormFieldTracker.get_attempts (field_tracker s) target purpose
               target_y) = false in
    (exists s' success message,
       UniversalUIAgent.execute_action rs p plan s
       = (s', Ok (success, message))) /\
    (forall s' e,
       UniversalUIAgent.execute_action_body rs p plan s = (s', Raise e) ->
       UniversalUIAgent.execute_action rs p plan s
       = (s', Ok (false, "Error: " +:+ e))) /\
    (forall s' e,
       UniversalUIAgent.action plan = "click" \/
       UniversalUIAgent.action plan = "navigate" ->
       UniversalUIAgent.smart_click rs target
         (default "text" (UniversalUIAgent.selector_type plan)) s
       = (s', Raise e) ->
       UniversalUIAgent.execute_action rs p plan s
       = (s', Ok (false, "Error: " +:+ e))) /\
    (forall s' e,
       UniversalUIAgent.action plan = "type" -> untried ->
       UniversalUIAgent.smart_type rs target value
         (default "placeholder" (UniversalUIAgent.selector_type plan))
         target_y s
       = (s', Raise e) ->
       UniversalUIAgent.execute_action rs p plan s
       = (s', Ok (false, "Error: " +:+ e))) /\
    (forall s' e,
       UniversalUIAgent.action plan = "type_contenteditable" -> untried ->
       UniversalUIAgent.type_contenteditable rs target value target_y s
       = (s', Raise e) ->
       UniversalUIAgent.execute_action rs p plan s
       = (s', Ok (false, "Error: " +:+ e))) /\
    (forall e,
       UniversalUIAgent.action plan = "wait" ->
       page_fault p (OpWait (default 2000 (UniversalUIAgent.wait_after plan)))
       = Some e ->
       UniversalUIAgent.execute_action rs p plan s
       = (s, Ok (false, "Error: " +:+ e))) /\
    (forall e,
       UniversalUIAgent.action plan = "press_key" ->
       let key := if UniversalUIAgent.nonempty target then target
                  else default "Enter" (UniversalUIAgent.value plan) in
       page_fault p (OpKeyPress key) = Some e ->
       UniversalUIAgent.execute_action rs p plan s
       = ({| field_tracker := field_tracker s;
             trace := trace s ++ [EvKeyPress key] |},
          Ok (false, "Key press error: " +:+ e))).
Proof.
  intros rs p plan s target value purpose target_y untried.
  split; [apply execute_action_total|].
  split; [apply execute_action_catches|].
  split; [|split; [|split; [|split]]].
  - intros s' e Hact Hr. apply execute_action_catches.
    unfold UniversalUIAgent.execute_action_body.
    destruct Hact as [-> | ->]; simpl; unfold bind; fold target; by rewrite Hr.
  - intros s' e Hact [Hf Ha] Hr. apply execute_action_catches.
    unfold UniversalUIAgent.execute_action_body; rewrite Hact; simpl.
    unfold bind at 1, get_tracker at 1. fold target purpose target_y value.
    rewrite Hf, Ha. unfold bind. by rewrite Hr.
  - intros s' e Hact [Hf Ha] Hr. apply execute_action_catches.
    unfold UniversalUIAgent.execute_action_body; rewrite Hact; simpl.
    unfold bind at 1, get_tracker at 1. fold target purpose target_y value.
    rewrite Hf, Ha. unfold bind. by rewrite Hr.
  - intros e Hact Hfault. apply execute_action_catches.
    unfold UniversalUIAgent.execute_action_body; rewrite Hact; simpl.
    unfold bind, Driver.wait_for_timeout, lift. by rewrite Hfault.
  - intros e Hact key Hfault.
    unfold UniversalUIAgent.execute_action, UniversalUIAgent.execute_action_body;
      rewrite Hact; simpl.
    fold target. fold key.
    unfold try_except, bind, Driver.keyboard_press, bind, emit, lift; simpl.
    by rewrite Hfault.
Qed.

(** C8, as stated, fails: the action and the target are read before the
    [try] block.  A plan whose target is null raises [AttributeError], and
    a plan without an action raises [KeyError]; neither is converted into a
    result, and nothing has been done to the page or the tracker. *)
Lemma plan_lookups_raise :
  UniversalUIAgent.execute_action_dict
    (UniversalUIAgent.resolvers_of blank_page) blank_page null_target_plan
    fresh_agent
  = (fresh_agent, Raise "'NoneType' object has no attribute 'strip'") /\
  UniversalUIAgent.execute_action_dict
    (UniversalUIAgent.resolvers_of blank_page) blank_page no_action_plan
    fresh_agent
  = (fresh_agent, Raise "'action'").
Proof. split; reflexivity. Qed.

(** C8, amended.  [execute_action] raises in two cases only, both before
    its [try] block: the plan has no action ([KeyError]), or its target is
    present and not a text ([AttributeError]); the state is then
    untouched.  For every other plan, every resolver implementation and
    every page it returns a (success, message) pair.  An action that is
    not a text is reported unknown.  With a text as action, an exception
    raised inside the [try] block -- by [_smart_click], [_smart_type],
    [_type_contenteditable] or the driver's wait -- becomes the result
    [(False, "Error: " + text)]; an exception of the key press is caught by
    the inner handler and becomes [(False, "Key press error: " + text)]. *)
Theorem execute_action_raises_only_before_try :
  forall (rs : UniversalUIAgent.Resolvers) (p : Page)
         (d : UniversalUIAgent.PlanDict) (s : AgentState),
    (UniversalUIAgent.dict_action d = None ->
     UniversalUIAgent.execute_action_dict rs p d s = (s, Raise "'action'")) /\
    (forall action v,
       UniversalUIAgent.dict_action d = Some action ->
       UniversalUIAgent.dict_target d = Some v ->
       (forall t, v <> UniversalUIAgent.PyStr t) ->
       UniversalUIAgent.execute_action_dict rs p d s
       = (s, Raise ("'" +:+ UniversalUIAgent.type_name v +:+
                    "' object has no attribute 'strip'"))) /\
    (forall action text,
       UniversalUIAgent.dict_action d = Some action ->
       default (UniversalUIAgent.PyStr "") (UniversalUIAgent.dict_target d)
       = UniversalUIAgent.PyStr text ->
       (exists s' success message,
          UniversalUIAgent.execute_action_dict rs p d s
          = (s', Ok (success, message))) /\
       ((forall a, action <> UniversalUIAgent.PyStr a) ->
        UniversalUIAgent.execute_action_dict rs p d s
        = (s, Ok (false,
                  "Unknown action: " +:+ UniversalUIAgent.py_str action))) /\
       (forall a,
          action = UniversalUIAgent.PyStr a ->
          let plan := UniversalUIAgent.typed_plan d a text in
          let target := PyStr.strip text in
          let value := default "" (UniversalUIAgent.value plan) in
          let purpose :=
            default "other" (UniversalUIAgent.field_purpose plan) in
          let target_y :=
            default 0 (UniversalUIAgent.target_y_position plan) in
          let untried :=
            FormFieldTracker.is_filled (field_tracker s) target purpose
              target_y = false /\
            (2 <=? FormFieldTracker.get_attempts (field_tracker s) target
                     purpose target_y) = false in
          (forall s' e,
             UniversalUIAgent.execute_action_body rs p plan s
             = (s', Raise e) ->
             UniversalUIAgent.execute_action_dict rs p d s
             = (s', Ok (false, "Error: " +:+ e))) /\
          (forall s' e,
             a = "click" \/ a = "navigate" ->
             UniversalUIAgent.smart_click rs target
               (default "text" (UniversalUIAgent.selector_type plan)) s
             = (s', Raise e) ->
             UniversalUIAgent.execute_action_dict rs p d s
             = (s', Ok (false, "Error: " +:+ e))) /\
          (forall s' e,
             a = "type" -> untried ->
             UniversalUIAgent.smart_type rs target value
               (default "placeholder" (UniversalUIAgent.selector_type plan))
               target_y s
             = (s', Raise e) ->
             UniversalUIAgent.execute_action_dict rs p d s
             = (s', Ok (false, "Error: " +:+ e))) /\
          (forall s' e,
             a = "type_contenteditable" -> untried ->
             UniversalUIAgent.type_contenteditable rs target value target_y s
             = (s', Raise e) ->
             UniversalUIAgent.execute_action_dict rs p d s
             = (s', Ok (false, "Error: " +:+ e))) /\
          (forall e,
             a = "wait" ->
             page_fault p
               (OpWait (default 2000 (UniversalUIAgent.wait_after plan)))
             = Some e ->
             UniversalUIAgent.execute_action_dict rs p d s
             = (s, Ok (false, "Error: " +:+ e))) /\
          (forall e,
             a = "press_key" ->
             let key := if UniversalUIAgent.nonempty target then target
                        else default "Enter" (UniversalUIAgent.value plan) in
             page_fault p (OpKeyPress key) = Some e ->
             UniversalUIAgent.execute_action_dict rs p d s
             = ({| field_tracker := field_tracker s;
                   trace := trace s ++ [EvKeyPress key] |},
                Ok (false, "Key press error: " +:+ e))))).
Proof.
  intros rs p d s. unfold UniversalUIAgent.execute_action_dict.
  split; [by intros ->|]. split.
  { intros action v -> Hv Hnot. rewrite Hv. cbn [default].
    destruct v as [| | |t|]; try done. by destruct (Hnot t). }
  intros action text -> ->. split; [|split].
  - destruct action as [| | |a|]; try by eexists _, _, _.
    apply execute_action_total.
  - intros Hnot. destruct action as [| | |a|]; try done. by destruct (Hnot a).
  - intros a ->.
    destruct (typed_action_converts_exceptions rs p
                (UniversalUIAgent.typed_plan d a text) s)
      as (_ & H1 & H2 & H3 & H4 & H5 & H6).
    split; [exact H1|]. split; [exact H2|]. split; [exact H3|].
    split; [exact H4|]. split; [exact H5|exact H6].
Qed.

(** A click whose resolver raises: the executor returns a failure carrying
    the exception text. *)
Lemma execute_action_raises_only_before_try_witness :
  UniversalUIAgent.execute_action_dict raising_resolvers blank_page
    (dict_of (Some (UniversalUIAgent.PyStr "click"))
       (Some (UniversalUIAgent.PyStr "New project")))
    fresh_agent
  = (fresh_agent, Ok (false, "Error: Target closed")).
Proof.
  destruct (execute_action_raises_only_before_try raising_resolvers blank_page
              (dict_of (Some (UniversalUIAgent.PyStr "click"))
                 (Some (UniversalUIAgent.PyStr "New project")))
              fresh_agent) as (_ & _ & H).
  destruct (H (UniversalUIAgent.PyStr "click") "New project" eq_refl eq_refl)
    as (_ & _ & Htyped).
  destruct (Htyped "click" eq_refl) as (_ & Hclick & _).
  apply Hclick; [by left|reflexivity].
Defined.

(** ** Orchestrator: what one iteration does *)

Section LoopFacts.
Import UniversalUIAgent.

Lemma completion_check_agent task iu env st :
  (completion_check task iu env st).1 = agent st.
Proof.
  unfold completion_check, Driver.wait_for_timeout, lift.
  destruct (creation_completed st); [|done].
  by destruct (faulty _ _).
Qed.

(** The iteration continues: the action ran, the state was recorded. *)
Lemma loop_body_continue task iu env k st st' :
  loop_body task iu env k st = Continue st' ->
  let plan := env_plan env in
  let guard := repetition_guard (action_signature plan)
                 (last_action_signature st) (same_action_count st) in
  exists ag1 success message ui,
    (completion_check task iu env st).2 = Ok false /\
    guard.2 = false /\
    execute_action (resolvers_of (env_page env)) (env_page env) plan (agent st)
      = (ag1, Ok (success, message)) /\
    self_reports_complete plan = false /\
    consecutive_failures st'
      = (if success then 0 else consecutive_failures st + 1) /\
    consecutive_failures st' < 4 /\
    same_action_count st' = guard.1 /\
    last_action_signature st' = action_signature plan /\
    step_number ui = k /\
    workflow st' = append_state (workflow st) ui.
Proof.
  intros H plan guard. unfold loop_body in H.
  pose proof (completion_check_agent task iu env st) as Hag.
  destruct (completion_check task iu env st) as [ag0 [[|]|e]] eqn:Hcc;
    simpl in Hag; subst ag0; try done.
  fold plan in H. fold guard in H.
  destruct (guard.2) eqn:Hg; [done|].
  destruct (execute_action _ _ plan (agent st)) as [ag1 [[success message]|e]]
    eqn:Hex; [|done].
  destruct (Driver.wait_for_timeout _ _ ag1) as [ag2 [[]|e]]; [|done].
  destruct (self_reports_complete plan) eqn:Hsr; [done|].
  destruct (4 <=? _) eqn:Hcf; [done|].
  injection H as <-. simpl.
  eexists ag1, success, message, _. repeat split; try done.
  by apply Z.leb_gt in Hcf.
Qed.

(** The iteration breaks: the four ways out of the loop. *)
Lemma loop_body_break task iu env k st st' :
  loop_body task iu env k st = Break st' ->
  let plan := env_plan env in
  let guard := repetition_guard (action_signature plan)
                 (last_action_signature st) (same_action_count st) in
  ((completion_check task iu env st).2 = Ok true /\
   workflow st' = finish (workflow st) "completed" k /\
   consecutive_failures st' = consecutive_failures st)
  \/
  ((completion_check task iu env st).2 = Ok false /\
   guard.2 = true /\
   workflow st' = finish (workflow st) "failed_infinite_loop" k /\
   actions_taken st' = actions_taken st /\
   consecutive_failures st' = consecutive_failures st)
  \/
  (exists ag1 success message ui,
     execute_action (resolvers_of (env_page env)) (env_page env) plan (agent st)
       = (ag1, Ok (success, message)) /\
     consecutive_failures st'
       = (if success then 0 else consecutive_failures st + 1) /\
     ((self_reports_complete plan = true /\
       workflow st' = finish (append_state (workflow st) ui) "completed" k)
      \/
      (self_reports_complete plan = false /\
       4 <= consecutive_failures st' /\
       workflow st'
       = finish (append_state (workflow st) ui) "failed_too_many_errors" k))
     /\ step_number ui = k).
Proof.
  intros H plan guard. unfold loop_body in H.
  pose proof (completion_check_agent task iu env st) as Hag.
  destruct (completion_check task iu env st) as [ag0 [[|]|e]] eqn:Hcc;
    simpl in Hag; subst ag0; try done.
  { injection H as <-. by left. }
  fold plan in H. fold guard in H.
  destruct (guard.2) eqn:Hg.
  { injection H as <-. right; left. done. }
  destruct (execute_action _ _ plan (agent st)) as [ag1 [[success message]|e]]
    eqn:Hex; [|done].
  destruct (Driver.wait_for_timeout _ _ ag1) as [ag2 [[]|e]]; [|done].
  right; right.
  destruct (self_reports_complete plan) eqn:Hsr.
  { injection H as <-. eexists ag1, success, message, _. simpl.
    split; [done|]. split; [done|]. split.
    - left. split; [done|reflexivity].
    - reflexivity. }
  destruct (4 <=? _) eqn:Hcf; [|done].
  injection H as <-. eexists ag1, success, message, _. simpl.
  split; [done|]. split; [done|]. split.
  - right. split; [done|]. split; [|reflexivity].
    by apply Z.leb_le in Hcf.
  - reflexivity.
Qed.

Lemma run_steps_snoc task iu env n : forall k st,
  run_steps task iu env (S n) k st =
  match run_steps task iu env n k st with
  | Continue st' => loop_body task iu (env (k + Z.of_nat n)) (k + Z.of_nat n) st'
  | other => other
  end.
Proof.
  induction n as [|n IH]; intros k st.
  - simpl. rewrite Z.add_0_r. by destruct (loop_body _ _ _ _ _).
  - change (run_steps task iu env (S (S n)) k st) with
      (match loop_body task iu (env k) k st with
       | Continue st' => run_steps task iu env (S n) (k + 1) st'
       | Break st' => Break st'
       | Propagate e => Propagate e
       end).
    change (run_steps task iu env (S n) k st) with
      (match loop_body task iu (env k) k st with
       | Continue st' => run_steps task iu env n (k + 1) st'
       | Break st' => Break st'
       | Propagate e => Propagate e
       end).
    destruct (loop_body task iu (env k) k st) as [st1|st1|e]; try done.
    rewrite IH. by replace (k + 1 + Z.of_nat n) with (k + Z.of_nat (S n)) by lia.
Qed.

Lemma repetition_guard_count sig last n :
  0 <= n -> 0 <= (repetition_guard sig last n).1.
Proof. unfold repetition_guard. destruct (String.eqb _ _); simpl; lia. Qed.

Lemma repetition_guard_same sig n :
  repetition_guard sig sig n = (n + 1, 3 <=? n + 1).
Proof. unfold repetition_guard. by rewrite String.eqb_refl. Qed.

Lemma repetition_guard_other sig last n :
  sig <> last -> repetition_guard sig last n = (0, false).
Proof.
  unfold repetition_guard. intros H.
  by destruct (String.eqb_spec sig last).
Qed.

End LoopFacts.

(** ** Orchestrator: repetition guard *)




(** ** Orchestrator: consecutive failures *)

(** C5, as stated, fails: four clicks fail in a row, so the failure count
    reaches 4 at step 4, but the fourth plan reports completion with
    confidence 0.9 and the run ends with status [completed]. *)
Lemma fourth_failure_can_end_completed :
  (exists st,
     UniversalUIAgent.run_steps "create repo" "https://github.com"
       failing_clicks 4 1
       (UniversalUIAgent.loop_init "create repo" "u" "github" fresh_agent)
     = UniversalUIAgent.Break st /\
     UniversalUIAgent.consecutive_failures st = 4 /\
     UniversalUIAgent.completion_status (UniversalUIAgent.workflow st)
     = "completed") /\
  (exists wf,
     UniversalUIAgent.execute_task (world_of failing_clicks) "create repo" "u"
       "github" 20 fresh_agent = Ok wf /\
     UniversalUIAgent.completion_status wf = "completed" /\
     UniversalUIAgent.total_steps wf = 4).
Proof.
  split.
  - eexists. split; [vm_compute; reflexivity|]. by vm_compute.
  - eexists. split; [vm_compute; reflexivity|]. by vm_compute.
Qed.

Section FailureBudget.
Import UniversalUIAgent.

(** One iteration entered with fewer than 4 consecutive failures. *)
Lemma loop_body_failure_budget task iu env k st :
  consecutive_failures st < 4 ->
  match loop_body task iu env k st with
  | Continue st' =>
      consecutive_failures st' < 4 /\
      exists ag1 success message,
        execute_action (resolvers_of (env_page env)) (env_page env)
          (env_plan env) (agent st) = (ag1, Ok (success, message)) /\
        consecutive_failures st'
        = (if success then 0 else consecutive_failures st + 1)
  | Break st' =>
      (4 <= consecutive_failures st' ->
       consecutive_failures st' = 4 /\
       total_steps (workflow st') = k /\
       completion_status (workflow st')
       = (if self_reports_complete (env_plan env)
          then "completed" else "failed_too_many_errors")) /\
      (completion_status (workflow st') = "failed_too_many_errors" ->
       consecutive_failures st' = 4 /\ total_steps (workflow st') = k)
  | Propagate _ => True
  end.
Proof.
  intros Hlt.
  destruct (loop_body task iu env k st) as [st'|st'|e] eqn:H; [| |done].
  - apply loop_body_continue in H
      as (ag1 & success & message & ui & _ & _ & Hex & _ & Hcf & Hlt' & _).
    split; [done|]. by exists ag1, success, message.
  - apply loop_body_break in H
      as [(_ & Hwf & Hcf) | [(_ & _ & Hwf & _ & Hcf)
         | (ag1 & success & message & ui & _ & Hcf
            & [[Hsr Hwf]|(Hsr & Hge & Hwf)] & _)]];
      rewrite Hwf; simpl.
    + split; [lia|done].
    + split; [lia|done].
    + rewrite Hsr. split; [|done]. intros Hge.
      destruct success; [lia|]. split; [lia|done].
    + rewrite Hsr. assert (consecutive_failures st' = 4)
        by (destruct success; lia). done.
Qed.

(** A whole run of the loop entered with fewer than 4 consecutive
    failures. *)
Lemma run_steps_failure_budget task iu envs fuel : forall k st,
  consecutive_failures st < 4 ->
  match run_steps task iu envs fuel k st with
  | Continue st' => consecutive_failures st' < 4
  | Break st' =>
      (4 <= consecutive_failures st' ->
       consecutive_failures st' = 4 /\
       completion_status (workflow st')
       = (if self_reports_complete
               (env_plan (envs (total_steps (workflow st'))))
          then "completed" else "failed_too_many_errors")) /\
      (completion_status (workflow st') = "failed_too_many_errors" ->
       consecutive_failures st' = 4)
  | Propagate _ => True
  end.
Proof.
  induction fuel as [|fuel IH]; intros k st Hlt; simpl; [done|].
  pose proof (loop_body_failure_budget task iu (envs k) k st Hlt) as Hbody.
  destruct (loop_body task iu (envs k) k st) as [st1|st1|e]; [| |done].
  - apply IH. by destruct Hbody.
  - destruct Hbody as [Hge Hstatus]. split.
    + intros H4. destruct (Hge H4) as (? & -> & ?). done.
    + intros Hs. by destruct (Hstatus Hs).
Qed.

End FailureBudget.

(** C5, amended.  In a run entered with fewer than 4 consecutive failures
    (the loop starts with 0): each executed action resets the count to 0
    when it succeeds and increments it when it fails; while the loop
    continues the count stays below 4; when the count reaches 4 the loop
    stops at that step, with status [failed_too_many_errors], unless the
    plan of that step reports completion with confidence above 0.7, in
    which case the status is [completed]; and [failed_too_many_errors] is
    only ever given with the count at 4.  The step number plays no part. *)
Theorem four_failures_stop_loop :
  forall (task iu : string) (envs : Z -> UniversalUIAgent.StepEnv)
         (fuel : nat) (k : Z) (st : UniversalUIAgent.LoopState),
    UniversalUIAgent.consecutive_failures st < 4 ->
    match UniversalUIAgent.loop_body task iu (envs k) k st with
    | UniversalUIAgent.Continue st' =>
        UniversalUIAgent.consecutive_failures st' < 4 /\
        exists ag1 success message,
          UniversalUIAgent.execute_action
            (UniversalUIAgent.resolvers_of
               (UniversalUIAgent.env_page (envs k)))
            (UniversalUIAgent.env_page (envs k))
            (UniversalUIAgent.env_plan (envs k))
            (UniversalUIAgent.agent st) = (ag1, Ok (success, message)) /\
          UniversalUIAgent.consecutive_failures st'
          = (if success then 0
             else UniversalUIAgent.consecutive_failures st + 1)
    | UniversalUIAgent.Break st' =>
        (4 <= UniversalUIAgent.consecutive_failures st' ->
         UniversalUIAgent.consecutive_failures st' = 4 /\
         UniversalUIAgent.total_steps (UniversalUIAgent.workflow st') = k /\
         UniversalUIAgent.completion_status (UniversalUIAgent.workflow st')
         = (if UniversalUIAgent.self_reports_complete
                 (UniversalUIAgent.env_plan (envs k))
            then "completed" else "failed_too_many_errors")) /\
        (UniversalUIAgent.completion_status (UniversalUIAgent.workflow st')
         = "failed_too_many_errors" ->
         UniversalUIAgent.consecutive_failures st' = 4 /\
         UniversalUIAgent.total_steps (UniversalUIAgent.workflow st') = k)
    | UniversalUIAgent.Propagate _ => True
    end /\
    match UniversalUIAgent.run_steps task iu envs fuel k st with
    | UniversalUIAgent.Continue st' =>
        UniversalUIAgent.consecutive_failures st' < 4
    | UniversalUIAgent.Break st' =>
        (4 <= UniversalUIAgent.consecutive_failures st' ->
         UniversalUIAgent.consecutive_failures st' = 4 /\
         UniversalUIAgent.completion_status (UniversalUIAgent.workflow st')
         = (if UniversalUIAgent.self_reports_complete
                 (UniversalUIAgent.env_plan
                    (envs (UniversalUIAgent.total_steps
                             (UniversalUIAgent.workflow st'))))
            then "completed" else "failed_too_many_errors")) /\
        (UniversalUIAgent.completion_status (UniversalUIAgent.workflow st')
         = "failed_too_many_errors" ->
         UniversalUIAgent.consecutive_failures st' = 4)
    | UniversalUIAgent.Propagate _ => True
    end.
Proof.
  intros task iu envs fuel k st Hlt. split.
  - by apply loop_body_failure_budget.
  - by apply run_steps_failure_budget.
Qed.

(** A run of four failing clicks, none reporting completion: the count
    reaches 4 at step 4 and the loop stops with [failed_too_many_errors]. *)
Lemma four_failures_stop_loop_witness :
  UniversalUIAgent.consecutive_failures
    (UniversalUIAgent.loop_init "create repo" "u" "github" fresh_agent) < 4 /\
  match
    UniversalUIAgent.run_steps "create repo" "https://github.com"
      failing_clicks_plain 20 1
      (UniversalUIAgent.loop_init "create repo" "u" "github" fresh_agent)
  with
  | UniversalUIAgent.Break st' =>
      UniversalUIAgent.consecutive_failures st' = 4 /\
      UniversalUIAgent.total_steps (UniversalUIAgent.workflow st') = 4 /\
      UniversalUIAgent.completion_status (UniversalUIAgent.workflow st')
      = "failed_too_many_errors"
  | _ => False
  end.
Proof.
  split; [reflexivity|].
  destruct (four_failures_stop_loop "create repo" "https://github.com"
              failing_clicks_plain 20 1
              (UniversalUIAgent.loop_init "create repo" "u" "github"
                 fresh_agent) ltac:(reflexivity)) as [_ H].
  destruct (UniversalUIAgent.run_steps "create repo" "https://github.com"
              failing_clicks_plain 20 1
              (UniversalUIAgent.loop_init "create repo" "u" "github"
                 fresh_agent)) as [st'|st'|e] eqn:Hrun;
    [by vm_compute in Hrun| |by vm_compute in Hrun].
  vm_compute in Hrun. injection Hrun as <-.
  destruct H as [H _]. destruct (H ltac:(by vm_compute)) as [H4 Hs].
  split; [exact H4|]. split; [reflexivity|exact Hs].
Defined.

(** ** Orchestrator: recorded states *)

Section WorkflowLength.
Import UniversalUIAgent.

Lemma seqZ_step (k : Z) (m : nat) :
  k :: seqZ (k + 1) (Z.of_nat m) = seqZ k (Z.of_nat (S m)).
Proof.
  rewrite (seqZ_cons k) by lia. f_equal. f_equal; lia.
Qed.

(** Where a run of the loop from step [k] can end, and the step numbers of
    the states recorded on the way. *)
Lemma run_steps_states task iu env fuel : forall k st,
  completion_status (workflow st) = "in_progress" ->
  let recorded st := map step_number (states (workflow st)) in
  match run_steps task iu env fuel k st with
  | Continue st' =>
      completion_status (workflow st') = "in_progress" /\
      recorded st' = recorded st ++ seqZ k (Z.of_nat fuel)
  | Break st' =>
      exists j : nat,
        (j < fuel)%nat /\
        total_steps (workflow st') = k + Z.of_nat j /\
        ((completion_status (workflow st') = "failed_infinite_loop" /\
          recorded st' = recorded st ++ seqZ k (Z.of_nat j))
         \/
         (completion_status (workflow st') = "completed" /\
          (recorded st' = recorded st ++ seqZ k (Z.of_nat j) \/
           recorded st' = recorded st ++ seqZ k (Z.of_nat (S j))))
         \/
         (completion_status (workflow st') = "failed_too_many_errors" /\
          recorded st' = recorded st ++ seqZ k (Z.of_nat (S j))))
  | Propagate _ => True
  end.
Proof.
  induction fuel as [|fuel IH]; intros k st Hst recorded; simpl.
  - split; [done|]. by rewrite app_nil_r.
  - destruct (loop_body task iu (env k) k st) as [st1|st1|e] eqn:H1; [| |done].
    + apply loop_body_continue in H1
        as (_ & _ & _ & ui & _ & _ & _ & _ & _ & _ & _ & _ & Hk & Hwf).
      assert (completion_status (workflow st1) = "in_progress") as Hst1
        by (by rewrite Hwf).
      assert (recorded st1 = recorded st ++ [k]) as Hrec
        by (unfold recorded; rewrite Hwf; simpl; by rewrite map_app, <- Hk).
      specialize (IH (k + 1) st1 Hst1). fold recorded in IH.
      assert (forall m, recorded st1 ++ seqZ (k + 1) (Z.of_nat m)
                        = recorded st ++ seqZ k (Z.of_nat (S m))) as Hshift
        by (intros m; by rewrite Hrec, <- app_assoc, <- seqZ_step).
      destruct (run_steps task iu env fuel (k + 1) st1) as [st'|st'|e'];
        [| |done].
      * destruct IH as [? ->]. by rewrite Hshift.
      * destruct IH as (j & Hj & Ht & Hcases). exists (S j).
        split; [lia|]. split; [lia|]. rewrite !Hshift in Hcases.
        exact Hcases.
    + exists 0%nat. split; [lia|].
      apply loop_body_break in H1
        as [(_ & Hwf & _) | [(_ & _ & Hwf & _)
           | (ag1 & success & message & ui & _ & _
              & [[_ Hwf]|(_ & _ & Hwf)] & Hk)]];
        unfold recorded; rewrite Hwf; simpl; rewrite ?map_app; simpl;
        rewrite ?Hk, ?app_nil_r; (split; [lia|]).
      * right; left. split; [done|]. by left.
      * left. done.
      * right; left. split; [done|]. by right.
      * right; right. done.
Qed.

End WorkflowLength.


(** ** Click resolution *)

Lemma spec_events {A} (P P' : Event -> Prop) (Q : A -> Prop) (m : M A) :
  resolver_spec P Q m -> (forall ev, P ev -> P' ev) -> resolver_spec P' Q m.
Proof.
  intros Hm HP s. destruct (Hm s) as (Ht & (evs & He & Hall) & Hr).
  split; [done|]. split; [|done].
  exists evs. split; [done|]. eapply Forall_impl; eauto.
Qed.

Section ClickFacts.
Import UniversalUIAgent Driver PyStr.

Lemma click_attempt_spec p target i strategy :
  resolver_spec (clicks_satisfy (loop_click_ok target)) any
    (click_attempt p target i strategy).
Proof.
  unfold click_attempt, is_visible, evaluate_disabled, text_content,
    scroll_into_view_if_needed, click.
  apply spec_try_same; [|intros; apply spec_ret; exact I].
  eapply (spec_bind _ any); [apply spec_lift; intros; exact I|].
  intros [|locator rest] _; [apply spec_ret; exact I|].
  eapply (spec_bind _ any).
  { destruct (multi_word_final target); [|apply spec_ret; exact I].
    apply spec_try_same; [|intros; apply spec_ret; exact I].
    eapply (spec_bind _ any); [apply spec_action; exact I|].
    intros; apply spec_wait. }
  intros _ _.
  eapply spec_bind; [apply spec_query|]. intros visible ->.
  destruct (el_visible locator) eqn:Hvis; [|apply spec_ret; exact I].
  eapply spec_bind; [apply spec_query|]. intros is_disabled ->.
  destruct (el_disabled locator) eqn:Hdis; [apply spec_ret; exact I|].
  eapply (spec_bind _
            (fun found_final =>
               found_final = false ->
               is_intermediate target = true ->
               truthy (el_text locator) = true ->
               any_in ["create repository"; "create project"; "create issue";
                       "submit"]
                 (lower (default "" (el_text locator))) = false)).
  { destruct (is_intermediate target); [|apply spec_ret; done].
    eapply spec_bind; [apply spec_query|]. intros button_text ->.
    apply spec_ret. intros H _ Ht. by rewrite Ht in H. }
  intros [|] Hfinal; [apply spec_ret; exact I|].
  eapply (spec_bind _
            (fun mismatch =>
               mismatch = false ->
               multi_word_final target = true ->
               truthy (el_text locator) = true ->
               str_in (lower target) (lower (default "" (el_text locator)))
               = true)).
  { destruct (multi_word_final target); [|apply spec_ret; done].
    eapply spec_bind; [apply spec_query|]. intros button_text ->.
    apply spec_ret. intros H _ Ht. rewrite Ht in H.
    by apply negb_false_iff in H. }
  intros [|] Hmismatch; [apply spec_ret; exact I|].
  eapply (spec_bind _ any).
  { apply spec_action. simpl. unfold loop_click_ok. auto. }
  intros _ _. eapply (spec_bind _ any); [apply spec_wait|].
  intros; apply spec_ret; exact I.
Qed.

Lemma click_loop_spec p target strategies : forall i,
  resolver_spec (clicks_satisfy (loop_click_ok target)) any
    (click_loop p target i strategies).
Proof.
  induction strategies as [|strategy rest IH]; intros i; simpl.
  - apply spec_ret; exact I.
  - eapply (spec_bind _ any); [apply click_attempt_spec|].
    intros [r|] _; [apply spec_ret; exact I|apply IH].
Qed.

Lemma last_resort_attempt_spec p words btn :
  resolver_spec (clicks_satisfy (last_resort_click_ok words)) any
    (last_resort_attempt p words btn).
Proof.
  unfold last_resort_attempt, is_visible, evaluate_disabled, text_content,
    scroll_into_view_if_needed, click.
  apply spec_try_same; [|intros; apply spec_ret; exact I].
  eapply spec_bind; [apply spec_query|]. intros btn_text ->.
  destruct (truthy (el_text btn) && _) eqn:Htext; [|apply spec_ret; exact I].
  apply andb_true_iff in Htext as [Htruthy Hwords].
  eapply spec_bind; [apply spec_query|]. intros is_disabled ->.
  destruct (el_disabled btn) eqn:Hdis; simpl; [apply spec_ret; exact I|].
  eapply spec_bind; [apply spec_query|]. intros visible ->.
  destruct (el_visible btn) eqn:Hvis; [|apply spec_ret; exact I].
  eapply (spec_bind _ any); [apply spec_action; exact I|]. intros _ _.
  eapply (spec_bind _ any); [apply spec_wait|]. intros _ _.
  eapply (spec_bind _ any).
  { apply spec_action. simpl. unfold last_resort_click_ok. auto. }
  intros _ _. eapply (spec_bind _ any); [apply spec_wait|].
  intros; apply spec_ret; exact I.
Qed.

Lemma last_resort_loop_spec p words all_buttons :
  resolver_spec (clicks_satisfy (last_resort_click_ok words)) any
    (last_resort_loop p words all_buttons).
Proof.
  induction all_buttons as [|btn rest IH]; simpl.
  - apply spec_ret; exact I.
  - eapply (spec_bind _ any); [apply last_resort_attempt_spec|].
    intros [r|] _; [apply spec_ret; exact I|apply IH].
Qed.

Lemma last_resort_spec p target :
  resolver_spec
    (clicks_satisfy
       (fun e => multi_word_final target = true /\
                 length (split target) = 2%nat /\
                 last_resort_click_ok (split target) e))
    any (last_resort p target).
Proof.
  unfold last_resort.
  destruct (multi_word_final target) eqn:Hmw; [|apply spec_ret; exact I].
  destruct (Nat.eqb_spec (length (split target)) 2) as [Hlen|];
    [|apply spec_ret; exact I].
  apply spec_try_same; [|intros; apply spec_ret; exact I].
  eapply (spec_bind _ any); [apply spec_lift; intros; exact I|].
  intros all_buttons _.
  eapply spec_events; [apply last_resort_loop_spec|].
  intros [e force| | | | |]; simpl; auto.
Qed.

Lemma smart_click_spec p target selector_type :
  resolver_spec
    (clicks_satisfy
       (fun e => loop_click_ok target e \/
                 (multi_word_final target = true /\
                  length (split target) = 2%nat /\
                  last_resort_click_ok (split target) e)))
    any (_smart_click p target selector_type).
Proof.
  unfold _smart_click.
  eapply (spec_bind _ any).
  { eapply spec_events; [apply click_loop_spec|].
    intros [e force| | | | |]; simpl; auto. }
  intros [r|] _; [apply spec_ret; exact I|].
  eapply (spec_bind _ any).
  { eapply spec_events; [apply last_resort_spec|].
    intros [e force| | | | |]; simpl; auto. }
  intros [r|] _; apply spec_ret; exact I.
Qed.

(** Every click [_smart_click] issues is on an element it found visible and
    not disabled. *)
Lemma smart_click_skips_disabled p target selector_type s :
  exists evs,
    trace (_smart_click p target selector_type s).1 = trace s ++ evs /\
    forall e force, In (EvClick e force) evs ->
      el_disabled e = false /\ el_visible e = true.
Proof.
  destruct (smart_click_spec p target selector_type s)
    as (_ & (evs & He & Hall) & _).
  exists evs. split; [done|]. intros e force Hin.
  rewrite Forall_forall in Hall.
  apply list_elem_of_In, Hall in Hin. simpl in Hin.
  destruct Hin as [(? & ? & _) | (_ & _ & ? & ? & _)]; auto.
Qed.

End ClickFacts.


(** The case of a candidate that the strategy loop skips and the
    last-resort scan then clicks: [draft_page] has one button reading
    [Save  changes] (two blanks), which the first strategy matches; the
    strategy loop skips it for lacking the phrase, and the last-resort
    scan clicks it for holding both words. *)
Example skipped_candidate_clicked_by_last_resort :
  PyStr.str_in (PyStr.lower "Save changes")
    (PyStr.lower (default "" (el_text draft_button))) = false /\
  UniversalUIAgent.click_loop draft_page "Save changes" 1
    (UniversalUIAgent.click_strategies "Save changes" "text") fresh_agent
  = ({| field_tracker := FormFieldTracker.init;
        trace := [EvScroll draft_button] |}, Ok None) /\
  UniversalUIAgent._smart_click draft_page "Save changes" "text" fresh_agent
  = ({| field_tracker := FormFieldTracker.init;
        trace := [EvScroll draft_button; EvScroll draft_button;
                  EvClick draft_button false] |},
     Ok (true, "Clicked using last resort method")).
Proof. repeat split; vm_compute; reflexivity. Qed.



(** ** Text entry does not look at the disabled state *)

(** C3 (code defect).  On [disabled_form] the only match of the strategy
    [[name='title']] is a disabled input.  [_smart_type] selects it, clicks
    it with force, fails to fill it, types the value through the keyboard
    and returns success; [execute_action] then marks the field filled. *)
Theorem smart_type_acts_on_disabled_field :
  el_disabled disabled_input = true /\
  UniversalUIAgent._smart_type disabled_form "title" "Roadmap Q1" "name" 0
    fresh_agent
  = ({| field_tracker := FormFieldTracker.init;
        trace := [EvClick disabled_input true;
                  EvFill disabled_input "";
                  EvClick disabled_input true;
                  EvKeyPress "Control+A";
                  EvKeyType "Roadmap Q1"] |},
     Ok (true, "Typed using strategy 1")) /\
  (exists s',
     UniversalUIAgent.execute_action
       (UniversalUIAgent.resolvers_of disabled_form) disabled_form
       type_title_plan fresh_agent
     = (s', Ok (true, "Typed using strategy 1")) /\
     FormFieldTracker.is_filled (field_tracker s') "title" "title" 0 = true).
Proof.
  split; [reflexivity|]. split; [vm_compute; reflexivity|].
  eexists. split; [vm_compute; reflexivity|]. by vm_compute.
Qed.

(** ** Position disambiguation in text entry *)

Section SearchFacts.
Import UniversalUIAgent.

Lemma scan_near_cons ty i e rest b :
  scan_near ty i (e :: rest) b =
  match distance_to ty e with
  | None => scan_near ty i rest b
  | Some d =>
      let seen := (i, e, d) :: considered b in
      if (d <? max_distance i) && closer d (best_distance b) then
        let b' := mkSearch (Some e) (Some d) i seen in
        if d <? 20 then b' else scan_near ty i rest b'
      else
        scan_near ty i rest
          (mkSearch (best_match b) (best_distance b) (best_strategy_used b)
             seen)
  end.
Proof.
  unfold distance_to; simpl.
  destruct (visible_q e) as [[|]|]; try reflexivity.
  destruct (bbox_q e) as [[y|]|]; reflexivity.
Qed.

Lemma closest_considered_init : closest_considered search_init.
Proof. split; [done|]. intros j e' d' []. Qed.

Lemma closest_considered_step i e d b :
  closest_considered b ->
  (if (d <? max_distance i) && closer d (best_distance b)
   then closest_considered (mkSearch (Some e) (Some d) i ((i, e, d) :: considered b))
   else closest_considered
          (mkSearch (best_match b) (best_distance b) (best_strategy_used b)
             ((i, e, d) :: considered b))).
Proof.
  unfold closest_considered. intros Hb.
  destruct (Z.ltb_spec d (max_distance i)) as [Hd|Hd]; simpl.
  - destruct (best_match b) as [e0|].
    + destruct Hb as (d0 & Hin & Hbd & Hd0 & Hmin). rewrite Hbd; simpl.
      destruct (Z.ltb_spec d d0) as [Hlt|Hge]; simpl.
      * exists d. split; [by left|]. split; [done|]. split; [done|].
        intros j e' d' [[= <- <- <-]|Hin'] Hd'; [lia|].
        specialize (Hmin _ _ _ Hin' Hd'). lia.
      * exists d0. split; [by right|]. split; [done|]. split; [done|].
        intros j e' d' [[= <- <- <-]|Hin'] Hd'; [lia|]. eauto.
    + destruct Hb as [Hbd Hmin]. rewrite Hbd; simpl.
      exists d. split; [by left|]. split; [done|]. split; [done|].
      intros j e' d' [[= <- <- <-]|Hin'] Hd'; [lia|].
      specialize (Hmin _ _ _ Hin'). lia.
  - destruct (best_match b) as [e0|].
    + destruct Hb as (d0 & Hin & Hbd & Hd0 & Hmin).
      exists d0. split; [by right|]. split; [done|]. split; [done|].
      intros j e' d' [[= <- <- <-]|Hin'] Hd'; [lia|]. eauto.
    + destruct Hb as [Hbd Hmin]. split; [done|].
      intros j e' d' [[= <- <- <-]|Hin']; [lia|]. eauto.
Qed.

Lemma scan_near_closest ty i elems : forall b,
  closest_considered b -> closest_considered (scan_near ty i elems b).
Proof.
  induction elems as [|e rest IH]; intros b Hb; [done|].
  rewrite scan_near_cons.
  destruct (distance_to ty e) as [d|]; [|by apply IH].
  pose proof (closest_considered_step i e d b Hb) as Hstep. simpl.
  destruct (_ && _); [|by apply IH].
  destruct (d <? 20); [done|by apply IH].
Qed.

Lemma find_field_closest p ty strategies : forall i b,
  0 < ty ->
  closest_considered b -> closest_considered (find_field p ty i strategies b).
Proof.
  induction strategies as [|selector rest IH]; intros i b Hty Hb; [done|].
  simpl. destruct (locate p selector) as [matches|]; [|by apply IH].
  destruct (0 <? length matches)%nat; [|by apply IH].
  destruct (Z.ltb_spec 0 ty); [|lia].
  pose proof (scan_near_closest ty i (firstn 5 matches) b Hb).
  destruct (_ && _); [done|by apply IH].
Qed.

(** Every considered candidate is one of the elements scanned. *)
Lemma scan_near_considered ty i elems : forall b j e d,
  In (j, e, d) (considered (scan_near ty i elems b)) ->
  In (j, e, d) (considered b) \/
  (j = i /\ In e elems /\ distance_to ty e = Some d).
Proof.
  induction elems as [|e0 rest IH]; intros b j e d Hin; [by left|].
  rewrite scan_near_cons in Hin.
  destruct (distance_to ty e0) as [d0|] eqn:Hd0.
  - simpl in Hin.
    assert (In (j, e, d) ((i, e0, d0) :: considered b) ->
            In (j, e, d) (considered b) \/
            j = i /\ In e (e0 :: rest) /\ distance_to ty e = Some d) as Hhead.
    { intros [[= <- <- <-]|?]; [right|by left]. split; [done|].
      split; [by left|done]. }
    destruct (_ && _).
    + destruct (d0 <? 20); [by apply Hhead|].
      apply IH in Hin as [Hin|(? & ? & ?)]; [by apply Hhead|].
      right. split; [done|]. split; [by right|done].
    + apply IH in Hin as [Hin|(? & ? & ?)]; [by apply Hhead|].
      right. split; [done|]. split; [by right|done].
  - apply IH in Hin as [Hin|(? & ? & ?)]; [by left|].
    right. split; [done|]. split; [by right|done].
Qed.

Lemma find_field_considered p ty strategies : forall i b j e d,
  0 < ty ->
  In (j, e, d) (considered (find_field p ty i strategies b)) ->
  In (j, e, d) (considered b) \/
  exists n selector matches,
    strategies !! n = Some selector /\ j = (i + n)%nat /\
    locate p selector = Ok matches /\
    In e (firstn 5 matches) /\ distance_to ty e = Some d.
Proof.
  induction strategies as [|selector rest IH]; intros i b j e d Hty Hin;
    [by left|].
  assert (forall b',
            In (j, e, d) (considered (find_field p ty (S i) rest b')) ->
            In (j, e, d) (considered b') \/
            exists n selector0 matches,
              (selector :: rest) !! n = Some selector0 /\ j = (i + n)%nat /\
              locate p selector0 = Ok matches /\
              In e (firstn 5 matches) /\ distance_to ty e = Some d) as Hrest.
  { intros b' Hin'. apply IH in Hin'; [|done].
    destruct Hin' as [?|(n & s0 & m & Hn & -> & ?)]; [by left|].
    right. exists (S n), s0, m. split; [done|]. split; [lia|done]. }
  simpl in Hin. destruct (locate p selector) as [matches|] eqn:Hloc;
    [|by apply Hrest].
  destruct (0 <? length matches)%nat; [|by apply Hrest].
  destruct (Z.ltb_spec 0 ty); [|lia].
  assert (In (j, e, d) (considered (scan_near ty i (firstn 5 matches) b)) ->
          In (j, e, d) (considered b) \/
          exists n selector0 matches0,
            (selector :: rest) !! n = Some selector0 /\ j = (i + n)%nat /\
            locate p selector0 = Ok matches0 /\
            In e (firstn 5 matches0) /\ distance_to ty e = Some d) as Hscan.
  { intros Hin'. apply scan_near_considered in Hin' as [?|(-> & ? & ?)];
      [by left|].
    right. exists 0%nat, selector, matches. split; [done|]. split; [lia|done]. }
  destruct (_ && _); [by apply Hscan|].
  apply Hrest in Hin as [Hin|?]; [by apply Hscan|by right].
Qed.

(** Within one strategy the scan is in order and ends either at the end of
    the matches or at the first new best closer than 20px. *)
Lemma scan_near_prefix ty i elems : forall b,
  exists pre post,
    elems = pre ++ post /\
    considered (scan_near ty i elems b)
    = rev (measure ty i pre) ++ considered b /\
    (post = [] \/
     exists e d,
       last pre = Some e /\ distance_to ty e = Some d /\ d < 20 /\
       best_match (scan_near ty i elems b) = Some e).
Proof.
  induction elems as [|e rest IH]; intros b.
  - exists [], []. split; [done|]. split; [done|by left].
  - rewrite scan_near_cons.
    assert (forall b' d,
              distance_to ty e = Some d ->
              considered b' = (i, e, d) :: considered b ->
              exists pre post,
                e :: rest = pre ++ post /\
                considered (scan_near ty i rest b')
                = rev (measure ty i pre) ++ considered b /\
                (post = [] \/
                 exists e1 d1,
                   last pre = Some e1 /\ distance_to ty e1 = Some d1 /\
                   d1 < 20 /\ best_match (scan_near ty i rest b') = Some e1))
      as Hgo.
    { intros b' d Hd Hb'. destruct (IH b') as (pre & post & -> & Hc & Hend).
      exists (e :: pre), post. split; [done|]. split.
      - rewrite Hc, Hb'. unfold measure; simpl. rewrite Hd; simpl.
        by rewrite <- app_assoc.
      - destruct Hend as [->|(e1 & d1 & Hl & ? & ? & ?)]; [by left|].
        right. exists e1, d1. split; [|done].
        destruct pre; [done|]. done. }
    destruct (distance_to ty e) as [d|] eqn:Hd.
    + simpl. destruct (_ && _).
      * destruct (Z.ltb_spec d 20); [|by eapply Hgo].
        exists [e], rest. split; [done|]. split.
        -- unfold measure; simpl. by rewrite Hd.
        -- right. by exists e, d.
      * by eapply Hgo.
    + destruct (IH b) as (pre & post & -> & Hc & Hend).
      exists (e :: pre), post. split; [done|]. split.
      * rewrite Hc. unfold measure; simpl. by rewrite Hd.
      * destruct Hend as [->|(e1 & d1 & Hl & ? & ? & ?)]; [by left|].
        right. exists e1, d1. split; [|done].
        destruct pre; [done|]. done.
Qed.

End SearchFacts.

Section TwoFields.
Import UniversalUIAgent.

Variables (p : Page) (f100 f500 : Element).
Hypothesis box_100 : el_box_y f100 = Some 100.
Hypothesis seen_500 : distance_to 510 f500 = Some 10.

Lemma upper_distance : distance_to 510 f100 = None \/ distance_to 510 f100 = Some 410.
Proof.
  unfold distance_to, bbox_q. rewrite box_100.
  destruct (visible_q f100) as [[|]|]; auto.
  destruct (el_fault f100 OpBoundingBox); simpl; auto.
Qed.

Lemma max_distance_cases i : max_distance i = 80 \/ max_distance i = 150.
Proof. unfold max_distance. destruct (6 <? i)%nat; auto. Qed.

Lemma scan_upper i rest b :
  scan_near 510 i (f100 :: rest) b = scan_near 510 i rest b \/
  scan_near 510 i (f100 :: rest) b
  = scan_near 510 i rest
      (mkSearch (best_match b) (best_distance b) (best_strategy_used b)
         ((i, f100, 410) :: considered b)).
Proof.
  rewrite scan_near_cons.
  destruct upper_distance as [-> | ->]; [by left|]. right. simpl.
  destruct (max_distance_cases i) as [-> | ->]; reflexivity.
Qed.

Lemma scan_lower i b :
  nothing_or_lower f500 b ->
  exists b',
    (forall rest, scan_near 510 i (f500 :: rest) b = b' \/
                  scan_near 510 i (f500 :: rest) b = scan_near 510 i rest b') /\
    best_match b' = Some f500 /\ best_distance b' = Some 10.
Proof.
  intros [[Hm Hd]|[Hm Hd]].
  - exists (mkSearch (Some f500) (Some 10) i ((i, f500, 10) :: considered b)).
    split; [intros rest; left|done].
    rewrite scan_near_cons, seen_500, Hd. simpl.
    destruct (max_distance_cases i) as [-> | ->]; reflexivity.
  - exists (mkSearch (best_match b) (best_distance b) (best_strategy_used b)
              ((i, f500, 10) :: considered b)).
    split; [intros rest; right|done].
    rewrite scan_near_cons, seen_500, Hd. simpl.
    by rewrite andb_false_r.
Qed.

Lemma scan_both i b matches :
  matches = [f100; f500] \/ matches = [f500; f100] ->
  nothing_or_lower f500 b ->
  best_match (scan_near 510 i (firstn 5 matches) b) = Some f500 /\
  best_distance (scan_near 510 i (firstn 5 matches) b) = Some 10.
Proof.
  intros [-> | ->] Hb; simpl firstn.
  - destruct (scan_upper i [f500] b) as [-> | ->].
    + destruct (scan_lower i b Hb) as (b' & Hs & ? & ?).
      by destruct (Hs []) as [-> | ->].
    + destruct (scan_lower i
                  (mkSearch (best_match b) (best_distance b)
                     (best_strategy_used b) ((i, f100, 410) :: considered b))
                  Hb) as (b' & Hs & ? & ?).
      by destruct (Hs []) as [-> | ->].
  - destruct (scan_lower i b Hb) as (b' & Hs & Hm & Hd).
    destruct (Hs [f100]) as [-> | ->]; [done|].
    by destruct (scan_upper i [] b') as [-> | ->].
Qed.

Lemma find_both strategies : forall i b,
  nothing_or_lower f500 b ->
  (forall selector, In selector strategies -> alike p f100 f500 selector) ->
  best_match b = Some f500 \/
    (exists selector, In selector strategies /\ matches_both p f100 f500 selector) ->
  best_match (find_field p 510 i strategies b) = Some f500.
Proof.
  induction strategies as [|selector rest IH]; intros i b Hb Halike Hsome.
  - destruct Hsome as [?|(? & [] & _)]. done.
  - simpl.
    assert (forall b', nothing_or_lower f500 b' -> best_match b' = Some f500 ->
              best_match (find_field p 510 (S i) rest b') = Some f500) as Hnext.
    { intros b' Hb' Hm. apply IH; [done| |by left].
      intros s Hs. apply Halike. by right. }
    assert (~ matches_both p f100 f500 selector ->
            best_match (find_field p 510 (S i) rest b) = Some f500) as Hskip.
    { intros Hno. apply IH; [done| |].
      - intros s Hs. apply Halike. by right.
      - destruct Hsome as [?|(s & [<-|Hs] & Hboth)]; [by left|done|].
        right. by exists s. }
    destruct (Halike selector ltac:(by left))
      as [Hl|[[e Hl]|Hboth]].
    + rewrite Hl. simpl. apply Hskip. intros [H|H]; congruence.
    + rewrite Hl. apply Hskip. intros [H|H]; congruence.
    + assert (exists matches, locate p selector = Ok matches /\
                (matches = [f100; f500] \/ matches = [f500; f100]))
        as (matches & Hl & Hshape)
        by (destruct Hboth as [H|H]; eexists; split; eauto).
      rewrite Hl.
      assert ((0 <? length matches)%nat = true) as ->
        by (by destruct Hshape as [-> | ->]).
      change (0 <? 510) with true. cbv iota.
      destruct (scan_both i b matches Hshape Hb) as [Hm Hd].
      destruct (_ && _); [done|].
      apply Hnext; [by right|done].
Qed.

End TwoFields.




(** * Further properties *)

(** ** Field tracker: keys *)

Section KeyFacts.
Import FormFieldTracker.

Lemma str_app_assoc (s1 s2 s3 : string) :
  (s1 +:+ s2) +:+ s3 = s1 +:+ s2 +:+ s3.
Proof.
  induction s1 as [|c s1 IH]; [reflexivity|].
  change (String c ((s1 +:+ s2) +:+ s3) = String c (s1 +:+ s2 +:+ s3)).
  by rewrite IH.
Qed.

Lemma str_in_bar_cons (c : ascii) (s : string) :
  PyStr.str_in "|" (String c s)
  = (if Ascii.eqb "|" c then true else PyStr.str_in "|" s).
Proof.
  cbn [PyStr.str_in String.prefix].
  destruct (ascii_dec "|" c) as [<-|Hne].
  - rewrite Ascii.eqb_refl. by destruct s.
  - apply Ascii.eqb_neq in Hne. rewrite Hne. reflexivity.
Qed.

Lemma bar_free_cons c s : bar_free (String c s) -> c <> "|"%char /\ bar_free s.
Proof.
  unfold bar_free. rewrite str_in_bar_cons.
  destruct (Ascii.eqb_spec "|" c); [done|]. auto.
Qed.

Lemma bar_free_app s1 s2 : bar_free s1 -> bar_free s2 -> bar_free (s1 +:+ s2).
Proof.
  induction s1 as [|c s1 IH]; [done|].
  intros [Hc H1]%bar_free_cons H2. unfold bar_free.
  change (String c s1 +:+ s2) with (String c (s1 +:+ s2)).
  rewrite str_in_bar_cons. destruct (Ascii.eqb_spec "|" c); [done|].
  by apply IH.
Qed.

(** The text after the last bar determines the split. *)
Lemma bar_in_middle (s n : string) : ~ bar_free (s +:+ String "|" n).
Proof.
  induction s as [|c s IH]; intros Hs.
  - by apply bar_free_cons in Hs as [? _].
  - change (String c s +:+ String "|" n)
      with (String c (s +:+ String "|" n)) in Hs.
    apply bar_free_cons in Hs as [_ ?]. auto.
Qed.

Lemma last_bar_split (s1 s2 n1 n2 : string) :
  bar_free n1 -> bar_free n2 ->
  s1 +:+ String "|" n1 = s2 +:+ String "|" n2 -> s1 = s2 /\ n1 = n2.
Proof.
  intros H1 H2. revert s2.
  induction s1 as [|c s1 IH]; intros [|d s2] Heq.
  - change (String "|" n1 = String "|" n2) in Heq. by injection Heq as ->.
  - change (String "|" n1 = String d (s2 +:+ String "|" n2)) in Heq.
    injection Heq as <- ->. by destruct (bar_in_middle s2 n2).
  - change (String c (s1 +:+ String "|" n1) = String "|" n2) in Heq.
    injection Heq as -> <-. by destruct (bar_in_middle s1 n1).
  - change (String c (s1 +:+ String "|" n1)
            = String d (s2 +:+ String "|" n2)) in Heq.
    injection Heq as -> Heq. apply IH in Heq as [-> ->]. done.
Qed.

Lemma pretty_N_char_bar_free x s :
  bar_free s -> bar_free (String (pretty_N_char x) s).
Proof.
  intros Hs. unfold bar_free. rewrite str_in_bar_cons.
  unfold pretty_N_char. by repeat case_match.
Qed.

Lemma pretty_N_go_bar_free x : forall s,
  bar_free s -> bar_free (pretty_N_go x s).
Proof.
  induction (N.lt_wf_0 x) as [x _ IH]; intros s Hs.
  destruct (decide (x = 0)%N) as [->|Hx]; [by rewrite pretty_N_go_0|].
  rewrite pretty_N_go_step by lia.
  apply IH; [apply N.div_lt; lia|]. by apply pretty_N_char_bar_free.
Qed.

Lemma pretty_Z_bar_free (z : Z) : bar_free (pretty z).
Proof.
  assert (forall x : positive, bar_free (pretty x)) as Hpos.
  { intros x. unfold pretty, pretty_positive, pretty, pretty_N.
    case_decide; [done|]. by apply pretty_N_go_bar_free. }
  destruct z as [|x|x]; [done|apply Hpos|].
  change (pretty (Z.neg x)) with ("-" +:+ pretty x).
  by apply (bar_free_app "-").
Qed.

Lemma create_field_key_split f1 p1 y1 f2 p2 y2 :
  create_field_key f1 p1 y1 = create_field_key f2 p2 y2 ->
  y1 / 100 = y2 / 100 /\ f1 +:+ "|" +:+ p1 = f2 +:+ "|" +:+ p2.
Proof.
  unfold create_field_key. intros Heq.
  assert (forall f p n, f +:+ "|" +:+ p +:+ "|" +:+ n
                        = (f +:+ "|" +:+ p) +:+ String "|" n) as Hassoc.
  { intros f p n. change ("|" +:+ n) with (String "|" n).
    by rewrite !str_app_assoc. }
  rewrite !Hassoc in Heq.
  apply last_bar_split in Heq as [? ?%(inj pretty)];
    [done|apply pretty_Z_bar_free..].
Qed.

End KeyFacts.

(** X1.  Two field keys are equal only if the positions fall in the same
    bucket, whatever the field ids and purposes are; and when neither
    purpose contains a bar, also only if the field ids and the purposes are
    equal.  (A field id may contain bars.) *)
Theorem create_field_key_injective :
  forall (f1 p1 : string) (y1 : Z) (f2 p2 : string) (y2 : Z),
    FormFieldTracker.create_field_key f1 p1 y1
    = FormFieldTracker.create_field_key f2 p2 y2 ->
    y1 / 100 = y2 / 100 /\
    (bar_free p1 -> bar_free p2 -> f1 = f2 /\ p1 = p2).
Proof.
  intros f1 p1 y1 f2 p2 y2 Heq.
  apply create_field_key_split in Heq as [Hy Hfp]. split; [done|].
  intros H1 H2. change ("|" +:+ p1) with (String "|" p1) in Hfp.
  change ("|" +:+ p2) with (String "|" p2) in Hfp.
  by apply last_bar_split in Hfp.
Qed.

Lemma create_field_key_injective_witness :
  FormFieldTracker.create_field_key "repo|name" "name" 120
  = FormFieldTracker.create_field_key "repo|name" "name" 199 /\
  120 / 100 = 199 / 100 /\
  (bar_free "name" -> bar_free "name" ->
   "repo|name" = "repo|name" /\ "name" = "name").
Proof.
  split; [reflexivity|].
  apply (create_field_key_injective "repo|name" "name" 120
           "repo|name" "name" 199).
  reflexivity.
Defined.

(** A purpose with a bar in it can make two different fields share a key. *)
Example create_field_key_collision :
  FormFieldTracker.create_field_key "a|b" "c" 0
  = FormFieldTracker.create_field_key "a" "b|c" 0.
Proof. reflexivity. Qed.

(** ** Field tracker: sequences of calls *)

Section CallFacts.
Import FormFieldTracker.

Lemma mark_all_snoc t calls c :
  mark_all t (calls ++ [c])
  = mark_filled (mark_all t calls) c.1.1.1 c.1.1.2 c.1.2 c.2.
Proof.
  unfold mark_all. rewrite fold_left_app. by destruct c as [[[f p] v] y].
Qed.

Lemma calls_on_snoc key calls c :
  calls_on key (calls ++ [c])
  = calls_on key calls ++ (if String.eqb (key_of_call c) key then [c] else []).
Proof. unfold calls_on. rewrite List.filter_app. done. Qed.

Lemma key_of_call_eq c :
  key_of_call c = create_field_key c.1.1.1 c.1.1.2 c.2.
Proof. by destruct c as [[[f p] v] y]. Qed.

Lemma value_of_call_eq c : value_of_call c = c.1.2.
Proof. by destruct c as [[[f p] v] y]. Qed.

Lemma consistent_init : tracker_consistent init.
Proof.
  split; [|split].
  - intros k. left. split; apply lookup_empty.
  - intros f p y [v Hv]. simpl in Hv. by rewrite lookup_empty in Hv.
  - intros b Hb. simpl in Hb. by apply elem_of_empty in Hb.
Qed.

Lemma consistent_mark_filled t f p v y :
  tracker_consistent t -> tracker_consistent (mark_filled t f p v y).
Proof.
  intros (Hk & Hpos & Hbucket). unfold mark_filled. split; [|split]; simpl.
  - intros k. destruct (decide (create_field_key f p y = k)) as [<-|Hne].
    + right. rewrite !lookup_insert_eq. eexists _, v. split; [done|].
      split; [|done].
      destruct (Hk (create_field_key f p y)) as [[-> _]|(n & ? & -> & ? & _)];
        simpl; lia.
    + rewrite !lookup_insert_ne by done. apply Hk.
  - intros f' p' y' Hsome. apply elem_of_union.
    destruct (decide (create_field_key f p y = create_field_key f' p' y'))
      as [Heq|Hne].
    + left. apply create_field_key_split in Heq as [-> _].
      by apply elem_of_singleton.
    + right. rewrite lookup_insert_ne in Hsome by done. by apply (Hpos f' p').
  - intros b [->%elem_of_singleton|Hb]%elem_of_union.
    + exists f, p, y. by rewrite lookup_insert_eq.
    + destruct (Hbucket b Hb) as (f' & p' & y' & [w Hw] & <-).
      exists f', p', y'. split; [|done].
      rewrite lookup_insert. case_decide; by eexists.
Qed.

Lemma consistent_apply_call t c :
  tracker_consistent t -> tracker_consistent (apply_call t c).
Proof.
  destruct c as [f p v y|]; simpl.
  - apply consistent_mark_filled.
  - intros _. apply consistent_init.
Qed.

End CallFacts.

(** X2.  After any sequence of [mark_filled] calls, the attempt count of a
    field is its count before plus the number of calls that wrote its
    key. *)
Theorem get_attempts_counts_calls :
  forall (t : FormFieldTracker.Tracker)
         (calls : list (string * string * string * Z))
         (f p : string) (y : Z),
    FormFieldTracker.get_attempts (mark_all t calls) f p y
    = FormFieldTracker.get_attempts t f p y
      + Z.of_nat
          (length (calls_on (FormFieldTracker.create_field_key f p y) calls)).
Proof.
  intros t calls f p y.
  induction calls as [|c calls IH] using rev_ind.
  - simpl. lia.
  - rewrite mark_all_snoc, calls_on_snoc, length_app, Nat2Z.inj_add, Z.add_assoc.
    rewrite <- IH, key_of_call_eq.
    unfold FormFieldTracker.get_attempts, FormFieldTracker.mark_filled; simpl.
    destruct (String.eqb_spec
                (FormFieldTracker.create_field_key c.1.1.1 c.1.1.2 c.2)
                (FormFieldTracker.create_field_key f p y)) as [->|Hne].
    + by rewrite lookup_insert_eq.
    + rewrite lookup_insert_ne by done. simpl. lia.
Qed.

(** X3.  The value recorded for a key after a sequence of [mark_filled]
    calls is the value of the last call that wrote the key, and the value
    held before when no call did. *)
Theorem mark_all_last_value :
  forall (t : FormFieldTracker.Tracker)
         (calls : list (string * string * string * Z)) (key : string),
    FormFieldTracker.filled_fields (mark_all t calls) !! key
    = match last (calls_on key calls) with
      | Some c => Some (value_of_call c)
      | None => FormFieldTracker.filled_fields t !! key
      end.
Proof.
  intros t calls key.
  induction calls as [|c calls IH] using rev_ind; [done|].
  rewrite mark_all_snoc, calls_on_snoc, key_of_call_eq.
  unfold FormFieldTracker.mark_filled; simpl.
  destruct (String.eqb_spec
              (FormFieldTracker.create_field_key c.1.1.1 c.1.1.2 c.2) key)
    as [->|Hne].
  - by rewrite lookup_insert_eq, last_snoc, value_of_call_eq.
  - rewrite lookup_insert_ne by done. by rewrite app_nil_r.
Qed.

(** X4.  Every tracker reached from a new one by [mark_filled] and [reset]
    is consistent: a key is filled exactly when it has an attempt count,
    which is then at least 1; the bucket of every filled field is in
    [filled_positions]; and every bucket in [filled_positions] is the bucket
    of a filled field. *)
Theorem reachable_tracker_consistent :
  forall cs : list TrackerCall,
    tracker_consistent (apply_calls FormFieldTracker.init cs).
Proof.
  intros cs. unfold apply_calls.
  assert (forall t, tracker_consistent t ->
                    tracker_consistent (fold_left apply_call cs t)) as H.
  { induction cs as [|c cs IH]; intros t Ht; [done|].
    simpl. apply IH. by apply consistent_apply_call. }
  apply H, consistent_init.
Qed.

(** ** Resolvers: a page on which nothing matches *)

Section NothingMatches.
Import UniversalUIAgent.
Variable p : Page.
Hypothesis Hnone : nothing_matches p.

Lemma click_attempt_none target i strategy s :
  click_attempt p target i strategy s = (s, Ok None).
Proof.
  unfold click_attempt, try_except, bind, lift, ret.
  by destruct (Hnone strategy) as [->|[e ->]].
Qed.

Lemma click_loop_none target strategies : forall i s,
  click_loop p target i strategies s = (s, Ok None).
Proof.
  induction strategies as [|strategy rest IH]; intros i s; [done|].
  cbn [click_loop]. unfold bind at 1. rewrite click_attempt_none. apply IH.
Qed.

Lemma last_resort_none target s : last_resort p target s = (s, Ok None).
Proof.
  unfold last_resort. destruct (multi_word_final target); [|done].
  destruct (_ =? _)%nat; [|done].
  unfold try_except, bind, lift, ret.
  by destruct (Hnone "button, [role='button']") as [->|[e ->]].
Qed.

Lemma find_field_none target_y strategies : forall i b,
  find_field p target_y i strategies b = b.
Proof.
  induction strategies as [|selector rest IH]; intros i b; [done|].
  cbn [find_field]. by destruct (Hnone selector) as [->|[e ->]]; simpl.
Qed.

Lemma find_contenteditable_none target_y n strategies : forall i b,
  find_contenteditable p target_y n i strategies b = b.
Proof.
  induction strategies as [|selector rest IH]; intros i b; [done|].
  cbn [find_contenteditable].
  by destruct (Hnone selector) as [->|[e ->]]; simpl.
Qed.

End NothingMatches.

(** X5.  On a page where no selector matches anything, each of the three
    resolvers reports failure with its own message, performs no driver
    action and leaves the agent's state as it was. *)
Theorem resolvers_fail_when_nothing_matches :
  forall (p : Page) (target value selector_type : string) (target_y : Z)
         (s : AgentState),
    nothing_matches p ->
    UniversalUIAgent._smart_click p target selector_type s
    = (s, Ok (false, "Could not click: " +:+ target)) /\
    UniversalUIAgent._smart_type p target value selector_type target_y s
    = (s, Ok (false, "Could not find field: " +:+ target)) /\
    UniversalUIAgent._type_contenteditable p target value target_y s
    = (s, Ok (false, "Could not type into contenteditable: " +:+ target)).
Proof.
  intros p target value selector_type target_y s Hnone. split; [|split].
  - unfold UniversalUIAgent._smart_click, bind at 1.
    rewrite click_loop_none by done.
    unfold bind. by rewrite last_resort_none.
  - unfold UniversalUIAgent._smart_type. by rewrite find_field_none.
  - unfold UniversalUIAgent._type_contenteditable.
    by rewrite find_contenteditable_none.
Qed.

Lemma resolvers_fail_when_nothing_matches_witness :
  nothing_matches blank_page /\
  UniversalUIAgent._smart_click blank_page "Create repository" "text"
    fresh_agent
  = (fresh_agent, Ok (false, "Could not click: Create repository")) /\
  UniversalUIAgent._smart_type blank_page "Create repository" "demo" "text" 120
    fresh_agent
  = (fresh_agent, Ok (false, "Could not find field: Create repository")) /\
  UniversalUIAgent._type_contenteditable blank_page "Create repository" "demo"
    120 fresh_agent
  = (fresh_agent,
     Ok (false, "Could not type into contenteditable: Create repository")).
Proof.
  assert (nothing_matches blank_page) as H by (intros sel; by left).
  split; [exact H|].
  exact (resolvers_fail_when_nothing_matches blank_page "Create repository"
           "demo" "text" 120 fresh_agent H).
Defined.

(** ** Resolvers: exceptions stay inside *)

Section NeverRaises.
Import UniversalUIAgent.

Lemma nr_ret {A} (a : A) : never_raises (ret a).
Proof. intros s. by exists a. Qed.

Lemma nr_bind {A B} (m : M A) (k : A -> M B) :
  never_raises m -> (forall a, never_raises (k a)) -> never_raises (bind m k).
Proof.
  intros Hm Hk s. unfold bind.
  destruct (Hm s) as [a Ha]. destruct (m s) as [s' o]. simpl in Ha. subst o.
  apply Hk.
Qed.

Lemma nr_try {A} (body : M A) (h : string -> M A) :
  (forall e, never_raises (h e)) -> never_raises (try_except body h).
Proof.
  intros Hh s. unfold try_except.
  destruct (body s) as [s' [a|e]]; [by exists a|apply Hh].
Qed.

Lemma click_loop_never_raises p target strategies : forall i,
  never_raises (click_loop p target i strategies).
Proof.
  induction strategies as [|strategy rest IH]; intros i; [apply nr_ret|].
  cbn [click_loop]. apply nr_bind.
  - apply nr_try. intros _. apply nr_ret.
  - intros [res|]; [apply nr_ret|apply IH].
Qed.

Lemma last_resort_never_raises p target : never_raises (last_resort p target).
Proof.
  unfold last_resort. destruct (multi_word_final target); [|apply nr_ret].
  destruct (_ =? _)%nat; [|apply nr_ret].
  apply nr_try. intros _. apply nr_ret.
Qed.

Lemma smart_click_never_raises p target selector_type :
  never_raises (_smart_click p target selector_type).
Proof.
  unfold _smart_click. apply nr_bind; [apply click_loop_never_raises|].
  intros [res|]; [apply nr_ret|].
  apply nr_bind; [apply last_resort_never_raises|].
  intros [res|]; apply nr_ret.
Qed.

Lemma smart_type_never_raises p target value selector_type target_y :
  never_raises (_smart_type p target value selector_type target_y).
Proof.
  unfold _smart_type. destruct (best_match _); [|apply nr_ret].
  unfold write_value. apply nr_try. intros msg. apply nr_ret.
Qed.

Lemma type_contenteditable_never_raises p target value target_y :
  never_raises (_type_contenteditable p target value target_y).
Proof.
  unfold _type_contenteditable. apply nr_bind.
  - destruct (best_match _); [|apply nr_ret].
    apply nr_try. intros _. apply nr_ret.
  - intros [res|]; apply nr_ret.
Qed.

End NeverRaises.

(** X6.  None of the three resolvers lets an exception escape: whatever the
    page and whichever driver calls fail, each returns a pair of a success
    flag and a message. *)
Theorem resolvers_never_raise :
  forall (p : Page) (target value selector_type : string) (target_y : Z),
    never_raises (UniversalUIAgent._smart_click p target selector_type) /\
    never_raises
      (UniversalUIAgent._smart_type p target value selector_type target_y) /\
    never_raises
      (UniversalUIAgent._type_contenteditable p target value target_y).
Proof.
  intros. split; [|split].
  - apply smart_click_never_raises.
  - apply smart_type_never_raises.
  - apply type_contenteditable_never_raises.
Qed.
(** ** Reasoning about traces *)

Section TraceRules.
Context {A B : Type}.

Lemma traces_ret (R : list Event -> outcome A -> Prop) (a : A) :
  R [] (Ok a) -> traces R (ret a).
Proof. intros H [t tr]. exists []. by rewrite app_nil_r. Qed.

Lemma traces_lift (R : list Event -> outcome A -> Prop) (o : outcome A) :
  R [] o -> traces R (lift o).
Proof. intros H [t tr]. exists []. by rewrite app_nil_r. Qed.

Lemma traces_weaken (R R' : list Event -> outcome A -> Prop) (m : M A) :
  traces R m -> (forall evs o, R evs o -> R' evs o) -> traces R' m.
Proof. intros Hm HR s. destruct (Hm s) as (evs & ? & ?). eauto. Qed.

Lemma traces_bind (R : list Event -> outcome B -> Prop) (m : M A)
    (k : A -> M B) :
  traces
    (fun evs1 o1 =>
       match o1 with
       | Ok a => traces (fun evs2 o => R (evs1 ++ evs2) o) (k a)
       | Raise e => R evs1 (Raise e)
       end) m ->
  traces R (bind m k).
Proof.
  intros Hm s. unfold bind. destruct (Hm s) as (evs1 & Hs & Hk).
  destruct (m s) as [s1 [a|e]]; simpl in *; subst s1.
  - destruct (Hk {| field_tracker := field_tracker s;
                    trace := trace s ++ evs1 |}) as (evs2 & Hs2 & HR).
    exists (evs1 ++ evs2). simpl in Hs2. by rewrite app_assoc, <- Hs2.
  - by exists evs1.
Qed.

End TraceRules.

Lemma traces_try {A} (R : list Event -> outcome A -> Prop) (body : M A)
    (h : string -> M A) :
  traces
    (fun evs1 o1 =>
       match o1 with
       | Ok a => R evs1 (Ok a)
       | Raise e => traces (fun evs2 o => R (evs1 ++ evs2) o) (h e)
       end) body ->
  traces R (try_except body h).
Proof.
  intros Hm s. unfold try_except. destruct (Hm s) as (evs1 & Hs & Hk).
  destruct (body s) as [s1 [a|e]]; simpl in *; subst s1.
  - by exists evs1.
  - destruct (Hk {| field_tracker := field_tracker s;
                    trace := trace s ++ evs1 |}) as (evs2 & Hs2 & HR).
    exists (evs1 ++ evs2). simpl in Hs2. by rewrite app_assoc, <- Hs2.
Qed.

Lemma traces_emit (R : list Event -> outcome unit -> Prop) (ev : Event) :
  R [ev] (Ok tt) -> traces R (emit ev).
Proof. intros H [t tr]. by exists [ev]. Qed.

(** A driver call that acts on the page: the action is issued, then the
    call returns or raises. *)
Lemma traces_action (R : list Event -> outcome unit -> Prop) (ev : Event)
    (f : option string) :
  R [ev] (faulty f tt) -> traces R (emit ev >> lift (faulty f tt)).
Proof.
  intros H. apply traces_bind, traces_emit, traces_lift.
  by rewrite app_nil_r.
Qed.

(** What a computation leaves behind, read off [traces]. *)
Lemma traces_run {A} (R : list Event -> outcome A -> Prop) (m : M A) s s' o :
  traces R m -> m s = (s', o) ->
  exists evs,
    s' = {| field_tracker := field_tracker s; trace := trace s ++ evs |} /\
    R evs o.
Proof. intros Hm Hrun. destruct (Hm s) as (evs & ? & ?). rewrite Hrun in *. eauto. Qed.

(** Symbolic execution of a monadic computation against a postcondition. *)
Ltac wp_step :=
  lazymatch goal with
  | |- traces _ (bind _ _) => apply traces_bind
  | |- traces _ (try_except _ _) => apply traces_try
  | |- traces _ (ret _) => apply traces_ret
  | |- traces _ (lift _) => apply traces_lift
  | |- traces _ (Driver.wait_for_timeout _ _) =>
      unfold Driver.wait_for_timeout
  | |- traces _ (Driver.is_visible _) => unfold Driver.is_visible
  | |- traces _ (Driver.bounding_box _) => unfold Driver.bounding_box
  | |- traces _ (Driver.evaluate_disabled _) =>
      unfold Driver.evaluate_disabled
  | |- traces _ (Driver.text_content _) => unfold Driver.text_content
  | |- traces _ (Driver.scroll_into_view_if_needed _) =>
      apply traces_action
  | |- traces _ (Driver.click _ _) => apply traces_action
  | |- traces _ (Driver.fill _ _) => apply traces_action
  | |- traces _ (Driver.press_sequentially _ _) => apply traces_action
  | |- traces _ (Driver.keyboard_press _ _) => apply traces_action
  | |- traces _ (Driver.keyboard_type _ _) => apply traces_action
  | |- traces _ (if ?b then _ else _) => destruct b eqn:?
  | |- traces _ (match ?x with _ => _ end) => destruct x eqn:?
  | |- match faulty ?f _ with _ => _ end =>
      destruct f eqn:?; cbn [faulty]
  | |- match ?o with Ok _ => _ | Raise _ => _ end => destruct o eqn:?
  end; cbn beta iota.

Ltac wp := repeat wp_step.

(** ** Click resolution: which clicks the driver accepted *)

Ltac no_clicks :=
  repeat constructor; cbn [click_went_through]; first [congruence | tauto].

Section ClickOutcome.
Import UniversalUIAgent.
Variable p : Page.
Hypothesis Hwait : reliable_waits p.

Lemma attempt_outcome_app evs1 evs2 o :
  Forall (fun ev => ~ click_went_through ev) evs1 ->
  attempt_outcome evs2 o -> attempt_outcome (evs1 ++ evs2) o.
Proof.
  intros H1. destruct o as [[[ok m]|]|e]; simpl; [|by apply Forall_app_2|done].
  intros [-> (before & e & -> & ? & ? & ? & ?)]. split; [done|].
  exists (evs1 ++ before), e. rewrite app_assoc.
  repeat split; try done. by apply Forall_app_2.
Qed.

Lemma click_attempt_outcome target i strategy :
  traces attempt_outcome (click_attempt p target i strategy).
Proof.
  unfold click_attempt. wp; cbn [app attempt_outcome click_outcome];
    try (rewrite Hwait in *; discriminate).
  all: try no_clicks.
  all: split; [done|].
  all: first [ by exists [], e
             | exists [EvScroll e], e; repeat split; try done; no_clicks ].
Qed.

Lemma click_loop_outcome target strategies : forall i,
  traces attempt_outcome (click_loop p target i strategies).
Proof.
  induction strategies as [|strategy rest IH]; intros i; cbn [click_loop].
  - apply traces_ret. constructor.
  - apply traces_bind.
    apply (traces_weaken _ _ _ (click_attempt_outcome target i strategy)).
    intros evs [[[ok m]|]|e] Ho; try done.
    + apply traces_ret. by rewrite app_nil_r.
    + apply (traces_weaken _ _ _ (IH (S i))).
      intros evs2 o. by apply attempt_outcome_app.
Qed.

Lemma last_resort_attempt_outcome words btn :
  traces attempt_outcome (last_resort_attempt p words btn).
Proof.
  unfold last_resort_attempt. wp; cbn [app attempt_outcome click_outcome];
    try (rewrite Hwait in *; discriminate).
  all: try no_clicks.
  split; [done|]. exists [EvScroll btn], btn.
  repeat split; try done; [|no_clicks].
  by destruct (el_disabled btn).
Qed.

Lemma last_resort_loop_outcome words all_buttons :
  traces attempt_outcome (last_resort_loop p words all_buttons).
Proof.
  induction all_buttons as [|btn rest IH]; cbn [last_resort_loop].
  - apply traces_ret. constructor.
  - apply traces_bind.
    apply (traces_weaken _ _ _ (last_resort_attempt_outcome words btn)).
    intros evs [[[ok m]|]|e] Ho; try done.
    + apply traces_ret. by rewrite app_nil_r.
    + apply (traces_weaken _ _ _ IH).
      intros evs2 o. by apply attempt_outcome_app.
Qed.

Lemma last_resort_outcome target :
  traces attempt_outcome (last_resort p target).
Proof.
  unfold last_resort.
  destruct (multi_word_final target); [|apply traces_ret; constructor].
  destruct (_ =? _)%nat; [|apply traces_ret; constructor].
  apply traces_try, traces_bind.
  destruct (locate p "button, [role='button']") as [all_buttons|e].
  - apply traces_lift.
    apply (traces_weaken _ _ _ (last_resort_loop_outcome _ all_buttons)).
    by intros evs [[[ok m]|]|e] Ho.
  - apply traces_lift, traces_ret. constructor.
Qed.

Lemma smart_click_outcome target selector_type :
  traces
    (fun evs o =>
       match o with
       | Ok (ok, msg) =>
           click_outcome evs ok /\
           (ok = false -> msg = "Could not click: " +:+ target)
       | Raise _ => False
       end)
    (_smart_click p target selector_type).
Proof.
  unfold _smart_click. apply traces_bind.
  apply (traces_weaken _ _ _ (click_loop_outcome target _ 1)).
  intros evs [[[ok m]|]|e] Ho; try done.
  { apply traces_ret. rewrite app_nil_r. destruct Ho as [-> Ho]. done. }
  apply traces_bind.
  apply (traces_weaken _ _ _ (last_resort_outcome target)).
  intros evs2 [[[ok m]|]|e] Ho2; try done.
  - apply traces_ret. rewrite app_nil_r.
    apply (attempt_outcome_app evs) in Ho2; [|done].
    destruct Ho2 as [-> Ho2]. done.
  - apply traces_ret. rewrite app_nil_r. split; [|done].
    by apply Forall_app_2.
Qed.

End ClickOutcome.

(** X7.  When the page's waits do not fail, the success flag of
    [_smart_click] says what happened on the page.  On success the last
    driver action is an ordinary (not forced) click that the driver
    accepted, on an element reported visible and not disabled, and no
    earlier click was accepted.  On failure no click was accepted, and the
    message is [Could not click: <target>]. *)
Theorem smart_click_accepts_one_click :
  forall (p : Page) (target selector_type : string) (s s' : AgentState)
         (ok : bool) (msg : string),
    reliable_waits p ->
    UniversalUIAgent._smart_click p target selector_type s
    = (s', Ok (ok, msg)) ->
    exists evs,
      s' = {| field_tracker := field_tracker s; trace := trace s ++ evs |} /\
      click_outcome evs ok /\
      (ok = false -> msg = "Could not click: " +:+ target).
Proof.
  intros p target selector_type s s' ok msg Hwait Hrun.
  destruct (traces_run _ _ _ _ _
              (smart_click_outcome p Hwait target selector_type) Hrun)
    as (evs & -> & Hout & Hmsg).
  by exists evs.
Qed.

Lemma smart_click_accepts_one_click_witness :
  reliable_waits create_form /\
  UniversalUIAgent._smart_click create_form "Create repository" "text"
    fresh_agent
  = ({| field_tracker := FormFieldTracker.init;
        trace := [EvScroll create_button; EvClick create_button false] |},
     Ok (true, "Clicked using strategy 1")) /\
  exists evs,
    {| field_tracker := FormFieldTracker.init;
       trace := [EvScroll create_button; EvClick create_button false] |}
    = {| field_tracker := field_tracker fresh_agent;
         trace := trace fresh_agent ++ evs |} /\
    click_outcome evs true /\
    (true = false -> "Clicked using strategy 1"
                     = "Could not click: " +:+ "Create repository").
Proof.
  assert (reliable_waits create_form) as Hw by (intros ms; reflexivity).
  split; [exact Hw|]. split; [vm_compute; reflexivity|].
  apply (smart_click_accepts_one_click create_form "Create repository" "text"
           fresh_agent _ true "Clicked using strategy 1" Hw).
  vm_compute. reflexivity.
Defined.

(** Without reliable waits the flag can be wrong: the click on the button
    is accepted, the wait after it fails, and the resolver goes on to
    report failure. *)
Example accepted_click_reported_as_failure :
  UniversalUIAgent._smart_click stalling_form "Create repository" "text"
    fresh_agent
  = ({| field_tracker := FormFieldTracker.init;
        trace := [EvScroll create_button; EvClick create_button false] |},
     Ok (false, "Could not click: Create repository")).
Proof. vm_compute. reflexivity. Qed.
(** ** Text entry *)

Ltac solve_suffix :=
  first [ by exists [] | by eexists [_] | by eexists [_; _]
        | by eexists [_; _; _] | by eexists [_; _; _; _]
        | by eexists [_; _; _; _; _] | by eexists [_; _; _; _; _; _]
        | by eexists [_; _; _; _; _; _; _] ].

Section TypeFacts.
Import UniversalUIAgent.

Lemma write_value_outcome p best value i :
  traces (typed_outcome p best value) (write_value p best value i).
Proof.
  unfold write_value. wp; cbn [app negb typed_outcome]; try congruence.
  all: split; [repeat constructor|].
  all: try (by left).
  all: try (right; by eexists).
  all: unfold value_entered.
  all: first [ left; split; [solve_suffix|done]
             | right; left; split; [solve_suffix|done]
             | right; right; split; [solve_suffix|done] ].
Qed.

Lemma max_distance_le i : max_distance i <= 150.
Proof. unfold max_distance. destruct (_ <? _)%nat; lia. Qed.

Lemma picked_init Q : picked Q search_init.
Proof. by intros e. Qed.

Section Selection.
Variable p : Page.
Variable sels : list string.
Variable ty : Z.
Variables (selector : string) (matches : list Element).
Hypothesis Hsel : In selector sels.
Hypothesis Hloc : locate p selector = Ok matches.

Lemma scan_near_choice i elems : forall b,
  0 < ty ->
  (forall e, In e elems -> In e (firstn 5 matches)) ->
  picked (choice p sels ty 150) b ->
  picked (choice p sels ty 150) (scan_near ty i elems b).
Proof.
  intros b Hty. revert b.
  induction elems as [|elem rest IH]; intros b Hin Hb; [done|].
  assert (forall e, In e rest -> In e (firstn 5 matches)) as Hrest
    by (intros e He; apply Hin; by right).
  cbn [scan_near].
  destruct (visible_q elem) as [[|]|msg] eqn:Hv; try by apply IH.
  destruct (bbox_q elem) as [[y|]|msg] eqn:Hbx; try by apply IH.
  cbv zeta. destruct (_ && _) eqn:Hc.
  - apply andb_prop in Hc as [Hd _]. apply Z.ltb_lt in Hd.
    pose proof (max_distance_le i) as Hmax.
    assert (choice p sels ty 150 elem) as Hchoice.
    { split; [done|]. split.
      - exists selector, matches. split; [done|]. split; [done|].
        apply Z.ltb_lt in Hty. rewrite Hty. apply Hin. by left.
      - intros _. exists y. split; [done|]. lia. }
    destruct (_ <? 20).
    + intros e [= <-]. done.
    + apply IH; [done|]. intros e [= <-]. done.
  - apply IH; [done|]. intros e He. by apply Hb.
Qed.

Lemma scan_near_ce_choice i elems : forall b,
  0 < ty ->
  (forall e, In e elems -> In e (firstn 5 matches)) ->
  picked (choice p sels ty 100) b ->
  picked (choice p sels ty 100) (scan_near_ce ty i elems b).
Proof.
  intros b Hty. revert b.
  induction elems as [|elem rest IH]; intros b Hin Hb; [done|].
  assert (forall e, In e rest -> In e (firstn 5 matches)) as Hrest
    by (intros e He; apply Hin; by right).
  cbn [scan_near_ce].
  destruct (visible_q elem) as [[|]|msg] eqn:Hv; try by apply IH.
  destruct (bbox_q elem) as [[y|]|msg] eqn:Hbx; try by apply IH.
  cbv zeta. destruct (_ && _) eqn:Hc.
  - apply andb_prop in Hc as [Hd _]. apply Z.ltb_lt in Hd.
    assert (choice p sels ty 100 elem) as Hchoice.
    { split; [done|]. split.
      - exists selector, matches. split; [done|]. split; [done|].
        apply Z.ltb_lt in Hty. rewrite Hty. apply Hin. by left.
      - intros _. exists y. split; [done|]. lia. }
    destruct (_ <? 15).
    + intros e [= <-]. done.
    + apply IH; [done|]. intros e [= <-]. done.
  - apply IH; [done|]. intros e He. by apply Hb.
Qed.

Lemma first_visible_choice bound i elems : forall b,
  ty <= 0 ->
  (forall e, In e elems -> In e (firstn 2 matches)) ->
  picked (choice p sels ty bound) b ->
  picked (choice p sels ty bound) (first_visible i elems b).
Proof.
  intros b Hty. revert b.
  induction elems as [|elem rest IH]; intros b Hin Hb; [done|].
  assert (forall e, In e rest -> In e (firstn 2 matches)) as Hrest
    by (intros e He; apply Hin; by right).
  cbn [first_visible].
  destruct (visible_q elem) as [[|]|msg] eqn:Hv; try by apply IH.
  intros e [= <-]. split; [done|]. split; [|lia].
  exists selector, matches. split; [done|]. split; [done|].
  apply Z.ltb_ge in Hty. rewrite Hty. apply Hin. by left.
Qed.

End Selection.

Lemma find_field_choice p sels ty strategies : forall i b,
  (forall x, In x strategies -> In x sels) ->
  picked (choice p sels ty 150) b ->
  picked (choice p sels ty 150) (find_field p ty i strategies b).
Proof.
  induction strategies as [|selector rest IH]; intros i b Hin Hb; [done|].
  assert (forall x, In x rest -> In x sels) as Hrest
    by (intros x Hx; apply Hin; by right).
  assert (In selector sels) as Hsel by (apply Hin; by left).
  cbn [find_field].
  destruct (locate p selector) as [matches|msg] eqn:Hloc; [|by apply IH].
  destruct (0 <? length matches)%nat; [|by apply IH].
  destruct (0 <? ty) eqn:Hty; cbv zeta.
  - apply Z.ltb_lt in Hty.
    assert (picked (choice p sels ty 150)
              (scan_near ty i (firstn 5 matches) b)) as Hb'
      by (by apply (scan_near_choice p sels ty selector matches)).
    destruct (_ && _); [done|by apply IH].
  - apply Z.ltb_ge in Hty.
    assert (picked (choice p sels ty 150)
              (first_visible i (firstn 2 matches) b)) as Hb'
      by (by apply (first_visible_choice p sels ty selector matches)).
    destruct (_ && _); [done|by apply IH].
Qed.

Lemma find_contenteditable_choice p sels ty n strategies : forall i b,
  (forall j x, strategies !! j = Some x ->
     (0 < ty -> In x sels) /\
     (ty <= 0 -> (i + j < n - 1)%nat -> In x sels)) ->
  picked (choice p sels ty 100) b ->
  picked (choice p sels ty 100) (find_contenteditable p ty n i strategies b).
Proof.
  induction strategies as [|selector rest IH]; intros i b Hin Hb; [done|].
  assert (forall j x, rest !! j = Some x ->
            (0 < ty -> In x sels) /\
            (ty <= 0 -> (S i + j < n - 1)%nat -> In x sels)) as Hrest.
  { intros j x Hj. destruct (Hin (S j) x Hj) as [H1 H2].
    split; [done|]. intros ? ?. apply H2; [done|lia]. }
  destruct (Hin 0%nat selector eq_refl) as [Hpos Hnopos].
  cbn [find_contenteditable].
  destruct (locate p selector) as [matches|msg] eqn:Hloc; [|by apply IH].
  destruct (0 <? length matches)%nat; [|by apply IH].
  destruct (0 <? ty) eqn:Hty; cbv zeta.
  - apply Z.ltb_lt in Hty.
    assert (picked (choice p sels ty 100)
              (scan_near_ce ty i (firstn 5 matches) b)) as Hb'
      by (apply (scan_near_ce_choice p sels ty selector matches); auto).
    destruct (_ && _); [done|by apply IH].
  - apply Z.ltb_ge in Hty.
    assert (picked (choice p sels ty 100)
              (if (i <? n - 1)%nat
               then first_visible i (firstn 2 matches) b else b)) as Hb'.
    { destruct (i <? n - 1)%nat eqn:Hi; [|done].
      apply Nat.ltb_lt in Hi.
      apply (first_visible_choice p sels ty selector matches); auto.
      apply Hnopos; [done|lia]. }
    destruct (bool_decide _); [done|by apply IH].
Qed.

Lemma region_selectors_cover target ty j x :
  contenteditable_strategies target !! j = Some x ->
  (0 < ty -> In x (region_selectors target ty)) /\
  (ty <= 0 ->
   (1 + j < length (contenteditable_strategies target) - 1)%nat ->
   In x (region_selectors target ty)).
Proof.
  intros Hj. unfold region_selectors. split.
  - intros Hty. apply Z.ltb_lt in Hty. rewrite Hty.
    apply list_elem_of_In. by eapply list_elem_of_lookup_2.
  - intros Hty. apply Z.ltb_ge in Hty. rewrite Hty.
    revert Hj. unfold contenteditable_strategies, target_selectors.
    destruct (nonempty target); cbn [app length]; [|lia].
    intros Hj Hlt.
    destruct j as [|[|[|j]]]; [| | |lia]; injection Hj as <-.
    + by left.
    + right; by left.
    + right; right; by left.
Qed.

Lemma find_contenteditable_region p target ty :
  picked (choice p (region_selectors target ty) ty 100)
    (find_contenteditable p ty (length (contenteditable_strategies target)) 1
       (contenteditable_strategies target) search_init).
Proof.
  apply find_contenteditable_choice; [|apply picked_init].
  intros j x. apply region_selectors_cover.
Qed.

Lemma type_contenteditable_outcome p target value ty :
  traces
    (fun evs o =>
       match o with
       | Ok (ok, msg) => region_outcome p target value ty evs ok msg
       | Raise _ => False
       end)
    (_type_contenteditable p target value ty).
Proof.
  unfold _type_contenteditable. cbv zeta.
  pose proof (find_contenteditable_region p target ty) as Hpick.
  destruct (best_match _) as [best|] eqn:Hbest.
  - specialize (Hpick best Hbest).
    wp; cbn [app region_outcome].
    all: first
      [ exists best; split; [exact Hpick|]; by repeat split
      | split; [done|]; right; exists best; split; [exact Hpick|];
        first [by left | by right] ].
  - wp. cbn [app region_outcome]. split; [done|by left].
Qed.

End TypeFacts.

(** X8.  What [_smart_type] does with the page, by the answer it returns.
    If it finds no field it reports so and does nothing.  Otherwise it
    selects one element, which is reported visible, is among the first five
    matches (the first two when no position is given) of one of its
    selectors and, when a position is given, lies less than 150 pixels from
    it; every driver action that acts on an element acts on that one; and
    when it reports success the value was entered in one of three ways,
    with the driver calls that entered it accepted. *)
Theorem smart_type_enters_value :
  forall (p : Page) (target value selector_type : string) (target_y : Z)
         (s s' : AgentState) (ok : bool) (msg : string),
    UniversalUIAgent._smart_type p target value selector_type target_y s
    = (s', Ok (ok, msg)) ->
    (s' = s /\ ok = false /\ msg = "Could not find field: " +:+ target) \/
    exists best evs,
      choice p
        (UniversalUIAgent.type_strategies target selector_type target_y)
        target_y 150 best /\
      s' = {| field_tracker := field_tracker s; trace := trace s ++ evs |} /\
      typed_outcome p best value evs (Ok (ok, msg)).
Proof.
  intros p target value selector_type target_y s s' ok msg.
  unfold UniversalUIAgent._smart_type.
  pose proof (find_field_choice p
                (UniversalUIAgent.type_strategies target selector_type target_y)
                target_y
                (UniversalUIAgent.type_strategies target selector_type target_y)
                1 UniversalUIAgent.search_init (fun x H => H)
                (picked_init _)) as Hpick.
  destruct (UniversalUIAgent.best_match _) as [best|] eqn:Hbest.
  - intros Hrun. right.
    destruct (traces_run _ _ _ _ _ (write_value_outcome p best value _) Hrun)
      as (evs & -> & Hout).
    exists best, evs. split; [|done]. by apply Hpick.
  - intros [= <- <- <-]. by left.
Qed.

Lemma smart_type_enters_value_witness :
  UniversalUIAgent._smart_type far_fields "title" "Roadmap Q1" "name" 510
    fresh_agent
  = ({| field_tracker := FormFieldTracker.init;
        trace := [EvClick (field_at "lower" 500) true;
                  EvFill (field_at "lower" 500) "";
                  EvFill (field_at "lower" 500) "Roadmap Q1"] |},
     Ok (true, "Typed using strategy 1")) /\
  (({| field_tracker := FormFieldTracker.init;
       trace := [EvClick (field_at "lower" 500) true;
                 EvFill (field_at "lower" 500) "";
                 EvFill (field_at "lower" 500) "Roadmap Q1"] |} = fresh_agent /\
    true = false /\
    "Typed using strategy 1" = "Could not find field: " +:+ "title") \/
   exists best evs,
     choice far_fields
       (UniversalUIAgent.type_strategies "title" "name" 510) 510 150 best /\
     {| field_tracker := FormFieldTracker.init;
        trace := [EvClick (field_at "lower" 500) true;
                  EvFill (field_at "lower" 500) "";
                  EvFill (field_at "lower" 500) "Roadmap Q1"] |}
     = {| field_tracker := field_tracker fresh_agent;
          trace := trace fresh_agent ++ evs |} /\
     typed_outcome far_fields best "Roadmap Q1" evs
       (Ok (true, "Typed using strategy 1"))).
Proof.
  split; [vm_compute; reflexivity|].
  apply (smart_type_enters_value far_fields "title" "Roadmap Q1" "name" 510
           fresh_agent).
  vm_compute. reflexivity.
Defined.

(** X9.  What [_type_contenteditable] does with the page, by the answer it
    returns.  On success it clicked one region and typed the value, and the
    driver accepted both; the region is reported visible, and it is either
    less than 100 pixels from the given position or, when no position is
    given, among the first two matches of a selector that mentions the
    target.  On failure the message is
    [Could not type into contenteditable: <target>] and the page saw
    nothing, or the click alone, or the click and the keystrokes. *)
Theorem type_contenteditable_enters_value :
  forall (p : Page) (target value : string) (target_y : Z)
         (s s' : AgentState) (ok : bool) (msg : string),
    UniversalUIAgent._type_contenteditable p target value target_y s
    = (s', Ok (ok, msg)) ->
    exists evs,
      s' = {| field_tracker := field_tracker s; trace := trace s ++ evs |} /\
      region_outcome p target value target_y evs ok msg.
Proof.
  intros p target value target_y s s' ok msg Hrun.
  exact (traces_run _ _ _ _ _
           (type_contenteditable_outcome p target value target_y) Hrun).
Qed.

Lemma type_contenteditable_enters_value_witness :
  UniversalUIAgent._type_contenteditable editor_page "" "Fix the login page"
    300 fresh_agent
  = ({| field_tracker := FormFieldTracker.init;
        trace := [EvClick (field_at "editor" 320) false;
                  EvKeyType "Fix the login page"] |},
     Ok (true, "Typed into contenteditable using strategy 2")) /\
  exists evs,
    {| field_tracker := FormFieldTracker.init;
       trace := [EvClick (field_at "editor" 320) false;
                 EvKeyType "Fix the login page"] |}
    = {| field_tracker := field_tracker fresh_agent;
         trace := trace fresh_agent ++ evs |} /\
    region_outcome editor_page "" "Fix the login page" 300 evs true
      "Typed into contenteditable using strategy 2".
Proof.
  split; [vm_compute; reflexivity|].
  apply (type_contenteditable_enters_value editor_page "" "Fix the login page"
           300 fresh_agent).
  vm_compute. reflexivity.
Defined.

(** X10.  With no position and an empty target, [_type_contenteditable]
    never types: whatever the page offers, it reports failure and performs
    no driver action.  (Without a position the two selectors that do not
    mention the target are not used.) *)
Theorem type_contenteditable_needs_target_or_position :
  forall (p : Page) (value : string) (target_y : Z) (s : AgentState),
    target_y <= 0 ->
    UniversalUIAgent._type_contenteditable p "" value target_y s
    = (s, Ok (false, "Could not type into contenteditable: ")).
Proof.
  intros p value target_y s Hty.
  pose proof (find_contenteditable_region p "" target_y) as Hpick.
  unfold UniversalUIAgent._type_contenteditable. cbv zeta.
  destruct (UniversalUIAgent.best_match _) as [best|] eqn:Hbest; [|done].
  destruct (Hpick best Hbest) as (_ & (sel & ms & Hin & _) & _).
  unfold region_selectors in Hin. apply Z.ltb_ge in Hty.
  rewrite Hty in Hin. destruct Hin.
Qed.

Lemma type_contenteditable_needs_target_or_position_witness :
  0 <= 0 /\
  UniversalUIAgent._type_contenteditable editor_page "" "Fix the login page" 0
    fresh_agent
  = (fresh_agent, Ok (false, "Could not type into contenteditable: ")).
Proof.
  split; [lia|].
  apply (type_contenteditable_needs_target_or_position editor_page
           "Fix the login page" 0 fresh_agent).
  lia.
Defined.

(** ** Action executor: effects on the field tracker *)

Section ExecutorTracker.
Import FormFieldTracker UniversalUIAgent Driver.

Lemma is_filled_same_key t f p y y' :
  y / 100 = y' / 100 -> is_filled t f p y = is_filled t f p y'.
Proof.
  intros Hy. unfold is_filled.
  by rewrite (proj2 (create_field_key_eq f p y y') Hy).
Qed.

Lemma get_attempts_same_key t f p y y' :
  y / 100 = y' / 100 -> get_attempts t f p y = get_attempts t f p y'.
Proof.
  intros Hy. unfold get_attempts.
  by rewrite (proj2 (create_field_key_eq f p y y') Hy).
Qed.

(** A typing plan on a field that is filled, or was attempted twice, is
    skipped before any resolver is called. *)
Lemma typing_skipped rs p plan s :
  typing plan ->
  is_filled (field_tracker s) (plan_field plan).1.1 (plan_field plan).1.2
    (plan_field plan).2 = true \/
  2 <= get_attempts (field_tracker s) (plan_field plan).1.1
         (plan_field plan).1.2 (plan_field plan).2 ->
  exists msg,
    execute_action rs p plan s = (s, Ok (true, msg)) /\
    (msg = "Skipped (already filled)" \/ msg = "Skipped (too many attempts)").
Proof.
  intros Htyping Hskip. unfold execute_action, try_except, execute_action_body.
  unfold plan_field in Hskip. cbn [fst snd] in Hskip.
  destruct Htyping as [-> | ->]; cbn [String.eqb Ascii.eqb Bool.eqb orb];
    unfold bind at 1, get_tracker at 1.
  all: destruct (is_filled _ _ _ _) eqn:Hf;
    [eexists; split; [reflexivity|by left]|].
  all: destruct Hskip as [|Hatt]; [done|].
  all: apply Z.leb_le in Hatt; rewrite Hatt.
  all: eexists; split; [reflexivity|by right].
Qed.

(** A typing plan that reports success leaves the field filled, or was
    skipped for too many attempts. *)
Lemma typing_success_tracker rs p plan s s' msg :
  resolvers_quiet rs -> typing plan ->
  execute_action rs p plan s = (s', Ok (true, msg)) ->
  is_filled (field_tracker s') (plan_field plan).1.1 (plan_field plan).1.2
    (plan_field plan).2 = true \/
  2 <= get_attempts (field_tracker s') (plan_field plan).1.1
         (plan_field plan).1.2 (plan_field plan).2.
Proof.
  intros (Hc & Ht & Hce) Htyping.
  unfold execute_action, try_except, execute_action_body, plan_field.
  cbn [fst snd].
  destruct Htyping as [-> | ->]; cbn [String.eqb Ascii.eqb Bool.eqb orb];
    unfold bind at 1, get_tracker at 1.
  - destruct (is_filled _ _ _ _) eqn:Hf; [intros [= <- _]; by left|].
    destruct (2 <=? _) eqn:Hatt;
      [intros [= <- _]; right; by apply Z.leb_le|].
    unfold bind at 1.
    match goal with |- context [smart_type rs ?t ?v ?k ?y s] =>
      pose proof (quiet_tracker (smart_type rs t v k y) s (Ht t v k y)) as Hq;
      destruct (smart_type rs t v k y s) as [s1 [[success m]|e]] end;
      simpl in Hq; [|done].
    destruct success; cbv [bind tracker_mark_filled get_tracker set_tracker ret];
      simpl; [|done].
    intros [= <- _]. left. simpl. apply is_filled_mark_filled.
  - destruct (is_filled _ _ _ _) eqn:Hf; [intros [= <- _]; by left|].
    destruct (2 <=? _) eqn:Hatt;
      [intros [= <- _]; right; by apply Z.leb_le|].
    unfold bind at 1.
    match goal with |- context [type_contenteditable rs ?t ?v ?y s] =>
      pose proof (quiet_tracker (type_contenteditable rs t v y) s (Hce t v y))
        as Hq;
      destruct (type_contenteditable rs t v y s) as [s1 [[success m]|e]] end;
      simpl in Hq; [|done].
    destruct success;
      cbv [bind tracker_mark_filled tracker_set_content_created get_tracker
           set_tracker ret]; simpl; [|done].
    destruct (_ || _); intros [= <- _]; left; simpl;
      apply is_filled_mark_filled.
Qed.

End ExecutorTracker.

Section ExecutorSkip.
Import FormFieldTracker UniversalUIAgent Driver.

Lemma skipped_mark_filled t f p y f' p' v' y' :
  skipped t f p y -> skipped (mark_filled t f' p' v' y') f p y.
Proof.
  intros [Hf|Ha]; [left; by apply is_filled_mark_filled_mono|].
  unfold skipped, is_filled, get_attempts, mark_filled in *; simpl.
  destruct (decide (create_field_key f' p' y' = create_field_key f p y))
    as [->|Hne].
  - left. apply bool_decide_eq_true. rewrite lookup_insert_eq. by eexists.
  - right. by rewrite lookup_insert_ne.
Qed.

(** Unless the plan is a click on a creation target, an executed action
    leaves a skipped entry skipped. *)
Lemma skipped_after_action rs p plan s f pu y :
  resolvers_quiet rs -> ~ may_reset plan ->
  skipped (field_tracker s) f pu y ->
  skipped (field_tracker (execute_action rs p plan s).1) f pu y.
Proof.
  intros (Hc & Ht & Hce) Hno Hskip. rewrite execute_action_state.
  unfold execute_action_body.
  destruct (String.eqb (action plan) "complete"); [done|].
  destruct (String.eqb (action plan) "press_key").
  { rewrite quiet_tracker; [done|]. unfold keyboard_press. quiet. }
  destruct (String.eqb (action plan) "click"
            || String.eqb (action plan) "navigate") eqn:Hclick.
  { unfold bind at 1.
    match goal with |- context [smart_click rs ?t ?k s] =>
      pose proof (quiet_tracker (smart_click rs t k) s (Hc t k)) as Hq;
      destruct (smart_click rs t k s) as [s1 [[success msg]|e]] end;
      simpl in *; [|by rewrite Hq].
    destruct (success && _) eqn:Hreset; simpl; [|by rewrite Hq].
    exfalso. apply Hno. split.
    - apply orb_prop in Hclick as [?%String.eqb_eq|?%String.eqb_eq];
        [by left|by right].
    - by apply andb_prop in Hreset as [_ ?]. }
  clear Hclick.
  destruct (String.eqb (action plan) "type_contenteditable").
  { unfold bind at 1, get_tracker at 1.
    destruct (is_filled _ _ _ _); [done|].
    destruct (2 <=? _); [done|].
    unfold bind at 1.
    match goal with |- context [type_contenteditable rs ?t ?v ?y s] =>
      pose proof (quiet_tracker (type_contenteditable rs t v y) s (Hce t v y))
        as Hq;
      destruct (type_contenteditable rs t v y s) as [s1 [[success msg]|e]] end;
      simpl in *; [|by rewrite Hq].
    destruct success; simpl; [|by rewrite Hq].
    cbv [bind tracker_mark_filled tracker_set_content_created get_tracker
         set_tracker ret]; simpl.
    destruct (_ || _); simpl; rewrite Hq; by apply skipped_mark_filled. }
  destruct (String.eqb (action plan) "type").
  { unfold bind at 1, get_tracker at 1.
    destruct (is_filled _ _ _ _); [done|].
    destruct (2 <=? _); [done|].
    unfold bind at 1.
    match goal with |- context [smart_type rs ?t ?v ?k ?y s] =>
      pose proof (quiet_tracker (smart_type rs t v k y) s (Ht t v k y)) as Hq;
      destruct (smart_type rs t v k y s) as [s1 [[success msg]|e]] end;
      simpl in *; [|by rewrite Hq].
    destruct success; simpl; [|by rewrite Hq].
    rewrite Hq. by apply skipped_mark_filled. }
  destruct (String.eqb (action plan) "wait"); [|done].
  rewrite quiet_tracker; [done|]. quiet.
Qed.

Lemma skipped_after_actions between f pu y : forall s,
  Forall (fun c => ~ may_reset c.2) between ->
  skipped (field_tracker s) f pu y ->
  skipped (field_tracker (run_actions between s)) f pu y.
Proof.
  induction between as [|[p plan] between IH]; intros s Hno Hskip; [done|].
  apply Forall_cons in Hno as [Hplan Hno]. simpl. apply IH; [done|].
  apply skipped_after_action; [apply resolvers_of_quiet|done..].
Qed.

End ExecutorSkip.

(** X11.  A field is typed once between two resets of the tracker.  After
    a [type] or [type_contenteditable] action reported success, and after
    any further actions none of which is a click on a creation target (the
    only action after which the executor resets the tracker), a typing
    action on the same tracker entry (same stripped target, same purpose,
    position in the same bucket), of either kind, on whatever page and
    with whatever value, is skipped: it reports success with a [Skipped]
    message, calls no resolver, performs no driver action and leaves the
    agent's state as it was. *)
Theorem typed_field_is_not_typed_again :
  forall (rs rs' : UniversalUIAgent.Resolvers) (p p' : Page)
         (plan plan' : UniversalUIAgent.ActionPlan) (s s' : AgentState)
         (msg : string)
         (between : list (Page * UniversalUIAgent.ActionPlan)),
    resolvers_quiet rs ->
    typing plan -> typing plan' -> same_field plan plan' ->
    UniversalUIAgent.execute_action rs p plan s = (s', Ok (true, msg)) ->
    Forall (fun c => ~ may_reset c.2) between ->
    exists msg',
      UniversalUIAgent.execute_action rs' p' plan' (run_actions between s')
      = (run_actions between s', Ok (true, msg')) /\
      (msg' = "Skipped (already filled)" \/
       msg' = "Skipped (too many attempts)").
Proof.
  intros rs rs' p p' plan plan' s s' msg between Hq Hplan Hplan'
    (Hf & Hp & Hy) Hrun Hno.
  apply typing_skipped; [done|].
  pose proof (typing_success_tracker rs p plan s s' msg Hq Hplan Hrun) as Hs.
  rewrite <- Hf, <- Hp.
  rewrite <- (is_filled_same_key _ _ _ _ _ Hy),
          <- (get_attempts_same_key _ _ _ _ _ Hy).
  by apply skipped_after_actions.
Qed.

Lemma typed_field_is_not_typed_again_witness :
  resolvers_quiet (UniversalUIAgent.resolvers_of far_fields) /\
  typing type_title_plan /\ typing type_title_again /\
  same_field type_title_plan type_title_again /\
  UniversalUIAgent.execute_action (UniversalUIAgent.resolvers_of far_fields)
    far_fields type_title_plan fresh_agent
  = ((UniversalUIAgent.execute_action
        (UniversalUIAgent.resolvers_of far_fields) far_fields type_title_plan
        fresh_agent).1,
     Ok (true, "Typed using strategy 1")) /\
  Forall (fun c => ~ may_reset c.2) wait_then_cancel /\
  exists msg',
    UniversalUIAgent.execute_action (UniversalUIAgent.resolvers_of editor_page)
      editor_page type_title_again
      (run_actions wait_then_cancel
         (UniversalUIAgent.execute_action
            (UniversalUIAgent.resolvers_of far_fields) far_fields
            type_title_plan fresh_agent).1)
    = (run_actions wait_then_cancel
         (UniversalUIAgent.execute_action
            (UniversalUIAgent.resolvers_of far_fields) far_fields
            type_title_plan fresh_agent).1,
       Ok (true, msg')) /\
    (msg' = "Skipped (already filled)" \/
     msg' = "Skipped (too many attempts)").
Proof.
  assert (typing type_title_plan) as H1 by (by left).
  assert (typing type_title_again) as H2 by (by right).
  assert (same_field type_title_plan type_title_again) as H3
    by (repeat split; vm_compute; reflexivity).
  assert (UniversalUIAgent.execute_action
            (UniversalUIAgent.resolvers_of far_fields) far_fields
            type_title_plan fresh_agent
          = ((UniversalUIAgent.execute_action
                (UniversalUIAgent.resolvers_of far_fields) far_fields
                type_title_plan fresh_agent).1,
             Ok (true, "Typed using strategy 1"))) as H4
    by (vm_compute; reflexivity).
  assert (Forall (fun c => ~ may_reset c.2) wait_then_cancel) as H5.
  { repeat constructor.
    - intros [[H|H] _]; discriminate H.
    - intros [_ H]. vm_compute in H. discriminate H. }
  split; [apply resolvers_of_quiet|].
  split; [exact H1|]. split; [exact H2|]. split; [exact H3|].
  split; [exact H4|]. split; [exact H5|].
  exact (typed_field_is_not_typed_again
           (UniversalUIAgent.resolvers_of far_fields)
           (UniversalUIAgent.resolvers_of editor_page) far_fields editor_page
           type_title_plan type_title_again fresh_agent _ _ wait_then_cancel
           (resolvers_of_quiet far_fields) H1 H2 H3 H4 H5).
Defined.

Section ExecutorFailure.
Import FormFieldTracker UniversalUIAgent Driver.

(** Unless its body returns success, [execute_action] leaves the tracker
    alone. *)
Lemma body_failure_keeps_tracker rs p plan s r :
  resolvers_quiet rs ->
  execute_action_body rs p plan s = r ->
  (forall m, r.2 <> Ok (true, m)) ->
  field_tracker r.1 = field_tracker s.
Proof.
  intros (Hc & Ht & Hce). unfold execute_action_body.
  destruct (String.eqb (action plan) "complete");
    [intros <- Hne; exfalso; by eapply Hne|].
  destruct (String.eqb (action plan) "press_key").
  { intros <- _. rewrite quiet_tracker; [done|].
    unfold keyboard_press. quiet. }
  destruct (String.eqb (action plan) "click" || String.eqb (action plan) "navigate").
  { unfold bind at 1.
    match goal with |- context [smart_click rs ?t ?k s] =>
      pose proof (quiet_tracker (smart_click rs t k) s (Hc t k)) as Hq;
      destruct (smart_click rs t k s) as [s1 [[success msg]|e]] end;
      simpl in Hq; [|by intros <-].
    destruct success; cbn [andb].
    - intros <- Hne. exfalso. apply (Hne msg). by destruct (PyStr.any_in _ _).
    - by intros <-. }
  destruct (String.eqb (action plan) "type_contenteditable").
  { unfold bind at 1, get_tracker at 1.
    destruct (is_filled _ _ _ _) eqn:Hf;
      [intros <- Hne; exfalso; by eapply Hne|].
    destruct (2 <=? _); [intros <- Hne; exfalso; by eapply Hne|].
    unfold bind at 1.
    match goal with |- context [type_contenteditable rs ?t ?v ?y s] =>
      pose proof (quiet_tracker (type_contenteditable rs t v y) s (Hce t v y)) as Hq;
      destruct (type_contenteditable rs t v y s) as [s1 [[success msg]|e]] end;
      simpl in Hq; [|by intros <-].
    destruct success; [|by intros <-].
    intros <- Hne. exfalso. apply (Hne msg).
    cbv [bind tracker_mark_filled tracker_set_content_created get_tracker
         set_tracker ret]; simpl.
    by destruct (_ || _). }
  destruct (String.eqb (action plan) "type").
  { unfold bind at 1, get_tracker at 1.
    destruct (is_filled _ _ _ _) eqn:Hf;
      [intros <- Hne; exfalso; by eapply Hne|].
    destruct (2 <=? _); [intros <- Hne; exfalso; by eapply Hne|].
    unfold bind at 1.
    match goal with |- context [smart_type rs ?t ?v ?k ?y s] =>
      pose proof (quiet_tracker (smart_type rs t v k y) s (Ht t v k y)) as Hq;
      destruct (smart_type rs t v k y s) as [s1 [[success msg]|e]] end;
      simpl in Hq; [|by intros <-].
    destruct success; [|by intros <-].
    intros <- Hne. exfalso. by apply (Hne msg). }
  destruct (String.eqb (action plan) "wait"); [|by intros <-].
  intros <- _. rewrite quiet_tracker; [done|]. quiet.
Qed.

End ExecutorFailure.

(** X12.  An action that fails does not touch the field tracker: whenever
    [execute_action] returns [False] -- the resolver failed, the action is
    unknown, or an exception was caught -- the tracker is exactly as it was
    before the call.  (The resolvers themselves never write the tracker.) *)
Theorem failed_action_keeps_tracker :
  forall (rs : UniversalUIAgent.Resolvers) (p : Page)
         (plan : UniversalUIAgent.ActionPlan) (s s' : AgentState)
         (msg : string),
    resolvers_quiet rs ->
    UniversalUIAgent.execute_action rs p plan s = (s', Ok (false, msg)) ->
    field_tracker s' = field_tracker s.
Proof.
  intros rs p plan s s' msg Hq Hrun.
  pose proof (body_failure_keeps_tracker rs p plan s _ Hq eq_refl) as Hbody.
  unfold UniversalUIAgent.execute_action, try_except in Hrun.
  destruct (UniversalUIAgent.execute_action_body rs p plan s)
    as [s1 [[ok m]|e]]; simpl in Hbody.
  - injection Hrun as -> -> ->. by apply Hbody.
  - injection Hrun as -> _. by apply Hbody.
Qed.

Lemma failed_action_keeps_tracker_witness :
  resolvers_quiet (UniversalUIAgent.resolvers_of jammed_page) /\
  UniversalUIAgent.execute_action (UniversalUIAgent.resolvers_of jammed_page)
    jammed_page click_add_plan
    (UniversalUIAgent.execute_action
       (UniversalUIAgent.resolvers_of far_fields) far_fields type_title_plan
       fresh_agent).1
  = ({| field_tracker :=
          FormFieldTracker.mark_filled FormFieldTracker.init "title" "title"
            "Roadmap Q1" 0;
        trace := [EvClick (field_at "upper" 100) true;
                  EvFill (field_at "upper" 100) "";
                  EvFill (field_at "upper" 100) "Roadmap Q1";
                  EvClick jammed_button false] |},
     Ok (false, "Could not click: Add a description")) /\
  FormFieldTracker.is_filled
    (FormFieldTracker.mark_filled FormFieldTracker.init "title" "title"
       "Roadmap Q1" 0) "title" "title" 0 = true /\
  field_tracker
    {| field_tracker :=
         FormFieldTracker.mark_filled FormFieldTracker.init "title" "title"
           "Roadmap Q1" 0;
       trace := [EvClick (field_at "upper" 100) true;
                 EvFill (field_at "upper" 100) "";
                 EvFill (field_at "upper" 100) "Roadmap Q1";
                 EvClick jammed_button false] |}
  = field_tracker
      (UniversalUIAgent.execute_action
         (UniversalUIAgent.resolvers_of far_fields) far_fields type_title_plan
         fresh_agent).1.
Proof.
  assert (UniversalUIAgent.execute_action
            (UniversalUIAgent.resolvers_of jammed_page) jammed_page
            click_add_plan
            (UniversalUIAgent.execute_action
               (UniversalUIAgent.resolvers_of far_fields) far_fields
               type_title_plan fresh_agent).1
          = ({| field_tracker :=
                  FormFieldTracker.mark_filled FormFieldTracker.init "title"
                    "title" "Roadmap Q1" 0;
                trace := [EvClick (field_at "upper" 100) true;
                          EvFill (field_at "upper" 100) "";
                          EvFill (field_at "upper" 100) "Roadmap Q1";
                          EvClick jammed_button false] |},
             Ok (false, "Could not click: Add a description")))
    as Hrun by (vm_compute; reflexivity).
  split; [apply resolvers_of_quiet|]. split; [exact Hrun|].
  split; [vm_compute; reflexivity|].
  exact (failed_action_keeps_tracker _ _ _ _ _ _
           (resolvers_of_quiet jammed_page) Hrun).
Defined.

Section ExecutorClick.
Import FormFieldTracker UniversalUIAgent Driver.

Lemma click_tracker rs p plan s s' ok msg :
  resolvers_quiet rs -> clicking plan ->
  execute_action rs p plan s = (s', Ok (ok, msg)) ->
  field_tracker s'
  = if ok && creation_target plan then reset (field_tracker s)
    else field_tracker s.
Proof.
  intros (Hc & _ & _) Hclick.
  unfold execute_action, try_except, execute_action_body, creation_target.
  assert (String.eqb (action plan) "complete" = false) as ->
    by (by destruct Hclick as [-> | ->]).
  assert (String.eqb (action plan) "press_key" = false) as ->
    by (by destruct Hclick as [-> | ->]).
  assert (String.eqb (action plan) "click"
          || String.eqb (action plan) "navigate" = true) as ->
    by (by destruct Hclick as [-> | ->]).
  unfold bind at 1.
  match goal with |- context [smart_click rs ?t ?k s] =>
    pose proof (quiet_tracker (smart_click rs t k) s (Hc t k)) as Hq;
    destruct (smart_click rs t k s) as [s1 [[success m]|e]] end;
    simpl in Hq.
  - destruct success; cbn [andb].
    + destruct (PyStr.any_in _ _); intros [= <- <- _]; simpl; congruence.
    + intros [= <- <- _]. done.
  - intros [= <- <- _]. done.
Qed.

End ExecutorClick.

(** X13.  A successful [click] or [navigate] whose target contains one of
    the words create, new, add, repository, project, issue (in any case)
    empties the field tracker: afterwards no field counts as filled, so
    every field typed before may be typed again.  A click on any other
    target, and a click that fails, leave the tracker as it was. *)
Theorem creation_click_resets_tracker :
  forall (rs : UniversalUIAgent.Resolvers) (p : Page)
         (plan : UniversalUIAgent.ActionPlan) (s s' : AgentState)
         (ok : bool) (msg : string),
    resolvers_quiet rs -> clicking plan ->
    UniversalUIAgent.execute_action rs p plan s = (s', Ok (ok, msg)) ->
    (ok = true -> creation_target plan = true ->
     field_tracker s' = FormFieldTracker.init /\
     forall f purpose y,
       FormFieldTracker.is_filled (field_tracker s') f purpose y = false) /\
    (ok = false \/ creation_target plan = false ->
     field_tracker s' = field_tracker s).
Proof.
  intros rs p plan s s' ok msg Hq Hclick Hrun.
  rewrite (click_tracker rs p plan s s' ok msg Hq Hclick Hrun). split.
  - intros -> ->. split; [done|]. intros f purpose y.
    apply is_filled_reset.
  - intros [-> | ->]; [done|]. by rewrite andb_false_r.
Qed.

Lemma creation_click_resets_tracker_witness :
  resolvers_quiet (UniversalUIAgent.resolvers_of description_page) /\
  clicking click_add_plan /\
  UniversalUIAgent.execute_action
    (UniversalUIAgent.resolvers_of description_page) description_page
    click_add_plan
    (UniversalUIAgent.execute_action
       (UniversalUIAgent.resolvers_of far_fields) far_fields type_title_plan
       fresh_agent).1
  = ({| field_tracker := FormFieldTracker.init;
        trace := [EvClick (field_at "upper" 100) true;
                  EvFill (field_at "upper" 100) "";
                  EvFill (field_at "upper" 100) "Roadmap Q1";
                  EvClick add_button false] |},
     Ok (true, "Clicked using strategy 1")) /\
  FormFieldTracker.is_filled
    (field_tracker
       (UniversalUIAgent.execute_action
          (UniversalUIAgent.resolvers_of far_fields) far_fields
          type_title_plan fresh_agent).1) "title" "title" 0 = true /\
  (true = true -> creation_target click_add_plan = true ->
   field_tracker
     {| field_tracker := FormFieldTracker.init;
        trace := [EvClick (field_at "upper" 100) true;
                  EvFill (field_at "upper" 100) "";
                  EvFill (field_at "upper" 100) "Roadmap Q1";
                  EvClick add_button false] |}
   = FormFieldTracker.init /\
   forall f purpose y,
     FormFieldTracker.is_filled
       (field_tracker
          {| field_tracker := FormFieldTracker.init;
             trace := [EvClick (field_at "upper" 100) true;
                       EvFill (field_at "upper" 100) "";
                       EvFill (field_at "upper" 100) "Roadmap Q1";
                       EvClick add_button false] |}) f purpose y = false).
Proof.
  assert (clicking click_add_plan) as Hc by (by left).
  split; [apply resolvers_of_quiet|]. split; [exact Hc|].
  split; [vm_compute; reflexivity|]. split; [vm_compute; reflexivity|].
  apply (creation_click_resets_tracker
           (UniversalUIAgent.resolvers_of description_page) description_page
           click_add_plan
           (UniversalUIAgent.execute_action
              (UniversalUIAgent.resolvers_of far_fields) far_fields
              type_title_plan fresh_agent).1
           _ true "Clicked using strategy 1"
           (resolvers_of_quiet description_page) Hc).
  vm_compute. reflexivity.
Defined.

(** ** Orchestrator: one iteration, in full *)

Section LoopStep.
Import UniversalUIAgent.

(** What one iteration does to the loop variables and to the workflow. *)
Lemma loop_body_step task iu env k st :
  match loop_body task iu env k st with
  | Continue st' =>
      exists ok ui,
        creation_completed st'
        = (if ok && PyStr.any_in final_submit_targets
                      (PyStr.lower (default "" (target (env_plan env))))
           then true else creation_completed st) /\
        actions_taken st'
        = actions_taken st ++ [action_summary k (env_plan env) ok] /\
        workflow st' = append_state (workflow st) ui /\
        ui_actions_taken ui = actions_taken st /\
        step_number ui = k
  | Break st' =>
      (creation_completed st = true /\
       url_indicates_success task (env_current_url env) iu = true /\
       workflow st' = finish (workflow st) "completed" k)
      \/
      workflow st' = finish (workflow st) "failed_infinite_loop" k
      \/
      exists ui,
        ui_actions_taken ui = actions_taken st /\
        step_number ui = k /\
        ((self_reports_complete (env_plan env) = true /\
          workflow st' = finish (append_state (workflow st) ui) "completed" k)
         \/
         workflow st'
         = finish (append_state (workflow st) ui) "failed_too_many_errors" k)
  | Propagate _ => True
  end.
Proof.
  unfold loop_body, completion_check.
  destruct (creation_completed st) eqn:Hcc.
  - destruct (Driver.wait_for_timeout (env_page env) 2000 (agent st))
      as [ag0 [[]|e]]; [|done].
    destruct (url_indicates_success _ _ _) eqn:Hurl; [by left|].
    destruct (repetition_guard _ _ _).2; [right; by left|].
    destruct (execute_action _ _ _ _) as [ag1 [[success message]|e]]; [|done].
    destruct (Driver.wait_for_timeout _ _ ag1) as [ag2 [[]|e]]; [|done].
    destruct (self_reports_complete _) eqn:Hsr.
    { right; right. eexists. split; [|split; [|left; split; [done|]]].
      3: reflexivity. all: reflexivity. }
    destruct (4 <=? _).
    { right; right. eexists. split; [|split; [|right]].
      3: reflexivity. all: reflexivity. }
    exists success. eexists. split; [|split; [|split]].
    3: reflexivity. all: simpl; try done.
  - destruct (repetition_guard _ _ _).2; [right; by left|].
    destruct (execute_action _ _ _ _) as [ag1 [[success message]|e]]; [|done].
    destruct (Driver.wait_for_timeout _ _ ag1) as [ag2 [[]|e]]; [|done].
    destruct (self_reports_complete _) eqn:Hsr.
    { right; right. eexists. split; [|split; [|left; split; [done|]]].
      3: reflexivity. all: reflexivity. }
    destruct (4 <=? _).
    { right; right. eexists. split; [|split; [|right]].
      3: reflexivity. all: reflexivity. }
    exists success. eexists. split; [|split; [|split]].
    3: reflexivity. all: simpl; try done.
Qed.

(** An invariant of the loop variables holds wherever the loop stands, and
    held at the iteration that left the loop. *)
Lemma run_steps_invariant task iu env (I : Z -> LoopState -> Prop) :
  (forall k st st',
     I k st -> loop_body task iu (env k) k st = Continue st' ->
     I (k + 1) st') ->
  forall fuel k st,
    I k st ->
    match run_steps task iu env fuel k st with
    | Continue st' => I (k + Z.of_nat fuel) st'
    | Break st' =>
        exists j st0,
          k <= j < k + Z.of_nat fuel /\ I j st0 /\
          loop_body task iu (env j) j st0 = Break st'
    | Propagate _ => True
    end.
Proof.
  intros Hstep. induction fuel as [|fuel IH]; intros k st HI.
  - simpl. by rewrite Z.add_0_r.
  - cbn [run_steps].
    destruct (loop_body task iu (env k) k st) as [st1|st1|e] eqn:Hbody.
    + specialize (IH (k + 1) st1 (Hstep k st st1 HI Hbody)).
      destruct (run_steps task iu env fuel (k + 1) st1) as [st2|st2|e].
      * by replace (k + Z.of_nat (S fuel)) with (k + 1 + Z.of_nat fuel) by lia.
      * destruct IH as (j & st0 & Hj & HIj & Hb).
        exists j, st0. split; [lia|done].
      * done.
    + exists k, st. split; [lia|done].
    + done.
Qed.

End LoopStep.

(** ** Orchestrator: how a run comes to be [completed] *)

Section Completion.
Import UniversalUIAgent.
Variable w : World.
Variable task : string.

Lemma creation_latch_step k st st' :
  creation_latch w k st ->
  loop_body task (initial_url w) (step_env w k) k st = Continue st' ->
  creation_latch w (k + 1) st'.
Proof.
  intros (Hk & Hst & Hlatch) Hbody.
  pose proof (loop_body_step task (initial_url w) (step_env w k) k st) as Hs.
  rewrite Hbody in Hs.
  destruct Hs as (ok & ui & Hcc & _ & Hwf & _). split; [lia|]. split.
  - by rewrite Hwf.
  - rewrite Hcc. destruct (ok && _) eqn:Hfinal.
    + intros _. exists k. split; [lia|].
      by apply andb_prop in Hfinal as [_ ?].
    + intros Ht. destruct (Hlatch Ht) as (j & Hj & Hf).
      exists j. split; [lia|done].
Qed.

End Completion.

(** X15.  A run ends [completed] in two ways only.  Either the plan of the
    last step reported completion with a confidence above 0.7; or, at the
    head of the last step, the URL showed the created entity and an earlier
    step of the run had a target containing a final-submit phrase.  The URL
    alone never completes a run.  The last step is [total_steps], between 1
    and the step budget. *)
Theorem completed_needs_report_or_submit :
  forall (w : UniversalUIAgent.World) (task app_url app_name : string)
         (max_steps : Z) (ag : AgentState)
         (wf : UniversalUIAgent.TaskWorkflow),
    UniversalUIAgent.execute_task w task app_url app_name max_steps ag
    = Ok wf ->
    UniversalUIAgent.completion_status wf = "completed" ->
    let k := UniversalUIAgent.total_steps wf in
    1 <= k <= max_steps /\
    (UniversalUIAgent.self_reports_complete
       (UniversalUIAgent.env_plan (UniversalUIAgent.step_env w k)) = true \/
     (UniversalUIAgent.url_indicates_success task
        (UniversalUIAgent.env_current_url (UniversalUIAgent.step_env w k))
        (UniversalUIAgent.initial_url w) = true /\
      exists j, 1 <= j < k /\ final_submit_step w j = true)).
Proof.
  intros w task app_url app_name max_steps ag wf Hrun Hdone k. subst k.
  unfold UniversalUIAgent.execute_task in Hrun.
  destruct (_ && _); [done|].
  pose proof (run_steps_invariant task (UniversalUIAgent.initial_url w)
                (UniversalUIAgent.step_env w) (creation_latch w)
                (creation_latch_step w task) (Z.to_nat max_steps) 1
                (UniversalUIAgent.loop_init task app_url app_name ag)) as Hinv.
  assert (creation_latch w 1
            (UniversalUIAgent.loop_init task app_url app_name ag)) as Hinit
    by (by split; [lia|split]).
  specialize (Hinv Hinit).
  destruct (UniversalUIAgent.run_steps _ _ _ _ _ _) as [st|st|e]; [| |done];
    injection Hrun as <-; unfold UniversalUIAgent.finalize in *.
  - destruct Hinv as (_ & Hst & _). rewrite Hst in Hdone. done.
  - destruct Hinv as (j & st0 & Hj & (_ & Hst0 & Hlatch) & Hbody).
    pose proof (loop_body_step task (UniversalUIAgent.initial_url w)
                  (UniversalUIAgent.step_env w j) j st0) as Hs.
    rewrite Hbody in Hs.
    destruct Hs as [(Hcc & Hurl & Hwf)|[Hwf|(ui & _ & _ & [[Hsr Hwf]|Hwf])]];
      rewrite Hwf in *; simpl in *; try done.
    + split; [lia|]. right. split; [done|]. by apply Hlatch.
    + split; [lia|]. by left.
Qed.

Lemma completed_needs_report_or_submit_witness :
  exists wf,
    UniversalUIAgent.execute_task creating_repository "Create a repository"
      "https://github.com/new" "GitHub" 5 fresh_agent
    = Ok wf /\
    UniversalUIAgent.completion_status wf = "completed" /\
    UniversalUIAgent.total_steps wf = 2 /\
    1 <= UniversalUIAgent.total_steps wf <= 5 /\
    (UniversalUIAgent.self_reports_complete
       (UniversalUIAgent.env_plan
          (UniversalUIAgent.step_env creating_repository
             (UniversalUIAgent.total_steps wf))) = true \/
     (UniversalUIAgent.url_indicates_success "Create a repository"
        (UniversalUIAgent.env_current_url
           (UniversalUIAgent.step_env creating_repository
              (UniversalUIAgent.total_steps wf)))
        (UniversalUIAgent.initial_url creating_repository) = true /\
      exists j,
        1 <= j < UniversalUIAgent.total_steps wf /\
        final_submit_step creating_repository j = true)).
Proof.
  assert (exists wf,
            UniversalUIAgent.execute_task creating_repository
              "Create a repository" "https://github.com/new" "GitHub" 5
              fresh_agent = Ok wf /\
            UniversalUIAgent.completion_status wf = "completed" /\
            UniversalUIAgent.total_steps wf = 2) as (wf & H1 & H2 & H3)
    by (eexists; split; [vm_compute; reflexivity|split; reflexivity]).
  exists wf. split; [exact H1|]. split; [exact H2|]. split; [exact H3|].
  exact (completed_needs_report_or_submit creating_repository
           "Create a repository" "https://github.com/new" "GitHub" 5
           fresh_agent wf H1 H2).
Defined.

(** ** Orchestrator: the action history in the recorded states *)

Section History.
Import UniversalUIAgent.
Variable w : World.
Variable task : string.

Lemma history_recorded_step k st st' :
  history_recorded w k st ->
  loop_body task (initial_url w) (step_env w k) k st = Continue st' ->
  history_recorded w (k + 1) st'.
Proof.
  intros (Hk & Hlen & Hsame & Hsum & Hstates) Hbody.
  pose proof (loop_body_step task (initial_url w) (step_env w k) k st) as Hs.
  rewrite Hbody in Hs.
  destruct Hs as (ok & ui & _ & Hact & Hwf & Hui & _).
  unfold history_recorded. rewrite Hact, Hwf. cbn [append_state states].
  split; [lia|]. split; [rewrite length_app; simpl; lia|].
  split; [by rewrite !length_app, Hsame|]. split.
  - intros l summary Hl. apply lookup_app_Some in Hl as [Hl|[Hge Hl]].
    + by apply Hsum.
    + apply list_lookup_singleton_Some in Hl as [Hl <-].
      exists ok. by replace (1 + Z.of_nat l) with k by lia.
  - intros i ui' Hi. apply lookup_app_Some in Hi as [Hi|[Hge Hi]].
    + rewrite (Hstates i ui' Hi).
      apply lookup_lt_Some in Hi. rewrite take_app_le by lia. done.
    + apply list_lookup_singleton_Some in Hi as [Hi <-].
      assert (i = length (actions_taken st)) as -> by lia.
      by rewrite take_app_length.
Qed.

End History.

(** X16.  Every recorded state holds its own copy of the action history:
    the state recorded at step i+1 lists exactly the i summaries of the
    steps 1 to i, each of the form [Step n: action - target -> mark] for
    the plan of step n, and later steps do not change it.  (All the
    states' lists are prefixes of one history.) *)
Theorem states_hold_history_snapshots :
  forall (w : UniversalUIAgent.World) (task app_url app_name : string)
         (max_steps : Z) (ag : AgentState)
         (wf : UniversalUIAgent.TaskWorkflow),
    UniversalUIAgent.execute_task w task app_url app_name max_steps ag
    = Ok wf ->
    exists history : list string,
      summaries_of w 1 history /\
      forall (i : nat) (ui : UniversalUIAgent.UIState),
        UniversalUIAgent.states wf !! i = Some ui ->
        UniversalUIAgent.ui_actions_taken ui = take i history /\
        length (UniversalUIAgent.ui_actions_taken ui) = i.
Proof.
  intros w task app_url app_name max_steps ag wf Hrun.
  unfold UniversalUIAgent.execute_task in Hrun.
  destruct (_ && _); [done|].
  pose proof (run_steps_invariant task (UniversalUIAgent.initial_url w)
                (UniversalUIAgent.step_env w) (history_recorded w)
                (history_recorded_step w task) (Z.to_nat max_steps) 1
                (UniversalUIAgent.loop_init task app_url app_name ag)) as Hinv.
  assert (history_recorded w 1
            (UniversalUIAgent.loop_init task app_url app_name ag)) as Hinit.
  { split; [lia|]. split; [done|]. split; [done|]. split; by intros [|?] ?. }
  specialize (Hinv Hinit).
  assert (forall st wf',
            (exists k, history_recorded w k st) ->
            UniversalUIAgent.states wf'
            = UniversalUIAgent.states (UniversalUIAgent.workflow st) \/
            (exists ui,
               UniversalUIAgent.ui_actions_taken ui
               = UniversalUIAgent.actions_taken st /\
               UniversalUIAgent.states wf'
               = UniversalUIAgent.states (UniversalUIAgent.workflow st)
                 ++ [ui]) ->
            exists history : list string,
              summaries_of w 1 history /\
              forall (i : nat) (ui : UniversalUIAgent.UIState),
                UniversalUIAgent.states wf' !! i = Some ui ->
                UniversalUIAgent.ui_actions_taken ui = take i history /\
                length (UniversalUIAgent.ui_actions_taken ui) = i) as Hend.
  { intros st wf' (k & _ & _ & Hsame & Hsum & Hstates) Hwf'.
    exists (UniversalUIAgent.actions_taken st). split; [done|].
    intros i ui Hi.
    assert (UniversalUIAgent.ui_actions_taken ui
            = take i (UniversalUIAgent.actions_taken st) /\
            (i <= length (UniversalUIAgent.actions_taken st))%nat)
      as [Hui Hle].
    { destruct Hwf' as [Heq|(ui' & Hui' & Heq)]; rewrite Heq in Hi.
      - split; [by apply Hstates|]. apply lookup_lt_Some in Hi. lia.
      - apply lookup_app_Some in Hi as [Hi|[Hge Hi]].
        + split; [by apply Hstates|]. apply lookup_lt_Some in Hi. lia.
        + apply list_lookup_singleton_Some in Hi as [Hi <-].
          assert (i = length (UniversalUIAgent.actions_taken st)) as ->
            by lia.
          split; [|done]. by rewrite Hui', firstn_all. }
    split; [done|]. rewrite Hui, length_take. lia. }
  destruct (UniversalUIAgent.run_steps _ _ _ _ _ _) as [st|st|e]; [| |done];
    injection Hrun as <-.
  - apply (Hend st); [by eexists|]. left.
    unfold UniversalUIAgent.finalize. by destruct (String.eqb _ _).
  - destruct Hinv as (j & st0 & Hj & Hrec & Hbody).
    pose proof (loop_body_step task (UniversalUIAgent.initial_url w)
                  (UniversalUIAgent.step_env w j) j st0) as Hs.
    rewrite Hbody in Hs.
    apply (Hend st0); [by eexists|].
    unfold UniversalUIAgent.finalize.
    destruct Hs as [(_ & _ & Hwf)|[Hwf|(ui & Hui & _ & [[_ Hwf]|Hwf])]];
      rewrite Hwf; destruct (String.eqb _ _); simpl; eauto.
Qed.

Lemma states_hold_history_snapshots_witness :
  exists wf,
    UniversalUIAgent.execute_task (world_of failing_clicks_plain)
      "Create a project" "https://github.com" "GitHub" 10 fresh_agent
    = Ok wf /\
    length (UniversalUIAgent.states wf) = 4%nat /\
    exists history : list string,
      summaries_of (world_of failing_clicks_plain) 1 history /\
      forall (i : nat) (ui : UniversalUIAgent.UIState),
        UniversalUIAgent.states wf !! i = Some ui ->
        UniversalUIAgent.ui_actions_taken ui = take i history /\
        length (UniversalUIAgent.ui_actions_taken ui) = i.
Proof.
  assert (exists wf,
            UniversalUIAgent.execute_task (world_of failing_clicks_plain)
              "Create a project" "https://github.com" "GitHub" 10 fresh_agent
            = Ok wf /\
            length (UniversalUIAgent.states wf) = 4%nat) as (wf & H1 & H2)
    by (eexists; split; [vm_compute; reflexivity|reflexivity]).
  exists wf. split; [exact H1|]. split; [exact H2|].
  exact (states_hold_history_snapshots (world_of failing_clicks_plain)
           "Create a project" "https://github.com" "GitHub" 10 fresh_agent
           wf H1).
Defined.

(** ** Planner: extracting the JSON object *)

Section JsonSpan.
Import UniversalUIAgent.

Lemma str_in_char_cons (c d : ascii) (s : string) :
  PyStr.str_in (String c "") (String d s)
  = (if Ascii.eqb c d then true else PyStr.str_in (String c "") s).
Proof.
  cbn [PyStr.str_in String.prefix].
  destruct (ascii_dec c d) as [<-|Hne].
  - rewrite Ascii.eqb_refl. by destruct s.
  - apply Ascii.eqb_neq in Hne. rewrite Hne. reflexivity.
Qed.

Lemma char_free_cons c d s :
  char_free c (String d s) -> Ascii.eqb c d = false /\ char_free c s.
Proof.
  unfold char_free. rewrite str_in_char_cons.
  by destruct (Ascii.eqb c d).
Qed.

Lemma str_find_absent c s : char_free c s -> str_find c s = -1.
Proof.
  induction s as [|d s IH]; [done|].
  intros [Hd Hs]%char_free_cons. cbn [str_find]. rewrite Hd, (IH Hs). done.
Qed.

Lemma str_rfind_absent c s : char_free c s -> str_rfind c s = -1.
Proof.
  induction s as [|d s IH]; [done|].
  intros [Hd Hs]%char_free_cons. cbn [str_rfind]. rewrite Hd, (IH Hs). done.
Qed.

Lemma str_find_first c pre rest :
  char_free c pre ->
  str_find c (pre +:+ String c rest) = Z.of_nat (String.length pre).
Proof.
  induction pre as [|d pre IH].
  - intros _. change (str_find c (String c rest) = 0).
    cbn [str_find]. by rewrite Ascii.eqb_refl.
  - intros [Hd Hpre]%char_free_cons.
    change (String d pre +:+ String c rest)
      with (String d (pre +:+ String c rest)).
    cbn [str_find String.length]. rewrite Hd, (IH Hpre).
    destruct (Z.eqb_spec (Z.of_nat (String.length pre)) (-1)); lia.
Qed.

Lemma str_rfind_last c pre post :
  char_free c post ->
  str_rfind c (pre +:+ String c post) = Z.of_nat (String.length pre).
Proof.
  intros Hpost. induction pre as [|d pre IH].
  - change (str_rfind c (String c post) = 0).
    cbn [str_rfind]. by rewrite (str_rfind_absent c post Hpost), Ascii.eqb_refl.
  - change (String d pre +:+ String c post)
      with (String d (pre +:+ String c post)).
    cbn [str_rfind String.length]. rewrite IH.
    destruct (Z.eqb_spec (Z.of_nat (String.length pre)) (-1)); lia.
Qed.

Lemma substring_prefix mid post :
  String.substring 0 (String.length mid) (mid +:+ post) = mid.
Proof.
  induction mid as [|d mid IH].
  - change ("" +:+ post) with post. by destruct post.
  - change (String d mid +:+ post) with (String d (mid +:+ post)).
    cbn [String.length String.substring]. by rewrite IH.
Qed.

Lemma substring_middle pre mid post :
  String.substring (String.length pre) (String.length mid)
    (pre +:+ mid +:+ post) = mid.
Proof.
  induction pre as [|d pre IH].
  - change ("" +:+ mid +:+ post) with (mid +:+ post).
    apply substring_prefix.
  - change (String d pre +:+ mid +:+ post)
      with (String d (pre +:+ mid +:+ post)).
    cbn [String.length String.substring]. apply IH.
Qed.

Lemma length_append_str s1 s2 :
  String.length (s1 +:+ s2) = (String.length s1 + String.length s2)%nat.
Proof.
  induction s1 as [|d s1 IH]; [done|].
  change (String d s1 +:+ s2) with (String d (s1 +:+ s2)).
  cbn [String.length]. by rewrite IH.
Qed.

(** Chatter without braces around the object is dropped. *)
Lemma json_span_object pre body post :
  char_free "{" pre -> char_free "}" post ->
  json_span (pre +:+ "{" +:+ body +:+ "}" +:+ post)
  = Some ("{" +:+ body +:+ "}").
Proof.
  intros Hpre Hpost.
  change ("{" +:+ body +:+ "}" +:+ post)
    with (String "{" (body +:+ String "}" post)).
  change ("{" +:+ body +:+ "}") with (String "{" (body +:+ "}")).
  set (text := pre +:+ String "{" (body +:+ String "}" post)).
  set (mid := String "{" (body +:+ "}")).
  assert (str_find "{" text = Z.of_nat (String.length pre)) as Hfind
    by (by apply str_find_first).
  assert (str_rfind "}" text
          = Z.of_nat (String.length pre) + 1 + Z.of_nat (String.length body))
    as Hrfind.
  { unfold text.
    replace (pre +:+ String "{" (body +:+ String "}" post))
      with ((pre +:+ String "{" body) +:+ String "}" post)
      by (by rewrite str_app_assoc).
    rewrite (str_rfind_last "}" _ post Hpost), length_append_str.
    cbn [String.length]. lia. }
  assert (String.length mid = S (S (String.length body))) as Hmid.
  { unfold mid. cbn [String.length]. rewrite length_append_str.
    cbn [String.length]. lia. }
  assert (text = pre +:+ mid +:+ post) as Htext.
  { unfold text, mid. f_equal.
    change (String "{" (body +:+ "}") +:+ post)
      with (String "{" ((body +:+ "}") +:+ post)).
    f_equal. by rewrite str_app_assoc. }
  unfold json_span. rewrite Hfind, Hrfind. cbv zeta.
  destruct (Z.eqb_spec (Z.of_nat (String.length pre)) (-1)); [lia|].
  destruct (Z.ltb_spec (Z.of_nat (String.length pre))
              (Z.of_nat (String.length pre) + 1
               + Z.of_nat (String.length body) + 1)); [|lia].
  cbn [negb andb]. f_equal. unfold slice.
  rewrite Nat2Z.id.
  replace (Z.to_nat (Z.of_nat (String.length pre) + 1
                     + Z.of_nat (String.length body) + 1
                     - Z.of_nat (String.length pre)))
    with (String.length mid) by (rewrite Hmid; lia).
  rewrite Htext. apply substring_middle.
Qed.

Lemma json_span_no_brace s : char_free "{" s -> json_span s = None.
Proof.
  intros Hs. unfold json_span. by rewrite (str_find_absent _ _ Hs).
Qed.

End JsonSpan.

(** X17.  The planner reads the JSON object out of the model's answer
    whatever surrounds it: if the stripped answer is some text without an
    opening brace, then an object from its opening brace to its closing
    brace, then some text without a closing brace, the plan returned is the
    parse of exactly that object, with the defaults filled in. *)
Theorem analyze_and_plan_reads_object :
  forall (loads : string -> outcome UniversalUIAgent.RawPlan)
         (content pre body post : string) (raw : UniversalUIAgent.RawPlan),
    PyStr.strip content = pre +:+ "{" +:+ body +:+ "}" +:+ post ->
    char_free "{" pre -> char_free "}" post ->
    loads ("{" +:+ body +:+ "}") = Ok raw ->
    UniversalUIAgent.analyze_and_plan (Ok content) loads
    = UniversalUIAgent.with_defaults raw.
Proof.
  intros loads content pre body post raw Hstrip Hpre Hpost Hloads.
  unfold UniversalUIAgent.analyze_and_plan. cbv zeta.
  by rewrite Hstrip, (json_span_object pre body post Hpre Hpost), Hloads.
Qed.

Lemma analyze_and_plan_reads_object_witness :
  PyStr.strip "  Here is the plan: {} Hope it helps.  "
  = "Here is the plan: " +:+ "{" +:+ "" +:+ "}" +:+ " Hope it helps." /\
  char_free "{" "Here is the plan: " /\ char_free "}" " Hope it helps." /\
  UniversalUIAgent.analyze_and_plan
    (Ok "  Here is the plan: {} Hope it helps.  ") loads_empty_object
  = plan_of "wait" None false (1 # 2).
Proof.
  assert (PyStr.strip "  Here is the plan: {} Hope it helps.  "
          = "Here is the plan: " +:+ "{" +:+ "" +:+ "}" +:+ " Hope it helps.")
    as H1 by reflexivity.
  assert (char_free "{" "Here is the plan: ") as H2 by reflexivity.
  assert (char_free "}" " Hope it helps.") as H3 by reflexivity.
  split; [exact H1|]. split; [exact H2|]. split; [exact H3|].
  exact (analyze_and_plan_reads_object loads_empty_object
           "  Here is the plan: {} Hope it helps.  " "Here is the plan: " ""
           " Hope it helps." _ H1 H2 H3 eq_refl).
Defined.

(** ** Planner: defaults and fallbacks *)

Section PlannerFacts.
Import UniversalUIAgent.

Lemma planner_failed_plan llm loads :
  planner_failed llm loads ->
  let plan := analyze_and_plan llm loads in
  action plan = "wait" /\ target plan = None /\ value plan = None /\
  is_complete plan = false /\ wait_after plan = Some 2000.
Proof.
  unfold analyze_and_plan.
  intros [[e ->]|(content & -> & [Hspan|(js & e & Hspan & Hloads)])];
    cbv zeta; rewrite ?Hspan, ?Hloads; done.
Qed.

End PlannerFacts.

(** X18.  Every plan the planner returns has [wait_after], [confidence]
    and [target_y_position] set.  And it passes the loop's completion test
    ([is_complete] with a confidence above 0.7) only if the model's own
    object said so with [is_complete] true and an explicit confidence above
    0.7: an object without a confidence gets 0.5, and the fallback plans
    for an unreadable answer or a failed request are never complete. *)
Theorem planner_completion_is_explicit :
  forall (llm : outcome string)
         (loads : string -> outcome UniversalUIAgent.RawPlan),
    let plan := UniversalUIAgent.analyze_and_plan llm loads in
    is_Some (UniversalUIAgent.wait_after plan) /\
    is_Some (UniversalUIAgent.confidence plan) /\
    is_Some (UniversalUIAgent.target_y_position plan) /\
    (UniversalUIAgent.self_reports_complete plan = true ->
     exists content json_str raw c,
       llm = Ok content /\
       UniversalUIAgent.json_span (PyStr.strip content) = Some json_str /\
       loads json_str = Ok raw /\
       UniversalUIAgent.raw_is_complete raw = Some true /\
       UniversalUIAgent.raw_confidence raw = Some c /\
       Qle_bool c UniversalUIAgent.threshold_0_7 = false).
Proof.
  intros llm loads plan. subst plan. unfold UniversalUIAgent.analyze_and_plan.
  assert (forall e P,
            UniversalUIAgent.self_reports_complete
              (UniversalUIAgent.error_plan e) = true -> P) as Herr
    by (intros e P H; vm_compute in H; discriminate).
  destruct llm as [content|e].
  2:{ repeat (split; [by eexists|]). apply Herr. }
  cbv zeta.
  destruct (UniversalUIAgent.json_span (PyStr.strip content)) as [json_str|]
    eqn:Hspan.
  2:{ repeat (split; [by eexists|]). intros H. vm_compute in H. discriminate. }
  destruct (loads json_str) as [raw|e] eqn:Hloads.
  2:{ repeat (split; [by eexists|]). apply Herr. }
  repeat (split; [by eexists|]).
  unfold UniversalUIAgent.self_reports_complete, UniversalUIAgent.with_defaults.
  cbn [UniversalUIAgent.is_complete UniversalUIAgent.confidence].
  destruct (UniversalUIAgent.raw_is_complete raw) as [[|]|] eqn:Hc;
    cbn [default andb]; try done.
  destruct (UniversalUIAgent.raw_confidence raw) as [c|] eqn:Hconf;
    cbn [default].
  - intros Hq%negb_true_iff. by exists content, json_str, raw, c.
  - intros H. vm_compute in H. discriminate.
Qed.

(** ** Planner failures and the step loop *)

Section Outage.
Import UniversalUIAgent.

(** One iteration on a plan that asks to wait, has neither target nor
    value and does not report completion, while no creation is pending and
    the waits do not fail. *)
Lemma loop_body_wait task iu env k st :
  reliable_waits (env_page env) ->
  action (env_plan env) = "wait" -> target (env_plan env) = None ->
  value (env_plan env) = None -> is_complete (env_plan env) = false ->
  creation_completed st = false ->
  let guard := repetition_guard "wait||" (last_action_signature st)
                 (same_action_count st) in
  match loop_body task iu env k st with
  | Continue st' =>
      guard.2 = false /\
      creation_completed st' = false /\
      last_action_signature st' = "wait||" /\
      same_action_count st' = guard.1 /\
      exists ui, workflow st' = append_state (workflow st) ui
  | Break st' =>
      guard.2 = true /\
      workflow st' = finish (workflow st) "failed_infinite_loop" k
  | Propagate _ => False
  end.
Proof.
  intros Hwait Hact Htarget Hvalue Hcomplete Hcc guard.
  unfold loop_body, completion_check. rewrite Hcc.
  assert (action_signature (env_plan env) = "wait||") as ->
    by (unfold action_signature; by rewrite Hact, Htarget, Hvalue).
  fold guard. destruct (guard.2) eqn:Hguard; [done|].
  assert (exists m,
            execute_action (resolvers_of (env_page env)) (env_page env)
              (env_plan env) (agent st) = (agent st, Ok (true, m)))
    as [m ->].
  { unfold execute_action, try_except, execute_action_body.
    rewrite Hact. cbn [String.eqb Ascii.eqb Bool.eqb orb].
    unfold bind, Driver.wait_for_timeout, lift. rewrite Hwait.
    by eexists. }
  unfold Driver.wait_for_timeout, lift. rewrite Hwait. cbn [faulty].
  unfold self_reports_complete. rewrite Hcomplete, Htarget. cbn [andb].
  cbn [Z.leb Z.compare]. repeat split; try done. by eexists.
Qed.

End Outage.



(** ** Prompt: the SKIP marker *)

Section PromptFacts.
Import FormFieldTracker UniversalUIAgent.

Lemma is_filled_mark_all_inv calls f p y :
  is_filled (mark_all init calls) f p y = true ->
  exists c, In c calls /\ key_of_call c = create_field_key f p y.
Proof.
  induction calls as [|c calls IH] using rev_ind.
  - unfold is_filled. simpl. rewrite lookup_empty.
    intros [? [=]]%bool_decide_eq_true.
  - rewrite mark_all_snoc. unfold is_filled, mark_filled at 1; simpl.
    intros [v Hv]%bool_decide_eq_true.
    destruct (decide (create_field_key c.1.1.1 c.1.1.2 c.2
                      = create_field_key f p y)) as [Heq|Hne].
    + exists c. split; [apply in_or_app; right; by left|].
      by rewrite key_of_call_eq.
    + rewrite lookup_insert_ne in Hv by done.
      destruct IH as (c' & Hin & Hkey).
      { apply bool_decide_eq_true. by eexists. }
      exists c'. split; [apply in_or_app; by left|done].
Qed.

Lemma prompt_field_purpose_cases field :
  In (prompt_field_purpose field) prompt_purposes.
Proof.
  unfold prompt_field_purpose, prompt_purposes. cbv zeta.
  destruct (PyStr.any_in _ _); [by left|].
  destruct (PyStr.any_in _ _); [right; by left|right; right; by left].
Qed.

Lemma same_key_same_purpose f1 p1 y1 f2 p2 y2 :
  bar_free p1 -> bar_free p2 ->
  create_field_key f1 p1 y1 = create_field_key f2 p2 y2 -> p1 = p2.
Proof.
  intros H1 H2 [_ Hfp]%create_field_key_split.
  change ("|" +:+ p1) with (String "|" p1) in Hfp.
  change ("|" +:+ p2) with (String "|" p2) in Hfp.
  by apply last_bar_split in Hfp as [_ ?].
Qed.

End PromptFacts.

(** X20.  The SKIP marker of the prompt only sees fields typed under the
    purposes the prompt itself computes (name, description, other).  If
    every field in the tracker was marked under another purpose -- title,
    summary or body, which the response format offers to the planner --
    then every input field is shown as CAN FILL, also the fields that were
    filled. *)
Theorem prompt_skip_needs_prompt_purpose :
  forall (calls : list (string * string * string * Z))
         (field : UniversalUIAgent.InputField),
    (forall c, In c calls ->
       bar_free (purpose_of_call c) /\
       ~ In (purpose_of_call c) prompt_purposes) ->
    UniversalUIAgent.already_filled (mark_all FormFieldTracker.init calls)
      field
    = "CAN FILL".
Proof.
  intros calls field Hcalls. unfold UniversalUIAgent.already_filled.
  cbv zeta.
  destruct (FormFieldTracker.is_filled _ _ _ _) eqn:Hfilled; [|done].
  apply is_filled_mark_all_inv in Hfilled as (c & Hin & Hkey).
  destruct (Hcalls c Hin) as [Hbar Hnot]. exfalso. apply Hnot.
  pose proof (prompt_field_purpose_cases field) as Hcases.
  rewrite key_of_call_eq in Hkey.
  assert (purpose_of_call c = c.1.1.2) as Hp by (by destruct c as [[[? ?] ?] ?]).
  rewrite Hp in *.
  apply same_key_same_purpose in Hkey; [by rewrite Hkey|done|].
  destruct Hcases as [<-|[<-|[<-|[]]]]; reflexivity.
Qed.

Lemma prompt_skip_needs_prompt_purpose_witness :
  (forall c, In c [("title", "title", "Roadmap Q1", 0)] ->
     bar_free (purpose_of_call c) /\
     ~ In (purpose_of_call c) prompt_purposes) /\
  FormFieldTracker.is_filled
    (mark_all FormFieldTracker.init [("title", "title", "Roadmap Q1", 0)])
    "title" "title" 20 = true /\
  UniversalUIAgent.already_filled
    (mark_all FormFieldTracker.init [("title", "title", "Roadmap Q1", 0)])
    title_field
  = "CAN FILL".
Proof.
  assert (forall c, In c [("title", "title", "Roadmap Q1", 0)] ->
            bar_free (purpose_of_call c) /\
            ~ In (purpose_of_call c) prompt_purposes) as H.
  { intros c [<-|[]]. split; [reflexivity|].
    intros [H|[H|[H|[]]]]; discriminate H. }
  split; [exact H|]. split; [vm_compute; reflexivity|].
  exact (prompt_skip_needs_prompt_purpose
           [("title", "title", "Roadmap Q1", 0)] title_field H).
Defined.

(** ** Orchestrator: recorded states and the cause of the stop *)

Section BreakCause.
Import UniversalUIAgent.

(** The ways out of the loop, each with its cause: [detected] is the URL
    test at the head of the iteration. *)
Lemma loop_body_break_cause task iu env k st st' :
  loop_body task iu env k st = Break st' ->
  let detected :=
    creation_completed st &&
    url_indicates_success task (env_current_url env) iu in
  (detected = true /\ workflow st' = finish (workflow st) "completed" k) \/
  (detected = false /\
   workflow st' = finish (workflow st) "failed_infinite_loop" k) \/
  (detected = false /\
   exists ui,
     step_number ui = k /\
     ((self_reports_complete (env_plan env) = true /\
       workflow st' = finish (append_state (workflow st) ui) "completed" k)
      \/
      (self_reports_complete (env_plan env) = false /\
       workflow st'
       = finish (append_state (workflow st) ui) "failed_too_many_errors" k))).
Proof.
  unfold loop_body, completion_check.
  destruct (creation_completed st) eqn:Hcc; cbn [andb].
  - destruct (Driver.wait_for_timeout (env_page env) 2000 (agent st))
      as [ag0 [[]|e]]; [|done].
    destruct (url_indicates_success _ _ _) eqn:Hurl;
      [intros [= <-]; by left|].
    destruct (repetition_guard _ _ _).2; [intros [= <-]; right; by left|].
    destruct (execute_action _ _ _ _) as [ag1 [[success message]|e]]; [|done].
    destruct (Driver.wait_for_timeout _ _ ag1) as [ag2 [[]|e]]; [|done].
    destruct (self_reports_complete _) eqn:Hsr.
    { intros [= <-]. right; right. split; [done|]. eexists.
      split; [|left; split; [done|]]. 2: reflexivity. reflexivity. }
    destruct (4 <=? _); [|done].
    intros [= <-]. right; right. split; [done|]. eexists.
    split; [|right; split; [done|]]. 2: reflexivity. reflexivity.
  - destruct (repetition_guard _ _ _).2; [intros [= <-]; right; by left|].
    destruct (execute_action _ _ _ _) as [ag1 [[success message]|e]]; [|done].
    destruct (Driver.wait_for_timeout _ _ ag1) as [ag2 [[]|e]]; [|done].
    destruct (self_reports_complete _) eqn:Hsr.
    { intros [= <-]. right; right. split; [done|]. eexists.
      split; [|left; split; [done|]]. 2: reflexivity. reflexivity. }
    destruct (4 <=? _); [|done].
    intros [= <-]. right; right. split; [done|]. eexists.
    split; [|right; split; [done|]]. 2: reflexivity. reflexivity.
Qed.

End BreakCause.


